(** * Generative Stochastic Network (opendeep): graph builder and layer updates

    A shallow embedding of
    [opendeep/models/multi_layer/generative_stochastic_network.py].

    The Theano graph is modelled by the values it denotes: a tensor is the
    matrix a symbolic variable evaluates to for a given input batch, so a run
    of a graph-building function here performs every Python-level step of the
    source (list indexing, assignment, [append]) together with the tensor
    operations the built graph stands for.  Failures are reported in program
    order as Python exceptions; the random generator [MRG] is threaded through
    as explicit state.  No algebraic law of the scalars is ever used. *)

From Stdlib Require Import ZArith QArith Ascii String.
From stdpp Require Import base list.

Local Open Scope nat_scope.

(** ** Python exceptions and results *)

Inductive exn : Type :=
| AssertionError
| NotImplementedError
| IndexError
| ValueError
| TypeError
| AttributeError.

#[global] Instance exn_eq_dec : EqDecision exn.
Proof. solve_decision. Defined.

Inductive result (A : Type) : Type :=
| Ok (a : A)
| Raise (e : exn).
Arguments Ok {A} a.
Arguments Raise {A} e.

Definition rbind {A B} (r : result A) (k : A → result B) : result B :=
  match r with
  | Ok a => k a
  | Raise e => Raise e
  end.

#[global] Instance result_bind : MBind result := λ A B k r, rbind r k.

#[global] Instance result_fmap : FMap result :=
  λ A B f r, match r with Ok a => Ok (f a) | Raise e => Raise e end.

(** [l[i]] for a non-negative index. *)
Definition getitem {A} (l : list A) (i : nat) : result A :=
  match l !! i with
  | Some x => Ok x
  | None => Raise IndexError
  end.

(** [l[i] = x] for a non-negative index: Python raises out of range. *)
Definition setitem {A} (l : list A) (i : nat) (x : A) : result (list A) :=
  if i <? length l then Ok (<[i:=x]> l) else Raise IndexError.

(** [l[-1]] *)
Definition getlast {A} (l : list A) : result A :=
  match last l with
  | Some x => Ok x
  | None => Raise IndexError
  end.

(** [for x in l: s = body(x, s)], for a body that draws nothing. *)
Fixpoint rfor_each {E S} (l : list E) (body : E → S → result S) (s : S) : result S :=
  match l with
  | [] => Ok s
  | x :: l' => s' ← body x s; rfor_each l' body s'
  end.

(** [enumerate(l)] *)
Definition enumerate {A} (l : list A) : list (nat * A) := zip (seq 0 (length l)) l.

(** [range(start, stop, step)] for non-negative bounds and a positive step. *)
Definition range (start stop step : nat) : list nat :=
  (λ k, start + k * step) <$> seq 0 ((stop - start + (step - 1)) / step).

(** ** Tensors *)

Class Scalar (R : Type) : Type := {
  zero : R;
  add : R → R → R;
  mul : R → R → R
}.

Section Tensor.
Context {R : Type} `{Scalar R}.

(** A matrix: its rows, and its number of columns (kept apart so that an
    empty batch still has a width). *)
Record tensor : Type := mkT { ncols : nat; rows : list (list R) }.

Abbreviation vector := (list R) (only parsing).

Definition nrows (t : tensor) : nat := length (rows t).

Definition wf (t : tensor) : Prop :=
  Forall (λ r, length r = ncols t) (rows t).

Definition has_shape (r c : nat) (t : tensor) : Prop :=
  nrows t = r ∧ ncols t = c ∧ wf t.

Definition zeros (r c : nat) : tensor := mkT c (replicate r (replicate c zero)).

(** [T.zeros_like(t)] *)
Definition zeros_like (t : tensor) : tensor := zeros (nrows t) (ncols t).

Definition column (j : nat) (t : tensor) : list R :=
  (λ r, nth j r zero) <$> rows t.

(** [t.T] *)
Definition transpose (t : tensor) : tensor :=
  mkT (nrows t) ((λ j, column j t) <$> seq 0 (ncols t)).

Definition dotprod (u v : list R) : R := foldr add zero (zip_with mul u v).

(** [T.dot(a, b)]: the inner dimensions have to agree. *)
Definition dot (a b : tensor) : result tensor :=
  if ncols a =? nrows b
  then Ok (mkT (ncols b) ((λ r, (λ j, dotprod r (column j b)) <$> seq 0 (ncols b)) <$> rows a))
  else Raise ValueError.

(** [a + b] on two matrices (no broadcastable dimension). *)
Definition tadd (a b : tensor) : result tensor :=
  if (nrows a =? nrows b) && (ncols a =? ncols b)
  then Ok (mkT (ncols a) (zip_with (zip_with add) (rows a) (rows b)))
  else Raise ValueError.

(** [a + v] for a bias vector [v], broadcast over the rows of [a]. *)
Definition badd (a : tensor) (v : vector) : result tensor :=
  if ncols a =? length v
  then Ok (mkT (ncols a) ((λ r, zip_with add r v) <$> rows a))
  else Raise ValueError.

(** [t[lo:hi]] along the first axis, for non-negative bounds. *)
Definition getslice (t : tensor) (lo hi : nat) : tensor :=
  mkT (ncols t) (take (hi - lo) (drop lo (rows t))).

Definition join (a b : tensor) : result tensor :=
  if nrows a =? nrows b
  then Ok (mkT (ncols a + ncols b) (zip_with app (rows a) (rows b)))
  else Raise ValueError.

(** [T.concatenate(l, axis=1)]; an empty list of tensors is refused. *)
Fixpoint concatenate (l : list tensor) : result tensor :=
  match l with
  | [] => Raise ValueError
  | [t] => Ok t
  | t :: ts => rbind (concatenate ts) (join t)
  end.
End Tensor.
Arguments tensor R : clear implicits.

(** A bias: a row of scalars. *)
Abbreviation vector R := (list R) (only parsing).

(** ** The noise library and the random generator

    [opendeep.utils.noise] and Theano's [MRG_RandomStreams] are not part of
    this file: they are an interface here.  Every draw consumes generator
    state and none of them fails. *)

Class Noise (R level MRG : Type) : Type := {
  MRG_RandomStreams : nat → MRG;
  salt_and_pepper : tensor R → level → MRG → tensor R * MRG;
  add_gaussian : tensor R → level → MRG → tensor R * MRG;
  MRG_binomial : tensor R → MRG → tensor R * MRG
}.

(** ** Computations: generator state and exceptions *)

Definition M (MRG A : Type) : Type := MRG → result (A * MRG).

Definition ret {MRG A} (a : A) : M MRG A := λ g, Ok (a, g).

Definition raise {MRG A} (e : exn) : M MRG A := λ _, Raise e.

Definition bind {MRG A B} (m : M MRG A) (k : A → M MRG B) : M MRG B :=
  λ g, match m g with
       | Ok (a, g') => k a g'
       | Raise e => Raise e
       end.

Definition lift {MRG A} (r : result A) : M MRG A :=
  λ g, match r with
       | Ok a => Ok (a, g)
       | Raise e => Raise e
       end.

Definition draw {MRG A} (f : MRG → A * MRG) : M MRG A := λ g, Ok (f g).

Notation "'let*' x ':=' c 'in' k" := (bind c (λ x, k))
  (at level 10, x pattern, c at level 100, k at level 200).

(** [for x in l: s = body(x, s)] *)
Fixpoint for_each {MRG E S} (l : list E) (body : E → S → M MRG S) (s : S) : M MRG S :=
  match l with
  | [] => ret s
  | i :: l' => let* s' := body i s in for_each l' body s'
  end.

(** ** The layer-update engine and the graph builders (static methods) *)

Section GSN.
Context {R level MRG : Type} `{Scalar R} `{Noise R level MRG}.

Abbreviation tensor := (tensor R).
Abbreviation M := (M MRG).

(** [p_X_chain.append(x)]; the odd-layer pass hands [None] for the chain. *)
Definition append (p_X_chain : option (list tensor)) (x : tensor)
  : result (option (list tensor)) :=
  match p_X_chain with
  | Some chain => Ok (Some (chain ++ [x]))
  | None => Raise AttributeError
  end.

(** The right-hand side of the first assignment [hiddens[i] = ...] of
    [simple_update_layer], one expression per kind of layer. *)
Definition pre_activation
    (hiddens weights_list : list tensor) (bias_list : list (vector R)) (i : nat)
  : result tensor :=
  if i =? 0 then
    (* the visible layer X *)
    h ← getitem hiddens (i + 1); w ← getitem weights_list i;
    d ← dot h (transpose w); b ← getitem bias_list i;
    badd d b
  else if i =? length hiddens - 1 then
    (* the top layer *)
    h ← getitem hiddens (i - 1); w ← getitem weights_list (i - 1);
    d ← dot h w; b ← getitem bias_list i;
    badd d b
  else
    (* in-between layers *)
    h ← getitem hiddens (i + 1); w ← getitem weights_list i;
    d ← dot h (transpose w);
    h' ← getitem hiddens (i - 1); w' ← getitem weights_list (i - 1);
    d' ← dot h' w'; s ← tadd d d'; b ← getitem bias_list i;
    badd s b.

Definition simple_update_layer
    (hiddens weights_list : list tensor) (bias_list : list (vector R))
    (p_X_chain : option (list tensor)) (i : nat)
    (add_noise noiseless_h1 : bool)
    (hidden_add_noise_sigma input_salt_and_pepper : level)
    (input_sampling : bool)
    (visible_activation hidden_activation : tensor → tensor)
  : M (list tensor * option (list tensor)) :=
  (* Compute the dot product, whatever layer *)
  let* hiddens :=
    lift (v ← pre_activation hiddens weights_list bias_list i; setitem hiddens i v) in
  (* no noise in the first hidden layer *)
  let add_noise := if (i =? 1) && noiseless_h1 then false else add_noise in
  (* pre activation noise *)
  let* hiddens :=
    if negb (i =? 0) && add_noise then
      let* h := lift (getitem hiddens i) in
      let* h' := draw (add_gaussian h hidden_add_noise_sigma) in
      lift (setitem hiddens i h')
    else ret hiddens in
  (* ACTIVATION! *)
  let* hiddens := lift (
    if i =? 0 then
      h ← getitem hiddens i; setitem hiddens i (visible_activation h)
    else
      h ← getitem hiddens i; setitem hiddens i (hidden_activation h)) in
  (* post activation noise *)
  let* hiddens :=
    if negb (i =? 0) && add_noise then
      let* h := lift (getitem hiddens i) in
      let* h' := draw (add_gaussian h hidden_add_noise_sigma) in
      lift (setitem hiddens i h')
    else ret hiddens in
  (* build the reconstruction chain if updating the visible layer X *)
  if i =? 0 then
    let* p_X_chain := lift (h ← getitem hiddens i; append p_X_chain h) in
    let* sampled :=
      if input_sampling then
        let* h := lift (getitem hiddens i) in draw (MRG_binomial h)
      else lift (getitem hiddens i) in
    let* sampled := draw (salt_and_pepper sampled input_salt_and_pepper) in
    let* hiddens := lift (setitem hiddens i sampled) in
    ret (hiddens, p_X_chain)
  else ret (hiddens, p_X_chain).

Definition update_odd_layers
    (hiddens weights_list : list tensor) (bias_list : list (vector R))
    (add_noise noiseless_h1 : bool)
    (hidden_add_noise_sigma input_salt_and_pepper : level)
    (input_sampling : bool)
    (visible_activation hidden_activation : tensor → tensor)
  : M (list tensor) :=
  for_each (range 1 (length hiddens) 2)
    (λ i hiddens,
       let* r := simple_update_layer hiddens weights_list bias_list None i
                   add_noise noiseless_h1 hidden_add_noise_sigma
                   input_salt_and_pepper input_sampling
                   visible_activation hidden_activation in
       ret (fst r))
    hiddens.

Definition update_even_layers
    (hiddens weights_list : list tensor) (bias_list : list (vector R))
    (p_X_chain : option (list tensor))
    (add_noise noiseless_h1 : bool)
    (hidden_add_noise_sigma input_salt_and_pepper : level)
    (input_sampling : bool)
    (visible_activation hidden_activation : tensor → tensor)
  : M (list tensor * option (list tensor)) :=
  for_each (range 0 (length hiddens) 2)
    (λ i st,
       simple_update_layer (fst st) weights_list bias_list (snd st) i
         add_noise noiseless_h1 hidden_add_noise_sigma
         input_salt_and_pepper input_sampling
         visible_activation hidden_activation)
    (hiddens, p_X_chain).

(** One update over the odd layers + one update over the even layers. *)
Definition update_layers
    (hiddens weights_list : list tensor) (bias_list : list (vector R))
    (p_X_chain : option (list tensor))
    (add_noise noiseless_h1 : bool)
    (hidden_add_noise_sigma input_salt_and_pepper : level)
    (input_sampling : bool)
    (visible_activation hidden_activation : tensor → tensor)
  : M (list tensor * option (list tensor)) :=
  let* hiddens := update_odd_layers hiddens weights_list bias_list
                    add_noise noiseless_h1 hidden_add_noise_sigma
                    input_salt_and_pepper input_sampling
                    visible_activation hidden_activation in
  update_even_layers hiddens weights_list bias_list p_X_chain
    add_noise noiseless_h1 hidden_add_noise_sigma
    input_salt_and_pepper input_sampling
    visible_activation hidden_activation.

(** One update over the even layers + one update over the odd layers. *)
Definition update_layers_reverse
    (hiddens weights_list : list tensor) (bias_list : list (vector R))
    (p_X_chain : option (list tensor))
    (add_noise noiseless_h1 : bool)
    (hidden_add_noise_sigma input_salt_and_pepper : level)
    (input_sampling : bool)
    (visible_activation hidden_activation : tensor → tensor)
  : M (list tensor * option (list tensor)) :=
  let* st := update_even_layers hiddens weights_list bias_list p_X_chain
               add_noise noiseless_h1 hidden_add_noise_sigma
               input_salt_and_pepper input_sampling
               visible_activation hidden_activation in
  let* hiddens := update_odd_layers (fst st) weights_list bias_list
                    add_noise noiseless_h1 hidden_add_noise_sigma
                    input_salt_and_pepper input_sampling
                    visible_activation hidden_activation in
  ret (hiddens, snd st).

(** [hiddens = [X_init]; for w in weights_list:
     hiddens.append(T.zeros_like(T.dot(hiddens[-1], w)))] *)
Definition init_hiddens (X_init : tensor) (weights_list : list tensor)
  : result (list tensor) :=
  rfor_each weights_list
    (λ w hiddens, h ← getlast hiddens; d ← dot h w; Ok (hiddens ++ [zeros_like d]))
    [X_init].

Definition build_gsn
    (X : tensor) (weights_list : list tensor) (bias_list : list (vector R))
    (add_noise noiseless_h1 : bool)
    (hidden_add_noise_sigma input_salt_and_pepper : level)
    (input_sampling : bool)
    (visible_activation hidden_activation : tensor → tensor)
    (walkbacks : nat)
  : M (option (list tensor) * list tensor) :=
  let p_X_chain := Some [] in
  (* Whether or not to corrupt the visible input X *)
  let* X_init :=
    if add_noise then draw (salt_and_pepper X input_salt_and_pepper)
    else ret X in
  (* init hiddens with zeros *)
  let* hiddens := lift (init_hiddens X_init weights_list) in
  (* The layer update scheme *)
  let* st :=
    for_each (seq 0 walkbacks)
      (λ _ st,
         update_layers (fst st) weights_list bias_list (snd st)
           add_noise noiseless_h1 hidden_add_noise_sigma
           input_salt_and_pepper input_sampling
           visible_activation hidden_activation)
      (hiddens, p_X_chain) in
  ret (snd st, fst st).

(** [numpy.sum(costs)] *)
Definition numpy_sum (costs : list R) : R :=
  match costs with
  | [] => zero
  | c :: cs => foldl add c cs
  end.

(** Iterating over the chain: [None] is not iterable. *)
Definition iter (p_X_chain : option (list tensor)) : result (list tensor) :=
  match p_X_chain with
  | Some chain => Ok chain
  | None => Raise TypeError
  end.

Definition build_gsn_given_hiddens
    (X : tensor) (hiddens weights_list : list tensor) (bias_list : list (vector R))
    (add_noise noiseless_h1 : bool)
    (hidden_add_noise_sigma input_salt_and_pepper : level)
    (input_sampling : bool)
    (visible_activation hidden_activation : tensor → tensor)
    (walkbacks : nat)
    (cost_function : tensor → tensor → R)
  : M (option (list tensor) * list tensor * R * R) :=
  let p_X_chain := Some [] in
  let* st :=
    for_each (seq 0 walkbacks)
      (λ _ st,
         update_layers_reverse (fst st) weights_list bias_list (snd st)
           add_noise noiseless_h1 hidden_add_noise_sigma
           input_salt_and_pepper input_sampling
           visible_activation hidden_activation)
      (hiddens, p_X_chain) in
  let* chain := lift (iter (snd st)) in
  let costs := (λ rX, cost_function rX X) <$> chain in
  let* show_cost := lift (getlast costs) in
  let cost := numpy_sum costs in
  ret (snd st, fst st, cost, show_cost).

End GSN.

(** ** Variants of the graph builder (static methods) *)

Section Variants.
Context {R level MRG : Type} `{Scalar R} `{Noise R level MRG}.

(** One full update as a scan step: a fresh chain, one update over the odd
    layers, one over the even layers; returns [p_X_chain[0]] and the hidden
    state.  ([iter] is also what subscripting the chain needs: [None] can be
    neither iterated nor subscripted.) *)
Definition update_layers_scan_step
    (hiddens_t weights_list : list (tensor R)) (bias_list : list (vector R))
    (add_noise noiseless_h1 : bool)
    (hidden_add_noise_sigma input_salt_and_pepper : level)
    (input_sampling : bool)
    (visible_activation hidden_activation : tensor R → tensor R)
  : M MRG (tensor R * list (tensor R)) :=
  let p_X_chain := Some [] in
  (* update the odd layers *)
  let* hiddens_t := update_odd_layers hiddens_t weights_list bias_list
                      add_noise noiseless_h1 hidden_add_noise_sigma
                      input_salt_and_pepper input_sampling
                      visible_activation hidden_activation in
  (* update the even layers *)
  let* st := update_even_layers hiddens_t weights_list bias_list p_X_chain
               add_noise noiseless_h1 hidden_add_noise_sigma
               input_salt_and_pepper input_sampling
               visible_activation hidden_activation in
  (* return the generated sample and hiddens *)
  let* chain := lift (iter (snd st)) in
  let* x := lift (getitem chain 0) in
  ret (x, fst st).

Definition build_gsn_scan
    (X : tensor R) (weights_list : list (tensor R)) (bias_list : list (vector R))
    (add_noise noiseless_h1 : bool)
    (hidden_add_noise_sigma input_salt_and_pepper : level)
    (input_sampling : bool)
    (visible_activation hidden_activation : tensor R → tensor R)
    (walkbacks : nat)
    (cost_function : tensor R → tensor R → R)
  : M MRG (tensor R * R * R) :=
  (* Whether or not to corrupt the visible input X *)
  let* X_init :=
    if add_noise then draw (salt_and_pepper X input_salt_and_pepper)
    else ret X in
  (* init hiddens with zeros *)
  let* hiddens_0 := lift (init_hiddens X_init weights_list) in
  let p_X_chain := Some [] in
  let* st :=
    for_each (seq 0 walkbacks)
      (λ _ st,
         update_layers (fst st) weights_list bias_list (snd st)
           add_noise noiseless_h1 hidden_add_noise_sigma
           input_salt_and_pepper input_sampling
           visible_activation hidden_activation)
      (hiddens_0, p_X_chain) in
  let* chain := lift (iter (snd st)) in
  let* x_sample := lift (getlast chain) in
  let costs := (λ rX, cost_function rX X) <$> chain in
  let* show_cost := lift (getlast costs) in
  let cost := numpy_sum costs in
  ret (x_sample, cost, show_cost).

Definition build_gsn_pxh
    (hiddens weights_list : list (tensor R)) (bias_list : list (vector R))
    (add_noise noiseless_h1 : bool)
    (hidden_add_noise_sigma input_salt_and_pepper : level)
    (input_sampling : bool)
    (visible_activation hidden_activation : tensor R → tensor R)
    (walkbacks : nat)
  : M MRG (tensor R) :=
  let p_X_chain := Some [] in
  let* st :=
    for_each (seq 0 walkbacks)
      (λ _ st,
         update_layers (fst st) weights_list bias_list (snd st)
           add_noise noiseless_h1 hidden_add_noise_sigma
           input_salt_and_pepper input_sampling
           visible_activation hidden_activation)
      (hiddens, p_X_chain) in
  let* chain := lift (iter (snd st)) in
  lift (getlast chain).

End Variants.

(** ** The model object

    Helpers of [opendeep.utils] that the constructor calls and that are not
    part of this file: the name registries and the parameter initialisers. *)

Class Utils (R : Type) : Type := {
  get_activation_function : string → result (tensor R → tensor R);
  get_cost_function : string → result (tensor R → tensor R → R);
  get_weights_uniform : nat * nat → nat → tensor R;
  get_bias : nat → vector R
}.

(** An activation or cost argument is a callable, a name, or anything else
    ([None] included). *)
Inductive callable_or_name (F : Type) : Type :=
| Callable (f : F)
| Name (s : string)
| Neither.
Arguments Callable {F} f.
Arguments Name {F} s.
Arguments Neither {F}.

Record Dataset : Type := { get_example_shape : nat }.

(** [self.args]: the configuration merged with [_defaults]. *)
Module Args.
Record t (R level : Type) : Type := mk {
  layers : nat;
  walkbacks : nat;
  input_size : option nat;
  hidden_size : nat;
  visible_activation : callable_or_name (tensor R → tensor R);
  hidden_activation : callable_or_name (tensor R → tensor R);
  input_sampling : bool;
  cost_function : callable_or_name (tensor R → tensor R → R);
  noise_annealing : level;
  add_noise : bool;
  noiseless_h1 : bool;
  hidden_add_noise_sigma : level;
  input_salt_and_pepper : level;
  output_path : string;
  vis_init : bool
}.
Arguments mk {R level}.
Arguments layers {R level}.
Arguments walkbacks {R level}.
Arguments input_size {R level}.
Arguments hidden_size {R level}.
Arguments visible_activation {R level}.
Arguments hidden_activation {R level}.
Arguments input_sampling {R level}.
Arguments cost_function {R level}.
Arguments noise_annealing {R level}.
Arguments add_noise {R level}.
Arguments noiseless_h1 {R level}.
Arguments hidden_add_noise_sigma {R level}.
Arguments input_salt_and_pepper {R level}.
Arguments output_path {R level}.
Arguments vis_init {R level}.
End Args.

(** The attributes of a [GSN] instance.  Those that only
    [build_computation_graph] sets are optional: [None] is "no such attribute". *)
Module Self.
Record t (R level G : Type) : Type := mk {
  outdir : string;
  N_input : nat;
  layers : nat;
  walkbacks : nat;
  noise_annealing : level;
  noiseless_h1 : bool;
  hidden_add_noise_sigma : level;
  input_salt_and_pepper : level;
  input_sampling : bool;
  vis_init : bool;
  hidden_size : nat;
  layer_sizes : list nat;
  hidden_activation : tensor R → tensor R;
  visible_activation : tensor R → tensor R;
  cost_function : tensor R → tensor R → R;
  X : tensor R;
  MRG : G;
  weights_list : list (tensor R);
  bias_list : list (vector R);
  show_cost : option R;
  cost : option R;
  monitor : option R;
  output : option (tensor R);
  hiddens : option (list (tensor R));
  f_predict : option (tensor R → M G (tensor R))
}.
Arguments mk {R level G}.
Arguments outdir {R level G}.
Arguments N_input {R level G}.
Arguments layers {R level G}.
Arguments walkbacks {R level G}.
Arguments noise_annealing {R level G}.
Arguments noiseless_h1 {R level G}.
Arguments hidden_add_noise_sigma {R level G}.
Arguments input_salt_and_pepper {R level G}.
Arguments input_sampling {R level G}.
Arguments vis_init {R level G}.
Arguments hidden_size {R level G}.
Arguments layer_sizes {R level G}.
Arguments hidden_activation {R level G}.
Arguments visible_activation {R level G}.
Arguments cost_function {R level G}.
Arguments X {R level G}.
Arguments MRG {R level G}.
Arguments weights_list {R level G}.
Arguments bias_list {R level G}.
Arguments show_cost {R level G}.
Arguments cost {R level G}.
Arguments monitor {R level G}.
Arguments output {R level G}.
Arguments hiddens {R level G}.
Arguments f_predict {R level G}.
End Self.

(** Log records of level WARNING and above ([debug] and [info] messages are
    left out); [msg] is the format string and [args] its arguments. *)
Inductive levelname : Type := WARNING | ERROR | CRITICAL.

Record LogRecord : Type := { level_of : levelname; msg : string; args : list nat }.

(** A method that logs: its outcome and the records it emitted. *)
Definition L (A : Type) : Type := (result A * list LogRecord)%type.

Definition lret {A} (a : A) : L A := (Ok a, []).

Definition lraise {A} (e : exn) : L A := (Raise e, []).

Definition llift {A} (r : result A) : L A := (r, []).

Definition log (lv : levelname) (m : string) (a : list nat) : L unit :=
  (Ok tt, [{| level_of := lv; msg := m; args := a |}]).

Definition lbind {A B} (m : L A) (k : A → L B) : L B :=
  match m with
  | (Ok a, l) => let (r, l') := k a in (r, l ++ l')
  | (Raise e, l) => (Raise e, l)
  end.

Notation "'do' x ':=' c 'in' k" := (lbind c (λ x, k))
  (at level 10, x pattern, c at level 100, k at level 200).

(** [s[-1]] on a string *)
Definition last_char (s : string) : result Ascii.ascii :=
  match String.get (String.length s - 1) s with
  | Some c => Ok c
  | None => Raise IndexError
  end.

(** A list comprehension whose element expression may raise. *)
Fixpoint comprehension {A B} (f : A → result B) (l : list A) : result (list B) :=
  match l with
  | [] => Ok []
  | x :: l' => y ← f x; ys ← comprehension f l'; Ok (y :: ys)
  end.

Definition not_enough_walkbacks : string :=
  "Not enough walkbacks for the layers! Layers is %s and walkbacks is %s. Generaly want 2X walkbacks to layers"%string.

Definition missing_input_size : string :=
  "Please either specify input_size in the arguments or provide an example dataset object for input dimensionality."%string.

Definition missing_attribute (a : string) : string :=
  String.append "Missing self."%string
    (String.append a " - make sure you ran self.build_computation_graph()! This should have run during initialization...."%string).

Section Model.
Context {R level MRG : Type} `{Scalar R} `{Noise R level MRG} `{Utils R}.

Abbreviation tensor := (tensor R).
Abbreviation GSN := (Self.t R level MRG).

(** Concatenates all the odd layers into a single tensor. *)
Definition pack_hiddens (self : GSN) (hiddens_list : list tensor) : result tensor :=
  let output_list :=
    foldl (λ output_list il,
             (* we care about the odd hidden layers (the visible layer is h0) *)
             if negb (fst il mod 2 =? 0) then output_list ++ [snd il] else output_list)
      [] (enumerate hiddens_list) in
  concatenate output_list.

(** Makes a tensor of the hidden layers into a list. *)
Definition unpack_hiddens (self : GSN) (hiddens_tensor : tensor) : result (list tensor) :=
  rfor_each (enumerate (Self.weights_list self))
    (λ iw h_list,
       let idx := fst iw in
       let w := snd iw in
       if negb (idx mod 2 =? 0) then
         h ← getlast h_list; d ← dot h w; Ok (h_list ++ [zeros_like d])
       else
         a ← getitem (Self.layer_sizes self) idx;
         b ← getitem (Self.layer_sizes self) (idx + 1);
         Ok (h_list ++ [transpose (getslice (transpose hiddens_tensor)
                                     ((idx / 2) * a) ((idx / 2 + 1) * b))]))
    [zeros_like (Self.X self)].

(** The attributes [build_computation_graph] assigns. *)
Definition set_graph (self : GSN) (g : MRG)
    (show_cost cost monitor : R) (output : tensor) (hiddens : list tensor)
    (f_predict : option (tensor → M MRG tensor)) : GSN :=
  Self.mk (Self.outdir self) (Self.N_input self)
    (Self.layers self) (Self.walkbacks self) (Self.noise_annealing self)
    (Self.noiseless_h1 self) (Self.hidden_add_noise_sigma self)
    (Self.input_salt_and_pepper self) (Self.input_sampling self)
    (Self.vis_init self) (Self.hidden_size self) (Self.layer_sizes self)
    (Self.hidden_activation self) (Self.visible_activation self)
    (Self.cost_function self) (Self.X self) g
    (Self.weights_list self) (Self.bias_list self)
    (Some show_cost) (Some cost) (Some monitor) (Some output) (Some hiddens)
    f_predict.

(** The graphs are read at the input batch [Self.X self].  The one-step
    sampling graph, the compiled helpers [f_noise], [f_sample] and
    [f_monitors], and the image geometry used for display are left out. *)
Definition build_computation_graph (self : GSN) (hiddens_hook : option (nat * tensor))
  : result GSN :=
  let graphs :=
    (* GSN for training - with noise *)
    let add_noise := true in
    let* p_X_chain :=
      match hiddens_hook with
      | None =>
          let* r := build_gsn (Self.X self) (Self.weights_list self) (Self.bias_list self)
                      add_noise (Self.noiseless_h1 self)
                      (Self.hidden_add_noise_sigma self) (Self.input_salt_and_pepper self)
                      (Self.input_sampling self)
                      (Self.visible_activation self) (Self.hidden_activation self)
                      (Self.walkbacks self) in
          ret (fst r)
      | Some hook =>
          let* hiddens := lift (unpack_hiddens self (snd hook)) in
          let* r := build_gsn_given_hiddens (Self.X self) hiddens
                      (Self.weights_list self) (Self.bias_list self)
                      add_noise (Self.noiseless_h1 self)
                      (Self.hidden_add_noise_sigma self) (Self.input_salt_and_pepper self)
                      (Self.input_sampling self)
                      (Self.visible_activation self) (Self.hidden_activation self)
                      (Self.walkbacks self) (Self.cost_function self) in
          ret (fst (fst (fst r)))
      end in
    (* GSN for prediction - no noise *)
    let add_noise := false in
    let* recon :=
      match hiddens_hook with
      | None =>
          build_gsn (Self.X self) (Self.weights_list self) (Self.bias_list self)
            add_noise (Self.noiseless_h1 self)
            (Self.hidden_add_noise_sigma self) (Self.input_salt_and_pepper self)
            (Self.input_sampling self)
            (Self.visible_activation self) (Self.hidden_activation self)
            (Self.walkbacks self)
      | Some hook =>
          let* hiddens := lift (unpack_hiddens self (snd hook)) in
          let* r := build_gsn_given_hiddens (Self.X self) hiddens
                      (Self.weights_list self) (Self.bias_list self)
                      add_noise (Self.noiseless_h1 self)
                      (Self.hidden_add_noise_sigma self) (Self.input_salt_and_pepper self)
                      (Self.input_sampling self)
                      (Self.visible_activation self) (Self.hidden_activation self)
                      (Self.walkbacks self) (Self.cost_function self) in
          ret (fst (fst r))
      end in
    let p_X_chain_recon := fst recon in
    let recon_hiddens := snd recon in
    (* use the noisy ones for training cost *)
    let* chain := lift (iter p_X_chain) in
    let costs := (λ rX, Self.cost_function self rX (Self.X self)) <$> chain in
    let* show_cost := lift (getlast costs) in
    let cost := numpy_sum costs in
    (* use the non-noisy graph for prediction *)
    let* chain_recon := lift (iter p_X_chain_recon) in
    let gsn_costs_recon := (λ rX, Self.cost_function self rX (Self.X self)) <$> chain_recon in
    let* monitor := lift (getlast gsn_costs_recon) in
    let* output := lift (getlast chain_recon) in
    let hiddens := recon_hiddens in
    (* the main predict function: doesn't make sense if there is a hiddens_hook *)
    let f_predict :=
      match hiddens_hook with
      | None =>
          Some (λ input,
                  let* r := build_gsn input (Self.weights_list self) (Self.bias_list self)
                              false (Self.noiseless_h1 self)
                              (Self.hidden_add_noise_sigma self)
                              (Self.input_salt_and_pepper self)
                              (Self.input_sampling self)
                              (Self.visible_activation self) (Self.hidden_activation self)
                              (Self.walkbacks self) in
                  let* chain := lift (iter (fst r)) in
                  lift (getlast chain))
      | Some _ => None
      end in
    ret (show_cost, cost, monitor, output, hiddens, f_predict) in
  match graphs (Self.MRG self) with
  | Ok (show_cost, cost, monitor, output, hiddens, f_predict, g) =>
      Ok (set_graph self g show_cost cost monitor output hiddens f_predict)
  | Raise e => Raise e
  end.

Definition __init__ (args : Args.t R level)
    (inputs_hook hiddens_hook : option (nat * tensor)) (dataset : option Dataset)
    (X_value : tensor) : L GSN :=
  (* set up base path for the outputs of the model *)
  do outdir :=
    llift (c ← last_char (Args.output_path args);
           Ok (if Ascii.eqb c "/"%char then Args.output_path args
               else String.append (Args.output_path args) "/"%string)) in
  (* the dimensionality of the input *)
  do N_input :=
    match inputs_hook with
    | None =>
        match dataset with
        | None =>
            match Args.input_size args with
            | None =>
                do _ := log CRITICAL missing_input_size [] in
                lraise AssertionError
            | Some n => lret n
            end
        | Some d => lret (get_example_shape d)
        end
    | Some hook => lret (fst hook)
    end in
  (* Network specifications *)
  let layers := Args.layers args in
  let walkbacks := Args.walkbacks args in
  (* generally, walkbacks should be 2*layers *)
  do _ :=
    if layers mod 2 =? 0 then
      if walkbacks <? 2 * layers
      then log WARNING not_enough_walkbacks [layers; walkbacks]
      else lret tt
    else
      if walkbacks <? 2 * layers - 1
      then log WARNING not_enough_walkbacks [layers; walkbacks]
      else lret tt in
  let noise_annealing := Args.noise_annealing args in
  let noiseless_h1 := Args.noiseless_h1 args in
  let hidden_add_noise_sigma := Args.hidden_add_noise_sigma args in
  let input_salt_and_pepper := Args.input_salt_and_pepper args in
  let input_sampling := Args.input_sampling args in
  let vis_init := Args.vis_init args in
  let hidden_size := Args.hidden_size args in
  (* layer sizes, from h0 to hK (h0 is the visible layer) *)
  let layer_sizes := [N_input] ++ replicate layers hidden_size in
  (* hidden unit activation *)
  do hidden_activation :=
    match Args.hidden_activation args with
    | Callable f => lret f
    | Name s => llift (get_activation_function s)
    | Neither =>
        do _ := log CRITICAL "Missing a hidden activation function!"%string [] in
        lraise NotImplementedError
    end in
  (* Visible layer activation *)
  do visible_activation :=
    match Args.visible_activation args with
    | Callable f => lret f
    | Name s => llift (get_activation_function s)
    | Neither =>
        do _ := log CRITICAL "Missing a visible activation function!"%string [] in
        lraise NotImplementedError
    end in
  (* Cost function *)
  do cost_function :=
    match Args.cost_function args with
    | Callable f => lret f
    | Name s => llift (get_cost_function s)
    | Neither =>
        do _ := log CRITICAL "Missing a cost function!"%string [] in
        lraise NotImplementedError
    end in
  (* Theano variables and RNG *)
  let X :=
    match inputs_hook with
    | None => X_value
    | Some hook => snd hook
    end in
  let MRG := MRG_RandomStreams 1 in
  (* Parameters! *)
  do weights_list :=
    llift (comprehension
             (λ i, a ← getitem layer_sizes i; b ← getitem layer_sizes (i + 1);
                   Ok (get_weights_uniform (a, b) i))
             (seq 0 layers)) in
  do bias_list :=
    llift (comprehension
             (λ i, a ← getitem layer_sizes i; Ok (get_bias a))
             (seq 0 (layers + 1))) in
  (* using the properties, build the computational graph *)
  llift (build_computation_graph
           (Self.mk outdir N_input
              layers walkbacks noise_annealing noiseless_h1
              hidden_add_noise_sigma input_salt_and_pepper input_sampling
              vis_init hidden_size layer_sizes
              hidden_activation visible_activation cost_function
              X MRG weights_list bias_list
              None None None None None None)
           hiddens_hook).

Definition get_hiddens (self : GSN) : L tensor :=
  match Self.hiddens self with
  | None =>
      do _ := log ERROR (missing_attribute "hiddens"%string) [] in
      lraise NotImplementedError
  | Some hiddens => llift (pack_hiddens self hiddens)
  end.

Definition get_outputs (self : GSN) : L tensor :=
  match Self.output self with
  | None =>
      do _ := log ERROR (missing_attribute "output"%string) [] in
      lraise NotImplementedError
  | Some output => lret output
  end.

(** [g] is the state of the generator inside the compiled function. *)
Definition predict (self : GSN) (input : tensor) (g : MRG) : L (tensor * MRG) :=
  match Self.f_predict self with
  | None =>
      do _ := log ERROR (missing_attribute "f_predict"%string) [] in
      lraise NotImplementedError
  | Some f_predict => llift (f_predict input g)
  end.

(** [return [self.X]] *)
Definition get_inputs (self : GSN) : list tensor := [Self.X self].

(** [return self.cost]: a missing attribute is an AttributeError. *)
Definition get_train_cost (self : GSN) : result R :=
  match Self.cost self with
  | Some cost => Ok cost
  | None => Raise AttributeError
  end.

End Model.

(** ** A concrete instance: rational tensors and a tape of draws

    Used to run the model on explicit inputs.  Scalars are rationals kept in
    lowest terms; the generator is the list of the draws still to come. *)

Module Rational.

#[global] Instance Q_scalar : Scalar Q := {|
  zero := 0%Q;
  add := λ x y, Qred (x + y);
  mul := λ x y, Qred (x * y)
|}.

(** The generator state: the draws still to come; an exhausted tape reads 0. *)
Definition tape : Type := list Q.

Definition next (g : tape) : Q * tape :=
  match g with
  | [] => (0%Q, [])
  | u :: g' => (u, g')
  end.

Fixpoint next_row (f : Q → Q → Q) (row : list Q) (g : tape) : list Q * tape :=
  match row with
  | [] => ([], g)
  | x :: row' =>
      let (u, g1) := next g in
      let (ys, g2) := next_row f row' g1 in
      (f x u :: ys, g2)
  end.

Fixpoint next_rows (f : Q → Q → Q) (rs : list (list Q)) (g : tape)
  : list (list Q) * tape :=
  match rs with
  | [] => ([], g)
  | r :: rs' =>
      let (r1, g1) := next_row f r g in
      let (rs1, g2) := next_rows f rs' g1 in
      (r1 :: rs1, g2)
  end.

(** One draw per entry of [t], combined with the entry by [f]. *)
Definition entrywise (f : Q → Q → Q) (t : tensor Q) (g : tape) : tensor Q * tape :=
  let (rs, g') := next_rows f (rows t) g in (mkT (ncols t) rs, g').

(** A Bernoulli draw with success probability [p], from a uniform draw [u]. *)
Definition bernoulli (p u : Q) : Q := if Qlt_le_dec u p then 1%Q else 0%Q.

(** Modelled from the spec: [MRG.binomial(p=t)], the "Bernoulli draw using
    h_0 as probability"; the tape holds uniform draws from [0, 1). *)
Definition binomial (t : tensor Q) (g : tape) : tensor Q * tape :=
  entrywise bernoulli t g.

(** Modelled from the spec: [salt_and_pepper] of [opendeep.utils.noise],
    "masking corruption that independently zeroes or maximizes a random
    subset of input features" with corruption probability [p]: an entry is
    kept with probability [1 - p]; a corrupted entry becomes 1 or 0 on a fair
    draw. *)
Definition salt_and_pepper_Q (t : tensor Q) (p : Q) (g : tape) : tensor Q * tape :=
  let (a, g1) := entrywise (λ _ u, bernoulli (1 - p) u) t g in
  let (b, g2) := entrywise (λ _ u, bernoulli (1 # 2) u) t g1 in
  (mkT (ncols t)
     (zip_with (zip_with (λ x ab, if Qeq_bool (fst ab) 0 then snd ab else x))
        (rows t) (zip_with zip (rows a) (rows b))),
   g2).

(** Modelled from the spec: [add_gaussian] of [opendeep.utils.noise],
    "isotropic Gaussian noise (sigma configurable)": here each draw stands
    for a standard normal sample and is scaled by [std]. *)
Definition add_gaussian_Q (t : tensor Q) (std : Q) (g : tape) : tensor Q * tape :=
  entrywise (λ x u, Qred (x + std * u)) t g.

(** Modelled from the spec: "noise draws use a seeded pseudo-random stream";
    here a short linear congruential sequence scaled into [0, 1). *)
Fixpoint lcg (n : nat) (x : Z) : tape :=
  match n with
  | O => []
  | S n' => let x' := ((x * 37 + 11) mod 101)%Z in (Qred (x' # 101)) :: lcg n' x'
  end.

#[global] Instance tape_noise : Noise Q Q tape := {|
  MRG_RandomStreams := λ seed, lcg 512 (Z.of_nat seed);
  salt_and_pepper := salt_and_pepper_Q;
  add_gaussian := add_gaussian_Q;
  MRG_binomial := binomial
|}.

(** Modelled from the spec: the parameter initialisers "produce randomly
    initialized tensors with a given shape"; here one fixed outcome, every
    weight 1/2.  The source initialises "each layer bias to 0's".  The name
    registries are empty in this instance (activations and costs are given
    as callables); the exception an unknown name raises is not fixed by this
    file, and nothing below depends on it. *)
#[global] Instance Q_utils : Utils Q := {|
  get_activation_function := λ _, Raise NotImplementedError;
  get_cost_function := λ _, Raise NotImplementedError;
  get_weights_uniform := λ shape _, mkT (snd shape) (replicate (fst shape) (replicate (snd shape) (1 # 2)));
  get_bias := λ n, replicate n 0%Q
|}.

(** A callable activation: the identity ([lambda x: x]). *)
Definition linear (t : tensor Q) : tensor Q := t.

(** A callable cost: the sum of squared errors. *)
Definition square_error (rX X : tensor Q) : Q :=
  foldr (λ x s, Qred (x + s)) 0%Q
    (concat (zip_with (zip_with (λ a b, Qred ((a - b) * (a - b)))) (rows rX) (rows X))).

End Rational.

(** ** Auxiliary notions for packing

    [slice_cols t lo hi] is the block of columns [lo, hi) of [t], what
    [t.T[lo:hi].T] denotes; [every_other false l] is the list of the
    odd-indexed entries of [l] and [every_other true l] that of the
    even-indexed ones. *)

Definition slice_cols {R} (t : tensor R) (lo hi : nat) : tensor R :=
  mkT ((hi - lo) `min` (ncols t - lo)) ((λ r, take (hi - lo) (drop lo r)) <$> rows t).

Fixpoint every_other {A} (keep : bool) (l : list A) : list A :=
  match l with
  | [] => []
  | x :: l' => if keep then x :: every_other (negb keep) l' else every_other (negb keep) l'
  end.

(** Two lists of length [n] agree on the indices of parity [par] and on
    those listed in [pre]. *)
Definition agree {A} (par : nat) (n : nat) (pre : list nat) (s s' : list A) : Prop :=
  length s = n ∧ length s' = n ∧ ∀ j, j mod 2 = par ∨ j ∈ pre → s !! j = s' !! j.

(** The total width of the odd-indexed layers. *)
Definition odd_width (layer_sizes : list nat) : nat :=
  sum_list (every_other false layer_sizes).

(** ** Well-shaped states and parameters *)

Section Shapes.
Context {R level MRG : Type} `{Scalar R} `{Noise R level MRG}.

(** Every [h_i] is a batch of [B] rows with [layer_sizes[i]] features. *)
Definition shaped (B : nat) (layer_sizes : list nat) (hiddens : list (tensor R)) : Prop :=
  Forall2 (λ h n, has_shape B n h) hiddens layer_sizes.

(** [W_i] has shape [(layer_sizes[i], layer_sizes[i+1])]. *)
Definition weights_ok (layer_sizes : list nat) (weights_list : list (tensor R)) : Prop :=
  length weights_list + 1 = length layer_sizes ∧
  ∀ i w a b, weights_list !! i = Some w → layer_sizes !! i = Some a →
             layer_sizes !! (i + 1) = Some b → has_shape a b w.

(** [b_i] has shape [(layer_sizes[i],)]. *)
Definition biases_ok (layer_sizes : list nat) (bias_list : list (vector R)) : Prop :=
  Forall2 (λ (b : vector R) n, length b = n) bias_list layer_sizes.

(** An activation returns a tensor of the shape of its argument. *)
Definition keeps_shape (f : tensor R → tensor R) : Prop :=
  ∀ r c t, has_shape r c t → has_shape r c (f t).

(** So do the noise functions, whatever they draw. *)
Definition noise_keeps_shape : Prop :=
  (∀ p g, keeps_shape (λ t, fst (salt_and_pepper t p g))) ∧
  (∀ s g, keeps_shape (λ t, fst (add_gaussian t s g))) ∧
  (∀ g, keeps_shape (λ t, fst (MRG_binomial t g))).

End Shapes.

(** What the constructor establishes about a model: at least one hidden
    layer, the layer-size schedule, and parameters shaped after it. *)
Definition well_formed {R level MRG} (self : Self.t R level MRG) : Prop :=
  1 ≤ Self.layers self
  ∧ Self.layer_sizes self
    = [Self.N_input self] ++ replicate (Self.layers self) (Self.hidden_size self)
  ∧ weights_ok (Self.layer_sizes self) (Self.weights_list self)
  ∧ biases_ok (Self.layer_sizes self) (Self.bias_list self).

(** ** Notions used to state what the constructor does *)

(** The walkback count below which the constructor warns. *)
Definition recommended_walkbacks (layers : nat) : nat :=
  if layers mod 2 =? 0 then 2 * layers else 2 * layers - 1.

(** The exception a logging method raised, if any. *)
Definition error_of {A} (r : L A) : option exn :=
  match r.1 with
  | Ok _ => None
  | Raise e => Some e
  end.

(** An activation or cost argument stands for the function [f]: it is [f]
    itself, or a name the registry maps to [f]. *)
Definition resolved {F} (registry : string → result F) (a : callable_or_name F) (f : F)
  : Prop :=
  match a with
  | Callable f' => f' = f
  | Name s => registry s = Ok f
  | Neither => False
  end.

(** The input dimensionality the constructor finds: from the inputs hook,
    else from the dataset, else from [input_size]. *)
Definition input_dimension {R level} (args : Args.t R level)
    (inputs_hook : option (nat * tensor R)) (dataset : option Dataset) : option nat :=
  match inputs_hook with
  | Some hook => Some hook.1
  | None =>
      match dataset with
      | Some d => Some (get_example_shape d)
      | None => Args.input_size args
      end
  end.

(** The input the graphs are read at: the inputs hook, else the given batch. *)
Definition model_input {R} (inputs_hook : option (nat * tensor R)) (X_value : tensor R)
  : tensor R :=
  match inputs_hook with
  | Some hook => hook.2
  | None => X_value
  end.

(** The parameter initialisers return what they are asked for. *)
Definition initialisers_ok {R} `{Utils R} : Prop :=
  (∀ a b i, has_shape a b (get_weights_uniform (a, b) i))
  ∧ (∀ n, length (get_bias n) = n).

(** The attributes the constructor has assigned when it calls
    [build_computation_graph], for input dimension [N], resolved functions
    [ha], [va], [cf] and input [X]. *)
Definition initial_model {R level MRG} `{Noise R level MRG} `{Utils R}
    (args : Args.t R level) (outdir : string) (N : nat)
    (ha va : tensor R → tensor R) (cf : tensor R → tensor R → R) (X : tensor R)
  : Self.t R level MRG :=
  let layer_sizes := [N] ++ replicate (Args.layers args) (Args.hidden_size args) in
  Self.mk outdir N (Args.layers args) (Args.walkbacks args)
    (Args.noise_annealing args) (Args.noiseless_h1 args)
    (Args.hidden_add_noise_sigma args) (Args.input_salt_and_pepper args)
    (Args.input_sampling args) (Args.vis_init args) (Args.hidden_size args)
    layer_sizes ha va cf X (MRG_RandomStreams 1)
    ((λ i, get_weights_uniform (nth i layer_sizes 0, nth (i + 1) layer_sizes 0) i)
       <$> seq 0 (Args.layers args))
    ((λ i, get_bias (nth i layer_sizes 0)) <$> seq 0 (Args.layers args + 1))
    None None None None None None.

(** An activation or the cost function is missing: the first of the three
    that is neither a callable nor a name, those before it being usable. *)
Definition missing_function {R level} `{Utils R} (args : Args.t R level) : Prop :=
  Args.hidden_activation args = Neither
  ∨ (∃ ha, resolved get_activation_function (Args.hidden_activation args) ha)
    ∧ (Args.visible_activation args = Neither
       ∨ (∃ va, resolved get_activation_function (Args.visible_activation args) va)
         ∧ Args.cost_function args = Neither).


(** ** Explicit inputs for the rational instance *)

Module Examples.
Import Rational.

(** One example with one feature, one hidden layer of one unit. *)
Definition X1 : tensor Q := mkT 1 [[1%Q]].
Definition W1 : list (tensor Q) := [mkT 1 [[1%Q]]].
Definition b1 : list (vector Q) := [[0%Q]; [0%Q]].

(** Two examples with three features, two hidden layers of two units. *)
Definition X2 : tensor Q := mkT 3 [[1; 0; 1]; [0; 1; 1]]%Q.
Definition W2 : list (tensor Q) :=
  [mkT 2 [[1 # 2; 0]; [0; 1 # 2]; [1 # 2; 1 # 2]]; mkT 2 [[1; 0]; [0; 1]]]%Q.
Definition b2 : list (vector Q) := [[0; 0; 0]; [0; 0]; [0; 0]]%Q.
Definition h2 : list (tensor Q) :=
  [X2; mkT 2 [[1; 2]; [3; 4]]; mkT 2 [[5; 6]; [7; 8]]]%Q.

(** A configuration: 2 layers, 3 walkbacks, 3 inputs, 2 hidden units. *)
Definition args2 : Args.t Q Q :=
  Args.mk 2 3 (Some 3) 2 (Callable linear) (Callable linear) false
    (Callable square_error) 1%Q true true 2%Q (2 # 5)%Q "outputs/gsn/"%string false.

(** The same without a hidden activation. *)
Definition args_no_activation : Args.t Q Q :=
  Args.mk 2 3 (Some 3) 2 (Callable linear) Neither false
    (Callable square_error) 1%Q true true 2%Q (2 # 5)%Q "outputs/gsn/"%string false.

(** The same without an input size. *)
Definition args_no_input_size : Args.t Q Q :=
  Args.mk 2 3 None 2 (Callable linear) (Callable linear) false
    (Callable square_error) 1%Q true true 2%Q (2 # 5)%Q "outputs/gsn/"%string false.

(** A model whose graphs have not been built. *)
Definition unbuilt : Self.t Q Q tape :=
  initial_model args2 "outputs/gsn/"%string 3 linear linear square_error X2.

End Examples.

Module MoreExamples.
Import Rational Examples.

(** The hidden state [h2] with another first hidden layer. *)
Definition h2_odd : list (tensor Q) :=
  [X2; mkT 2 [[0; 0]; [0; 0]]; mkT 2 [[5; 6]; [7; 8]]]%Q.

(** The hidden state [h2] with other even layers. *)
Definition h2_even : list (tensor Q) :=
  [mkT 3 [[0; 0; 0]; [0; 0; 0]]; mkT 2 [[1; 2]; [3; 4]]; mkT 2 [[0; 0]; [0; 0]]]%Q.

(** The configuration [args2] with an empty output path. *)
Definition args_empty_path : Args.t Q Q :=
  Args.mk 2 3 (Some 3) 2 (Callable linear) (Callable linear) false
    (Callable square_error) 1%Q true true 2%Q (2 # 5)%Q ""%string false.

(** With a hidden activation given by a name the registry does not know. *)
Definition args_unknown_name : Args.t Q Q :=
  Args.mk 2 3 (Some 3) 2 (Callable linear) (Name "tanh"%string) false
    (Callable square_error) 1%Q true true 2%Q (2 # 5)%Q "outputs/gsn/"%string false.

(** Without hidden layers. *)
Definition args_no_layers : Args.t Q Q :=
  Args.mk 0 3 (Some 3) 2 (Callable linear) (Callable linear) false
    (Callable square_error) 1%Q true true 2%Q (2 # 5)%Q "outputs/gsn/"%string false.

(** Without walkbacks. *)
Definition args_no_walkbacks : Args.t Q Q :=
  Args.mk 2 0 (Some 3) 2 (Callable linear) (Callable linear) false
    (Callable square_error) 1%Q true true 2%Q (2 # 5)%Q "outputs/gsn/"%string false.

(** A packed tensor one column wider than the odd layers of [unbuilt]. *)
Definition wide : tensor Q := mkT 3 [[1; 2; 9]; [3; 4; 9]]%Q.

End MoreExamples.

(** * Properties *)

(** ** Lists, results and computations *)

Lemma getitem_Some {A} (l : list A) i x : l !! i = Some x → getitem l i = Ok x.
Proof. intros E. unfold getitem. by rewrite E. Qed.

Lemma getitem_insert {A} (l : list A) i x :
  i < length l → getitem (<[i:=x]> l) i = Ok x.
Proof. intros Hi. apply getitem_Some. by apply list_lookup_insert_eq. Qed.

Lemma setitem_lt {A} (l : list A) i x :
  i < length l → setitem l i x = Ok (<[i:=x]> l).
Proof.
  intros Hi. unfold setitem.
  destruct (Nat.ltb_spec i (length l)); [done | lia].
Qed.

Lemma setitem_insert {A} (l : list A) i x y :
  i < length l → setitem (<[i:=x]> l) i y = Ok (<[i:=y]> l).
Proof.
  intros Hi. rewrite setitem_lt by (by rewrite length_insert).
  by rewrite list_insert_insert_eq.
Qed.

Lemma getlast_snoc {A} (l : list A) x : getlast (l ++ [x]) = Ok x.
Proof. unfold getlast. by rewrite last_snoc. Qed.

Lemma bind_Ok {G A B} (m : M G A) (k : A → M G B) g a g' :
  m g = Ok (a, g') → bind m k g = k a g'.
Proof. intros E. unfold bind. by rewrite E. Qed.

Lemma bind_Raise {G A B} (m : M G A) (k : A → M G B) g e :
  m g = Raise e → bind m k g = Raise e.
Proof. intros E. unfold bind. by rewrite E. Qed.

Lemma lift_Ok {G A} (r : result A) a (g : G) : r = Ok a → lift r g = Ok (a, g).
Proof. by intros ->. Qed.

Lemma for_each_ext {G E S} (l : list E) (f f' : E → S → M G S) s g :
  (∀ x s g, f x s g = f' x s g) → for_each l f s g = for_each l f' s g.
Proof.
  intros Hf. revert s g. induction l as [|x l IH]; intros s g; [done|].
  simpl. unfold bind. rewrite Hf. destruct (f' x s g) as [[s' g']|e]; [apply IH | done].
Qed.

(** A loop whose body keeps an invariant and never fails runs to the end. *)
Lemma for_each_invariant {G E S} (P : S → Prop) (l : list E) (f : E → S → M G S) :
  (∀ x s g, x ∈ l → P s → ∃ s' g', f x s g = Ok (s', g') ∧ P s') →
  ∀ s g, P s → ∃ s' g', for_each l f s g = Ok (s', g') ∧ P s'.
Proof.
  induction l as [|x l IH]; intros Hf s g Hs.
  - exists s, g. by split.
  - destruct (Hf x s g) as (s1 & g1 & E1 & H1); [left | done |].
    destruct (IH (λ y s g Hy, Hf y s g (list_elem_of_further _ _ _ Hy)) s1 g1 H1)
      as (s2 & g2 & E2 & H2).
    exists s2, g2. split; [|done]. simpl. by rewrite (bind_Ok _ _ _ _ _ E1).
Qed.

(** A loop whose body draws nothing draws nothing. *)
Lemma for_each_pure {G E S} (l : list E) (f : E → S → M G S) :
  (∀ x s, x ∈ l → ∃ r, ∀ g, f x s g = lift r g) →
  ∀ s, ∃ r, ∀ g, for_each l f s g = lift r g.
Proof.
  induction l as [|x l IH]; intros Hf s.
  - by exists (Ok s).
  - destruct (Hf x s) as [[s1|e] Hr]; [left| |].
    + destruct (IH (λ y s Hy, Hf y s (list_elem_of_further _ _ _ Hy)) s1) as [r' Hr'].
      exists r'. intros g. simpl. unfold bind. rewrite Hr. simpl. apply Hr'.
    + exists (Raise e). intros g. simpl. unfold bind. by rewrite Hr.
Qed.

(** What a loop that ran to the end preserved. *)
Lemma for_each_preserves {G E S} (P : S → Prop) (l : list E) (f : E → S → M G S) :
  (∀ x s g s' g', x ∈ l → f x s g = Ok (s', g') → P s → P s') →
  ∀ s g s' g', for_each l f s g = Ok (s', g') → P s → P s'.
Proof.
  induction l as [|x l IH]; intros Hf s g s' g' Hrun Hs.
  - injection Hrun as <- <-. done.
  - simpl in Hrun. unfold bind in Hrun.
    destruct (f x s g) as [[s1 g1]|e] eqn:E1; [|done].
    eapply (IH (λ y s g s' g' Hy, Hf y s g s' g' (list_elem_of_further _ _ _ Hy)));
      [exact Hrun|]. eapply Hf; [left|exact E1|exact Hs].
Qed.

Lemma setitem_inv {A} (l l' : list A) i x :
  setitem l i x = Ok l' → i < length l ∧ l' = <[i:=x]> l.
Proof.
  unfold setitem. destruct (Nat.ltb_spec i (length l)); [|done].
  by intros [= <-].
Qed.

Lemma elem_of_range_2 x a b : x ∈ range a b 2 → a ≤ x < b ∧ x mod 2 = a mod 2.
Proof.
  unfold range. intros Hx. apply list_elem_of_fmap in Hx as (k & -> & Hk).
  apply elem_of_seq in Hk. split.
  - pose proof (Nat.Div0.mul_div_le (b - a + (2 - 1)) 2). lia.
  - rewrite Nat.Div0.mod_add. done.
Qed.

Lemma range_0_2 n : 0 < n → range 0 n 2 = 0 :: range 2 n 2.
Proof.
  intros Hn. unfold range.
  replace ((n - 0 + (2 - 1)) / 2) with (S ((n - 2 + (2 - 1)) / 2)).
  - rewrite <- cons_seq. simpl. f_equal. rewrite <- fmap_S_seq, <- list_fmap_compose.
    apply list_fmap_ext. intros _ k _. simpl. lia.
  - destruct (decide (n = 1)) as [-> | Hn1]; [done|].
    replace (n - 0 + (2 - 1)) with (n - 2 + (2 - 1) + 1 * 2) by lia.
    rewrite Nat.div_add by done. lia.
Qed.

(** ** Shapes of the tensor operations *)

Section TensorFacts.
Context {R : Type} `{Scalar R}.
Implicit Types (t a b : tensor R) (v : vector R).

Lemma zeros_shape r c : has_shape r c (zeros (R:=R) r c).
Proof.
  unfold has_shape, nrows, wf, zeros. simpl. rewrite length_replicate.
  repeat split. apply Forall_replicate. by rewrite length_replicate.
Qed.

Lemma zeros_like_shape r c t : has_shape r c t → zeros_like t = zeros r c.
Proof. intros (<- & <- & _). done. Qed.

Lemma transpose_shape r c t : has_shape r c t → has_shape c r (transpose t).
Proof.
  intros (Hr & Hc & _). unfold has_shape, nrows, wf, transpose. simpl.
  rewrite length_fmap, length_seq. split; [done|]. split; [done|].
  apply Forall_fmap, Forall_forall. intros j _. simpl.
  unfold column. by rewrite length_fmap.
Qed.

Lemma dot_shape r n m a b :
  has_shape r n a → has_shape n m b → ∃ d, dot a b = Ok d ∧ has_shape r m d.
Proof.
  intros (Hr & Hc & _) (Hr' & Hc' & _). unfold dot.
  rewrite Hc, Hr', Nat.eqb_refl. eexists. split; [done|].
  unfold has_shape, nrows, wf. simpl. rewrite length_fmap.
  split; [done|]. split; [done|].
  apply Forall_fmap, Forall_forall. intros x _. simpl.
  by rewrite length_fmap, length_seq.
Qed.

Lemma tadd_shape r c a b :
  has_shape r c a → has_shape r c b → ∃ s, tadd a b = Ok s ∧ has_shape r c s.
Proof.
  intros (Hr & Hc & Hw) (Hr' & Hc' & Hw'). unfold tadd.
  rewrite Hr, Hr', Hc, Hc', !Nat.eqb_refl. simpl. eexists. split; [done|].
  unfold has_shape, nrows, wf in *. simpl.
  rewrite length_zip_with, Hr, Hr'. split; [lia|]. split; [done|].
  apply Forall_zip_with_fst with (P := λ x, length x = c); [by rewrite <- Hc|].
  rewrite <- Hc' in *. eapply Forall_impl; [exact Hw'|]. simpl.
  intros y Hy x Hx. rewrite length_zip_with. lia.
Qed.

Lemma badd_shape r c a v :
  has_shape r c a → length v = c → ∃ s, badd a v = Ok s ∧ has_shape r c s.
Proof.
  intros (Hr & Hc & Hw) Hv. unfold badd.
  rewrite Hc, Hv, Nat.eqb_refl. eexists. split; [done|].
  unfold has_shape, nrows, wf in *. simpl. rewrite length_fmap.
  split; [done|]. split; [done|].
  apply Forall_fmap. eapply Forall_impl; [exact Hw|]. simpl.
  intros x Hx. rewrite length_zip_with. lia.
Qed.

Lemma fmap_nth_seq {A} (l : list A) d (lo w : nat) :
  w ≤ length l - lo → (λ j, nth j l d) <$> seq lo w = take w (drop lo l).
Proof.
  intros Hl. apply list_eq. intros i. rewrite list_lookup_fmap.
  destruct (decide (i < w)) as [Hi|Hi].
  - rewrite lookup_seq_lt by done. simpl. rewrite lookup_take_lt by done.
    rewrite lookup_drop.
    destruct (lookup_lt_is_Some_2 l (lo + i)) as [x Hx]; [lia|].
    rewrite Hx. f_equal. by apply nth_lookup_Some.
  - rewrite lookup_seq_ge by lia. simpl. by rewrite lookup_take_ge by lia.
Qed.

(** [t.T[lo:hi].T] is the block of columns [lo, hi) of [t]. *)
Lemma transpose_getslice_transpose t lo hi :
  wf t → transpose (getslice (transpose t) lo hi) = slice_cols t lo hi.
Proof.
  intros Hwf. unfold transpose at 1, getslice, slice_cols, nrows. simpl.
  rewrite <- fmap_drop, <- fmap_take, drop_seq, take_seq, length_fmap, length_seq.
  simpl. f_equal.
  apply list_eq. intros i. unfold nrows. rewrite !list_lookup_fmap.
  destruct (decide (i < length (rows t))) as [Hi|Hi].
  2:{ rewrite lookup_seq_ge by lia. by rewrite lookup_ge_None_2 by lia. }
  rewrite lookup_seq_lt by done.
  destruct (lookup_lt_is_Some_2 (rows t) i Hi) as [r Hr]. rewrite Hr. simpl. f_equal.
  unfold column. simpl. rewrite <- list_fmap_compose.
  assert (length r = ncols t) as Hlr.
  { unfold wf in Hwf. rewrite Forall_lookup in Hwf. by eapply Hwf. }
  transitivity ((λ j, nth j r zero) <$> seq lo ((hi - lo) `min` (ncols t - lo))).
  - apply list_fmap_ext. intros _ j _. simpl. apply nth_lookup_Some.
    by rewrite list_lookup_fmap, Hr.
  - rewrite fmap_nth_seq by lia.
    rewrite <- take_take, (take_ge (drop lo r)); [done|].
    rewrite length_drop. lia.
Qed.

Lemma slice_cols_shape r c t lo hi :
  has_shape r c t → hi ≤ c → has_shape r (hi - lo) (slice_cols t lo hi).
Proof.
  intros (Hr & Hc & Hwf) Hhi. unfold has_shape, nrows, wf, slice_cols. simpl.
  rewrite length_fmap. split; [done|]. split; [lia|].
  apply Forall_fmap. eapply Forall_impl; [exact Hwf|]. simpl. intros x Hx.
  rewrite length_take, length_drop. lia.
Qed.

Lemma slice_cols_all t : wf t → slice_cols t 0 (ncols t) = t.
Proof.
  intros Hwf. destruct t as [c rs]. unfold slice_cols, wf in *. simpl in *.
  f_equal; [lia|]. rewrite <- (list_fmap_id rs) at 2.
  apply Forall_fmap_ext_1. eapply Forall_impl; [exact Hwf|]. simpl.
  intros x Hx. rewrite drop_0, Nat.sub_0_r. apply take_ge. lia.
Qed.

(** Joining two adjacent blocks of columns gives the block that spans them. *)
Lemma join_slice_cols t (lo mid hi : nat) :
  wf t → lo ≤ mid → mid ≤ hi → hi ≤ ncols t →
  join (slice_cols t lo mid) (slice_cols t mid hi) = Ok (slice_cols t lo hi).
Proof.
  intros Hwf Hab Hbc Hc. unfold join, nrows, slice_cols. simpl.
  rewrite !length_fmap, Nat.eqb_refl. f_equal. f_equal; [lia|].
  rewrite zip_with_fmap_l, zip_with_fmap_r, zip_with_diag.
  apply Forall_fmap_ext_1. eapply Forall_impl; [exact Hwf|]. simpl.
  intros x Hx. replace (hi - lo) with ((mid - lo) + (hi - mid)) by lia.
  rewrite <- take_take_drop. f_equal. rewrite drop_drop. do 2 f_equal. lia.
Qed.

Lemma join_shape r c c' a b :
  has_shape r c a → has_shape r c' b →
  ∃ j, join a b = Ok j ∧ has_shape r (c + c') j
       ∧ slice_cols j 0 c = a
       ∧ ∀ lo hi, slice_cols j (c + lo) (c + hi) = slice_cols b lo hi.
Proof.
  intros (Hr & Hc & Hw) (Hr' & Hc' & Hw'). unfold join.
  rewrite Hr, Hr', Nat.eqb_refl. eexists. split; [done|].
  destruct a as [ca ra], b as [cb rb]. unfold has_shape, nrows, wf, slice_cols in *.
  simpl in *. subst ca cb.
  assert (Forall2 (λ x y, length x = c ∧ length y = c') ra rb) as HF.
  { apply Forall2_same_length_lookup_2; [congruence|]. intros i x y Hx Hy.
    rewrite Forall_lookup in Hw, Hw'. eauto. }
  clear Hw Hw'. repeat split.
  - rewrite length_zip_with. lia.
  - clear Hr Hr'.
    induction HF as [|x y ra rb [Hx Hy] HF IH]; simpl; [done|]. constructor; [|done].
    rewrite length_app. lia.
  - f_equal; [lia|]. clear Hr Hr'.
    induction HF as [|x y ra rb [Hx Hy] HF IH]; simpl; [done|]. f_equal; [|done].
    rewrite Nat.sub_0_r. by apply take_app_length'.
  - intros lo hi. f_equal; [lia|]. clear Hr Hr'.
    induction HF as [|x y ra rb [Hx Hy] HF IH]; simpl; [done|]. f_equal; [|done].
    replace (c + hi - (c + lo)) with (hi - lo) by lia.
    by rewrite drop_app_add'.
Qed.

End TensorFacts.

(** ** One layer update *)

Section UpdateFacts.
Context {R level MRG : Type} `{Scalar R} `{Noise R level MRG}.
Implicit Types (hiddens weights_list : list (tensor R)) (bias_list : list (vector R)).
Implicit Types (p_X_chain : option (list (tensor R))) (g : MRG).

Lemma shaped_length B ls hiddens : shaped B ls hiddens → length hiddens = length ls.
Proof. apply Forall2_length. Qed.

Lemma shaped_lookup B ls hiddens i n :
  shaped B ls hiddens → ls !! i = Some n →
  ∃ h, hiddens !! i = Some h ∧ has_shape B n h.
Proof. intros Hs Hn. by destruct (Forall2_lookup_r _ _ _ _ _ Hs Hn) as (h & ? & ?); eauto. Qed.

Lemma shaped_insert B ls hiddens i n x :
  shaped B ls hiddens → ls !! i = Some n → has_shape B n x →
  shaped B ls (<[i:=x]> hiddens).
Proof.
  intros Hs Hn Hx. unfold shaped.
  rewrite <- (list_insert_id ls i n Hn). by apply Forall2_insert.
Qed.

Lemma weights_lookup ls weights_list i a b :
  weights_ok ls weights_list → ls !! i = Some a → ls !! (i + 1) = Some b →
  ∃ w, weights_list !! i = Some w ∧ has_shape a b w.
Proof.
  intros [Hl Hw] Ha Hb. pose proof (lookup_lt_Some _ _ _ Hb) as Hlt.
  destruct (lookup_lt_is_Some_2 weights_list i) as [w Ew]; [lia|].
  exists w. split; [done|]. eapply Hw; eauto.
Qed.

Lemma biases_lookup ls bias_list i n :
  biases_ok ls bias_list → ls !! i = Some n →
  ∃ b, bias_list !! i = Some b ∧ length b = n.
Proof. intros Hb Hn. by destruct (Forall2_lookup_r _ _ _ _ _ Hb Hn) as (b & ? & ?); eauto. Qed.

Lemma pre_activation_ok B ls hiddens weights_list bias_list i n :
  1 < length ls → shaped B ls hiddens → weights_ok ls weights_list →
  biases_ok ls bias_list → ls !! i = Some n →
  ∃ v, pre_activation hiddens weights_list bias_list i = Ok v ∧ has_shape B n v.
Proof.
  intros HL Hs Hw Hb Hn. unfold pre_activation.
  pose proof (shaped_length _ _ _ Hs) as Hlen.
  pose proof (lookup_lt_Some _ _ _ Hn) as Hi.
  destruct (biases_lookup _ _ _ _ Hb Hn) as (b & Eb & Hbl).
  destruct (Nat.eqb_spec i 0) as [-> | Hi0].
  - (* the visible layer *)
    destruct (lookup_lt_is_Some_2 ls 1 HL) as [n1 Hn1].
    destruct (shaped_lookup _ _ _ _ _ Hs Hn1) as (h & Eh & Hh).
    destruct (weights_lookup _ _ 0 _ _ Hw Hn Hn1) as (w & Ew & Hww).
    destruct (dot_shape _ _ _ _ _ Hh (transpose_shape _ _ _ Hww)) as (d & Ed & Hd).
    destruct (badd_shape _ _ _ _ Hd Hbl) as (v & Ev & Hv).
    exists v. simpl. rewrite (getitem_Some _ _ _ Eh). simpl.
    rewrite (getitem_Some _ _ _ Ew). simpl. rewrite Ed. simpl.
    rewrite (getitem_Some _ _ _ Eb). simpl. done.
  - destruct (lookup_lt_is_Some_2 ls (i - 1)) as [m Hm]; [lia|].
    destruct (shaped_lookup _ _ _ _ _ Hs Hm) as (h' & Eh' & Hh').
    assert (ls !! (i - 1 + 1) = Some n) as Hn' by (by replace (i - 1 + 1) with i by lia).
    destruct (weights_lookup _ _ _ _ _ Hw Hm Hn') as (w' & Ew' & Hww').
    destruct (dot_shape _ _ _ _ _ Hh' Hww') as (d' & Ed' & Hd').
    destruct (Nat.eqb_spec i (length hiddens - 1)) as [Htop | Hmid].
    + (* the top layer *)
      destruct (badd_shape _ _ _ _ Hd' Hbl) as (v & Ev & Hv).
      exists v. rewrite (getitem_Some _ _ _ Eh'). simpl.
      rewrite (getitem_Some _ _ _ Ew'). simpl. rewrite Ed'. simpl.
      rewrite (getitem_Some _ _ _ Eb). simpl. done.
    + (* in-between layers *)
      destruct (lookup_lt_is_Some_2 ls (i + 1)) as [q Hq]; [lia|].
      destruct (shaped_lookup _ _ _ _ _ Hs Hq) as (h & Eh & Hh).
      destruct (weights_lookup _ _ _ _ _ Hw Hn Hq) as (w & Ew & Hww).
      destruct (dot_shape _ _ _ _ _ Hh (transpose_shape _ _ _ Hww)) as (d & Ed & Hd).
      destruct (tadd_shape _ _ _ _ Hd Hd') as (s & Es & Hss).
      destruct (badd_shape _ _ _ _ Hss Hbl) as (v & Ev & Hv).
      exists v. rewrite (getitem_Some _ _ _ Eh). simpl.
      rewrite (getitem_Some _ _ _ Ew). simpl. rewrite Ed. simpl.
      rewrite (getitem_Some _ _ _ Eh'). simpl.
      rewrite (getitem_Some _ _ _ Ew'). simpl. rewrite Ed'. simpl.
      rewrite Es. simpl.
      rewrite (getitem_Some _ _ _ Eb). simpl. done.
Qed.

(** What one layer update computes once the pre-activation [v] is known. *)
Lemma simple_update_layer_eq hiddens weights_list bias_list p_X_chain i
    add_noise noiseless_h1 sigma p input_sampling va ha g v :
  pre_activation hiddens weights_list bias_list i = Ok v → i < length hiddens →
  simple_update_layer hiddens weights_list bias_list p_X_chain i
    add_noise noiseless_h1 sigma p input_sampling va ha g
  = (let an := if (i =? 1) && noiseless_h1 then false else add_noise in
     let n1 := if negb (i =? 0) && an then add_gaussian v sigma g else (v, g) in
     let x2 := if i =? 0 then va n1.1 else ha n1.1 in
     let n3 := if negb (i =? 0) && an then add_gaussian x2 sigma n1.2 else (x2, n1.2) in
     if i =? 0 then
       match p_X_chain with
       | Some c =>
           let s := if input_sampling then MRG_binomial n3.1 n3.2 else n3 in
           let n5 := salt_and_pepper s.1 p s.2 in
           Ok ((<[i:=n5.1]> hiddens, Some (c ++ [n3.1])), n5.2)
       | None => Raise AttributeError
       end
     else Ok ((<[i:=n3.1]> hiddens, p_X_chain), n3.2)).
Proof.
  intros Ev Hi. unfold simple_update_layer. rewrite Ev. simpl.
  rewrite setitem_lt by done. unfold bind at 1. simpl.
  set (an := if (i =? 1) && noiseless_h1 then false else add_noise).
  assert (Hnoise : ∀ x g0,
    (if negb (i =? 0) && an
     then let* h := lift (getitem (<[i:=x]> hiddens) i)
          in let* h' := draw (add_gaussian h sigma)
             in lift (setitem (<[i:=x]> hiddens) i h')
     else ret (<[i:=x]> hiddens)) g0
    = Ok (<[i:=(if negb (i =? 0) && an then add_gaussian x sigma g0 else (x, g0)).1]> hiddens,
          (if negb (i =? 0) && an then add_gaussian x sigma g0 else (x, g0)).2)).
  { intros x g0. destruct (negb (i =? 0) && an); [|done].
    unfold bind, lift, draw. rewrite getitem_insert by done.
    destruct (add_gaussian x sigma g0) as [x' g1]. simpl.
    by rewrite setitem_insert. }
  unfold bind at 1. rewrite Hnoise.
  set (n1 := if negb (i =? 0) && an then add_gaussian v sigma g else (v, g)).
  set (x2 := if i =? 0 then va n1.1 else ha n1.1).
  unfold bind at 1.
  assert ((if i =? 0
           then getitem (<[i:=n1.1]> hiddens) i ≫= λ h, setitem (<[i:=n1.1]> hiddens) i (va h)
           else getitem (<[i:=n1.1]> hiddens) i ≫= λ h, setitem (<[i:=n1.1]> hiddens) i (ha h))
          = Ok (<[i:=x2]> hiddens)) as ->.
  { unfold x2. rewrite getitem_insert by done. simpl.
    rewrite !setitem_insert by done. by destruct (i =? 0). }
  simpl. unfold bind at 1. rewrite Hnoise.
  set (n3 := if negb (i =? 0) && an then add_gaussian x2 sigma n1.2 else (x2, n1.2)).
  destruct (i =? 0); [|done].
  unfold bind at 1. simpl. rewrite getitem_insert by done. simpl.
  destruct p_X_chain as [c|]; [|done]. simpl.
  unfold n3. destruct input_sampling; unfold bind, lift, draw, ret; simpl.
  - destruct (MRG_binomial _ _) as [sampled g4]. simpl.
    destruct (salt_and_pepper _ _ _) as [x5 g5]. simpl.
    by rewrite setitem_insert.
  - destruct (salt_and_pepper _ _ _) as [x5 g5]. simpl.
    by rewrite setitem_insert.
Qed.

Lemma simple_update_layer_ok B ls hiddens weights_list bias_list p_X_chain i
    add_noise noiseless_h1 sigma p input_sampling va ha g :
  1 < length ls → shaped B ls hiddens → weights_ok ls weights_list →
  biases_ok ls bias_list → keeps_shape va → keeps_shape ha → noise_keeps_shape →
  i < length ls → (i = 0 → is_Some p_X_chain) →
  ∃ x chain' g',
    simple_update_layer hiddens weights_list bias_list p_X_chain i
      add_noise noiseless_h1 sigma p input_sampling va ha g
    = Ok ((<[i:=x]> hiddens, chain'), g')
    ∧ (∀ n, ls !! i = Some n → has_shape B n x)
    ∧ (i ≠ 0 → chain' = p_X_chain)
    ∧ (i = 0 → ∃ c y n, p_X_chain = Some c ∧ chain' = Some (c ++ [y]) ∧
                        ls !! 0 = Some n ∧ has_shape B n y).
Proof.
  intros HL Hs Hw Hb Hva Hha (Hsp & Hga & Hbi) Hi Hc.
  pose proof (shaped_length _ _ _ Hs) as Hlen.
  destruct (lookup_lt_is_Some_2 ls i Hi) as [n Hn].
  destruct (pre_activation_ok B ls hiddens weights_list bias_list i n) as (v & Ev & Hv);
    try done.
  rewrite (simple_update_layer_eq _ _ _ _ _ _ _ _ _ _ _ _ _ v Ev) by lia.
  cbv zeta.
  set (an := if (i =? 1) && noiseless_h1 then false else add_noise).
  set (n1 := if negb (i =? 0) && an then add_gaussian v sigma g else (v, g)).
  assert (has_shape B n n1.1) as H1.
  { unfold n1. destruct (negb (i =? 0) && an); [by apply (Hga sigma g)|done]. }
  set (x2 := if i =? 0 then va n1.1 else ha n1.1).
  assert (has_shape B n x2) as H2 by (unfold x2; destruct (i =? 0); auto).
  set (n3 := if negb (i =? 0) && an then add_gaussian x2 sigma n1.2 else (x2, n1.2)).
  assert (has_shape B n n3.1) as H3.
  { unfold n3. destruct (negb (i =? 0) && an); [by apply (Hga sigma n1.2)|done]. }
  destruct (Nat.eqb_spec i 0) as [-> | Hi0].
  - destruct (Hc eq_refl) as [c ->].
    set (s := if input_sampling then MRG_binomial n3.1 n3.2 else n3).
    assert (has_shape B n s.1) as H4.
    { unfold s. destruct input_sampling; [by apply (Hbi n3.2)|done]. }
    eexists _, _, _. split; [done|]. split; [|split; [done|]].
    + intros n0 Hn0. rewrite Hn in Hn0. injection Hn0 as <-. by apply (Hsp p s.2).
    + intros _. by exists c, n3.1, n.
  - eexists _, _, _. split; [done|]. split; [|split; [done|lia]].
    intros n0 Hn0. rewrite Hn in Hn0. by injection Hn0 as <-.
Qed.

(** Whenever a layer update returns, it has replaced entry [i] and nothing
    else, and has touched the chain only at the visible layer. *)
Lemma simple_update_layer_frame hiddens weights_list bias_list p_X_chain i
    add_noise noiseless_h1 sigma p input_sampling va ha g hiddens' chain' g' :
  simple_update_layer hiddens weights_list bias_list p_X_chain i
    add_noise noiseless_h1 sigma p input_sampling va ha g
  = Ok ((hiddens', chain'), g') →
  i < length hiddens
  ∧ (∃ x, hiddens' = <[i:=x]> hiddens)
  ∧ (i ≠ 0 → chain' = p_X_chain)
  ∧ (i = 0 → ∃ c v, p_X_chain = Some c
                    ∧ pre_activation hiddens weights_list bias_list 0 = Ok v
                    ∧ chain' = Some (c ++ [va v])).
Proof.
  intros E.
  destruct (pre_activation hiddens weights_list bias_list i) as [v|e] eqn:Ev.
  2:{ unfold simple_update_layer in E. rewrite Ev in E. done. }
  destruct (decide (i < length hiddens)) as [Hi|Hi].
  2:{ unfold simple_update_layer in E. rewrite Ev in E. simpl in E.
      unfold setitem in E. destruct (Nat.ltb_spec i (length hiddens)); [lia|done]. }
  rewrite (simple_update_layer_eq _ _ _ _ _ _ _ _ _ _ _ _ _ v Ev Hi) in E.
  cbv zeta in E. split; [done|].
  destruct (Nat.eqb_spec i 0) as [-> | Hi0].
  - destruct p_X_chain as [c|]; [|done]. injection E as <- <- <-.
    split; [by eexists|]. split; [done|]. intros _. by exists c, v.
  - injection E as <- <- <-. split; [by eexists|]. split; [done|lia].
Qed.

Lemma update_odd_layers_frame hiddens weights_list bias_list
    add_noise noiseless_h1 sigma p input_sampling va ha g hiddens' g' :
  update_odd_layers hiddens weights_list bias_list
    add_noise noiseless_h1 sigma p input_sampling va ha g = Ok (hiddens', g') →
  length hiddens' = length hiddens
  ∧ ∀ j, j mod 2 = 0 → hiddens' !! j = hiddens !! j.
Proof.
  intros E. unfold update_odd_layers in E.
  apply (for_each_preserves
           (λ s, length s = length hiddens ∧ ∀ j, j mod 2 = 0 → s !! j = hiddens !! j))
    in E; [done| |done].
  intros i s g0 s' g1 Hi Ei [Hl Hfr]. apply elem_of_range_2 in Hi as [_ Hodd].
  unfold bind in Ei.
  destruct (simple_update_layer _ _ _ _ _ _ _ _ _ _ _ _ _) as [[[h1 c1] g2]|e] eqn:E1;
    [|done].
  injection Ei as <- <-. apply simple_update_layer_frame in E1 as (_ & [x ->] & _).
  cbn [fst]. rewrite length_insert. split; [done|].
  intros j Hj. rewrite list_lookup_insert_ne; [by apply Hfr|].
  intros ->. rewrite Hj in Hodd. done.
Qed.

Lemma update_even_layers_frame hiddens weights_list bias_list p_X_chain
    add_noise noiseless_h1 sigma p input_sampling va ha g hiddens' chain' g' :
  hiddens ≠ [] →
  update_even_layers hiddens weights_list bias_list p_X_chain
    add_noise noiseless_h1 sigma p input_sampling va ha g
  = Ok ((hiddens', chain'), g') →
  length hiddens' = length hiddens
  ∧ (∀ j, j mod 2 = 1 → hiddens' !! j = hiddens !! j)
  ∧ ∃ c v, p_X_chain = Some c
           ∧ pre_activation hiddens weights_list bias_list 0 = Ok v
           ∧ chain' = Some (c ++ [va v]).
Proof.
  intros Hne E. unfold update_even_layers in E.
  rewrite range_0_2 in E by (destruct hiddens; [done|simpl; lia]).
  simpl in E. unfold bind in E.
  destruct (simple_update_layer _ _ _ _ _ _ _ _ _ _ _ _ _) as [[[h1 c1] g1]|e] eqn:E1;
    [|done].
  apply simple_update_layer_frame in E1 as (_ & [x ->] & _ & Hc).
  destruct (Hc eq_refl) as (c & v & -> & Ev & ->).
  apply (for_each_preserves
           (λ st : list (tensor R) * option (list (tensor R)),
              length st.1 = length hiddens ∧ st.2 = Some (c ++ [va v]) ∧
              ∀ j, j mod 2 = 1 → st.1 !! j = hiddens !! j))
    in E.
  - cbn [fst snd] in E. destruct E as (Hl & -> & Hfr). split; [done|]. split; [done|].
    by exists c, v.
  - intros i [s cs] g0 [s' cs'] g2 Hi Ei (Hl & Hcs & Hfr). cbn [fst snd] in *.
    apply elem_of_range_2 in Hi as [Hi Hev].
    apply simple_update_layer_frame in Ei as (_ & [x' ->] & Hc' & _).
    rewrite length_insert. split; [done|]. split; [rewrite Hc' by lia; done|].
    intros j Hj. rewrite list_lookup_insert_ne; [by apply Hfr|].
    intros ->. rewrite Hj in Hev. done.
  - cbn [fst snd]. rewrite length_insert. split; [done|]. split; [done|].
    intros j Hj. apply list_lookup_insert_ne. intros <-. done.
Qed.

Lemma simple_update_layer_fails hiddens weights_list bias_list p_X_chain i
    add_noise noiseless_h1 sigma p input_sampling va ha :
  (∀ v, pre_activation hiddens weights_list bias_list i = Ok v → ¬ i < length hiddens) →
  ∃ e, ∀ g, simple_update_layer hiddens weights_list bias_list p_X_chain i
              add_noise noiseless_h1 sigma p input_sampling va ha g = Raise e.
Proof.
  intros Hf. unfold simple_update_layer.
  destruct (pre_activation hiddens weights_list bias_list i) as [v|e] eqn:Ev.
  - exists IndexError. intros g. simpl. unfold setitem.
    destruct (Nat.ltb_spec i (length hiddens)); [by destruct (Hf v)|done].
  - by exists e.
Qed.

(** Without [add_noise], the update of a hidden layer draws nothing. *)
Lemma simple_update_layer_quiet hiddens weights_list bias_list p_X_chain i
    noiseless_h1 sigma p input_sampling va ha :
  i ≠ 0 →
  ∃ r, ∀ g, simple_update_layer hiddens weights_list bias_list p_X_chain i
              false noiseless_h1 sigma p input_sampling va ha g = lift r g.
Proof.
  intros Hi0.
  destruct (pre_activation hiddens weights_list bias_list i) as [v|e] eqn:Ev.
  2:{ destruct (simple_update_layer_fails hiddens weights_list bias_list p_X_chain i
                  false noiseless_h1 sigma p input_sampling va ha) as [e' He'].
      - intros v. by rewrite Ev.
      - exists (Raise e'). apply He'. }
  destruct (decide (i < length hiddens)) as [Hi|Hi].
  2:{ destruct (simple_update_layer_fails hiddens weights_list bias_list p_X_chain i
                  false noiseless_h1 sigma p input_sampling va ha) as [e' He'].
      - by intros _ _.
      - exists (Raise e'). apply He'. }
  exists (Ok (<[i:=ha v]> hiddens, p_X_chain)). intros g.
  rewrite (simple_update_layer_eq _ _ _ _ _ _ _ _ _ _ _ _ _ v Ev Hi). cbv zeta.
  destruct (Nat.eqb_spec i 0) as [|_]; [done|].
  by destruct ((i =? 1) && noiseless_h1).
Qed.

Lemma update_odd_layers_quiet hiddens weights_list bias_list
    noiseless_h1 sigma p input_sampling va ha :
  ∃ r, ∀ g, update_odd_layers hiddens weights_list bias_list
              false noiseless_h1 sigma p input_sampling va ha g = lift r g.
Proof.
  unfold update_odd_layers. apply for_each_pure. intros i s Hi.
  apply elem_of_range_2 in Hi as [Hi _].
  destruct (simple_update_layer_quiet s weights_list bias_list None i
              noiseless_h1 sigma p input_sampling va ha) as [[r|e] Hr]; [lia| |].
  - exists (Ok r.1). intros g. unfold bind. by rewrite Hr.
  - exists (Raise e). intros g. unfold bind. by rewrite Hr.
Qed.

(** ** The zero-initialised hidden state *)

Lemma init_hiddens_loop B ls weights_list k acc :
  length acc = k + 1 → shaped B (take (k + 1) ls) acc →
  k + length weights_list + 1 = length ls →
  (∀ i w a b, weights_list !! i = Some w → ls !! (k + i) = Some a →
              ls !! (k + i + 1) = Some b → has_shape a b w) →
  ∃ hiddens,
    rfor_each weights_list
      (λ w hiddens, h ← getlast hiddens; d ← dot h w; Ok (hiddens ++ [zeros_like d]))
      acc = Ok hiddens
    ∧ shaped B ls hiddens.
Proof.
  revert k acc. induction weights_list as [|w ws IH]; intros k acc Hacc Hs Hlen Hw.
  - exists acc. split; [done|]. simpl in Hlen. rewrite take_ge in Hs by lia. done.
  - simpl in Hlen.
    destruct (lookup_lt_is_Some_2 ls k) as [a Ha]; [lia|].
    destruct (lookup_lt_is_Some_2 ls (k + 1)) as [b Hb]; [lia|].
    assert (take (k + 1) ls !! k = Some a) as Ha' by (rewrite lookup_take_lt by lia; done).
    destruct (shaped_lookup _ _ _ _ _ Hs Ha') as (h & Eh & Hh).
    assert (has_shape a b w) as Hww.
    { apply (Hw 0 w a b); [done| |]; by rewrite Nat.add_0_r. }
    destruct (dot_shape _ _ _ _ _ Hh Hww) as (d & Ed & Hd).
    destruct (IH (k + 1) (acc ++ [zeros_like d])) as (hiddens & E & Hsh).
    + rewrite length_app. simpl. lia.
    + replace (k + 1 + 1) with (S (k + 1)) by lia.
      rewrite (take_S_r _ _ _ Hb). apply Forall2_app; [done|].
      constructor; [|constructor]. rewrite (zeros_like_shape _ _ _ Hd).
      apply zeros_shape.
    + lia.
    + intros i w' a' b' Ew' Ha'' Hb''. apply (Hw (S i) w' a' b'); [done| |].
      * by replace (k + S i) with (k + 1 + i) by lia.
      * by replace (k + S i + 1) with (k + 1 + i + 1) by lia.
    + exists hiddens. split; [|done]. simpl.
      unfold getlast. rewrite last_lookup, Hacc.
      replace (pred (k + 1)) with k by lia. rewrite Eh. simpl. rewrite Ed. simpl.
      exact E.
Qed.

Lemma init_hiddens_ok B ls X_init weights_list :
  weights_ok ls weights_list → (∀ n, ls !! 0 = Some n → has_shape B n X_init) →
  ∃ hiddens, init_hiddens X_init weights_list = Ok hiddens ∧ shaped B ls hiddens.
Proof.
  intros [Hlen Hw] HX. unfold init_hiddens.
  destruct (lookup_lt_is_Some_2 ls 0) as [n Hn]; [lia|].
  apply (init_hiddens_loop B ls weights_list 0); [done| |lia|done].
  simpl. destruct ls as [|n' ls']; [done|]. simpl in *. injection Hn as ->.
  rewrite take_0. constructor; [auto|constructor].
Qed.

(** ** The odd pass and the even pass *)

Section Passes.
Variables (B : nat) (ls : list nat).
Variables (weights_list : list (tensor R)) (bias_list : list (vector R)).
Variables (add_noise noiseless_h1 input_sampling : bool) (sigma p : level).
Variables (va ha : tensor R → tensor R).
Hypothesis HL : 1 < length ls.
Hypothesis Hw : weights_ok ls weights_list.
Hypothesis Hb : biases_ok ls bias_list.
Hypothesis Hva : keeps_shape va.
Hypothesis Hha : keeps_shape ha.
Hypothesis Hnoise : noise_keeps_shape.

Lemma update_odd_layers_ok hiddens g :
  shaped B ls hiddens →
  ∃ hiddens' g',
    update_odd_layers hiddens weights_list bias_list
      add_noise noiseless_h1 sigma p input_sampling va ha g = Ok (hiddens', g')
    ∧ shaped B ls hiddens'
    ∧ ∀ j, j mod 2 = 0 → hiddens' !! j = hiddens !! j.
Proof.
  intros Hs. unfold update_odd_layers.
  apply (for_each_invariant
           (λ s, shaped B ls s ∧ ∀ j, j mod 2 = 0 → s !! j = hiddens !! j)); [|done].
  intros i s g0 Hi [Hss Hfr]. apply elem_of_range_2 in Hi as [Hi Hodd].
  rewrite (shaped_length _ _ _ Hs) in Hi.
  destruct (simple_update_layer_ok B ls s weights_list bias_list None i
              add_noise noiseless_h1 sigma p input_sampling va ha g0)
    as (x & c' & g1 & E & Hx & _); try done; try lia.
  exists (<[i:=x]> s), g1. rewrite (bind_Ok _ _ _ _ _ E). split; [done|].
  destruct (lookup_lt_is_Some_2 ls i) as [n Hn]; [lia|].
  split; [by eapply shaped_insert; eauto|].
  intros j Hj. rewrite list_lookup_insert_ne; [by apply Hfr|].
  intros ->. rewrite Hj in Hodd. done.
Qed.

Lemma update_even_layers_ok hiddens c g :
  shaped B ls hiddens →
  ∃ hiddens' y g',
    update_even_layers hiddens weights_list bias_list (Some c)
      add_noise noiseless_h1 sigma p input_sampling va ha g
    = Ok ((hiddens', Some (c ++ [y])), g')
    ∧ shaped B ls hiddens'
    ∧ (∀ j, j mod 2 = 1 → hiddens' !! j = hiddens !! j)
    ∧ (∀ n, ls !! 0 = Some n → has_shape B n y).
Proof.
  intros Hs. unfold update_even_layers.
  pose proof (shaped_length _ _ _ Hs) as Hlen.
  rewrite range_0_2 by lia. simpl.
  destruct (simple_update_layer_ok B ls hiddens weights_list bias_list (Some c) 0
              add_noise noiseless_h1 sigma p input_sampling va ha g)
    as (x & c' & g1 & E & Hx & _ & Hc); try done; try lia.
  destruct (Hc eq_refl) as (c0 & y & n & [= <-] & -> & Hn & Hy).
  rewrite (bind_Ok _ _ _ _ _ E).
  destruct (for_each_invariant
              (λ st : list (tensor R) * option (list (tensor R)),
                 shaped B ls st.1 ∧ st.2 = Some (c ++ [y]) ∧
                 ∀ j, j mod 2 = 1 → st.1 !! j = hiddens !! j)
              (range 2 (length hiddens) 2)
              (λ i st, simple_update_layer st.1 weights_list bias_list st.2 i
                         add_noise noiseless_h1 sigma p input_sampling va ha))
    with (s := (<[0:=x]> hiddens, Some (c ++ [y]))) (g := g1)
    as ([h' c'] & g' & E' & Hs' & Hc' & Hfr').
  - intros i [s cs] g0 Hi (Hss & Hcs & Hfr). cbn [fst snd] in *.
    apply elem_of_range_2 in Hi as [Hi Hev].
    destruct (simple_update_layer_ok B ls s weights_list bias_list cs i
                add_noise noiseless_h1 sigma p input_sampling va ha g0)
      as (x' & c' & g2 & E2 & Hx' & Hc2 & _); try done; try lia.
    exists (<[i:=x']> s, c'), g2. split; [done|]. cbn [fst snd].
    destruct (lookup_lt_is_Some_2 ls i) as [m Hm]; [lia|].
    split; [by eapply shaped_insert; eauto|].
    split; [rewrite Hc2 by lia; done|].
    intros j Hj. rewrite list_lookup_insert_ne; [by apply Hfr|].
    intros ->. rewrite Hj in Hev. done.
  - cbn [fst snd]. split; [by eapply shaped_insert; eauto|]. split; [done|].
    intros j Hj. apply list_lookup_insert_ne. intros <-. done.
  - cbn [fst snd] in *. subst c'. exists h', y, g'. split; [done|]. split; [done|].
    split; [done|]. intros n' Hn'. rewrite Hn in Hn'. by injection Hn' as <-.
Qed.

Lemma update_layers_ok hiddens c g :
  shaped B ls hiddens →
  ∃ hiddens' y g',
    update_layers hiddens weights_list bias_list (Some c)
      add_noise noiseless_h1 sigma p input_sampling va ha g
    = Ok ((hiddens', Some (c ++ [y])), g')
    ∧ shaped B ls hiddens'
    ∧ (∀ n, ls !! 0 = Some n → has_shape B n y).
Proof.
  intros Hs. unfold update_layers.
  destruct (update_odd_layers_ok hiddens g Hs) as (h1 & g1 & E1 & Hs1 & _).
  destruct (update_even_layers_ok h1 c g1 Hs1) as (h2 & y & g2 & E2 & Hs2 & _ & Hy).
  exists h2, y, g2. by rewrite (bind_Ok _ _ _ _ _ E1).
Qed.

Lemma update_layers_reverse_ok hiddens c g :
  shaped B ls hiddens →
  ∃ hiddens' y g',
    update_layers_reverse hiddens weights_list bias_list (Some c)
      add_noise noiseless_h1 sigma p input_sampling va ha g
    = Ok ((hiddens', Some (c ++ [y])), g')
    ∧ shaped B ls hiddens'
    ∧ (∀ n, ls !! 0 = Some n → has_shape B n y).
Proof.
  intros Hs. unfold update_layers_reverse.
  destruct (update_even_layers_ok hiddens c g Hs) as (h1 & y & g1 & E1 & Hs1 & _ & Hy).
  destruct (update_odd_layers_ok h1 g1 Hs1) as (h2 & g2 & E2 & Hs2 & _).
  exists h2, y, g2. rewrite (bind_Ok _ _ _ _ _ E1). cbn [fst snd].
  by rewrite (bind_Ok _ _ _ _ _ E2).
Qed.

(** [walkbacks] passes, each appending one reconstruction. *)
Lemma walkbacks_ok
    (step : list (tensor R) → option (list (tensor R)) →
            M MRG (list (tensor R) * option (list (tensor R)))) :
  (∀ hiddens c g, shaped B ls hiddens →
     ∃ hiddens' y g', step hiddens (Some c) g = Ok ((hiddens', Some (c ++ [y])), g')
                      ∧ shaped B ls hiddens'
                      ∧ (∀ n, ls !! 0 = Some n → has_shape B n y)) →
  ∀ walkbacks start hiddens c g, shaped B ls hiddens →
    ∃ hiddens' c' g',
      for_each (seq start walkbacks) (λ _ st, step st.1 st.2) (hiddens, Some c) g
      = Ok ((hiddens', Some (c ++ c')), g')
      ∧ shaped B ls hiddens'
      ∧ length c' = walkbacks
      ∧ (∀ n, ls !! 0 = Some n → Forall (has_shape B n) c').
Proof.
  intros Hstep walkbacks. induction walkbacks as [|k IH]; intros start hiddens c g Hs.
  - exists hiddens, [], g. rewrite app_nil_r. by repeat split.
  - destruct (Hstep hiddens c g Hs) as (h1 & y & g1 & E1 & Hs1 & Hy).
    destruct (IH (S start) h1 (c ++ [y]) g1 Hs1) as (h2 & c' & g2 & E2 & Hs2 & Hl & Hc').
    exists h2, (y :: c'), g2. simpl. rewrite (bind_Ok _ _ _ _ _ E1).
    rewrite E2, <- app_assoc. simpl. split; [done|]. split; [done|].
    split; [by rewrite Hl|]. intros n Hn. constructor; auto.
Qed.

Lemma build_gsn_ok walkbacks X g :
  (∀ n, ls !! 0 = Some n → has_shape B n X) →
  ∃ chain hiddens g',
    build_gsn X weights_list bias_list
      add_noise noiseless_h1 sigma p input_sampling va ha walkbacks g
    = Ok ((Some chain, hiddens), g')
    ∧ length chain = walkbacks
    ∧ (∀ n, ls !! 0 = Some n → Forall (has_shape B n) chain)
    ∧ shaped B ls hiddens.
Proof.
  intros HX. unfold build_gsn.
  set (X_init := if add_noise then salt_and_pepper X p g else (X, g)).
  assert ((if add_noise then draw (salt_and_pepper X p) else ret X) g = Ok X_init) as EX
    by (unfold X_init; by destruct add_noise).
  rewrite (bind_Ok _ _ _ (X_init.1) (X_init.2)) by (by destruct X_init).
  destruct (init_hiddens_ok B ls X_init.1 weights_list Hw) as (h0 & E0 & Hs0).
  { intros n Hn. unfold X_init. destruct add_noise; [|by apply HX].
    apply Hnoise. by apply HX. }
  rewrite (bind_Ok _ _ _ h0 (X_init.2)) by (by apply lift_Ok).
  destruct (walkbacks_ok
              (λ hiddens chain,
                 update_layers hiddens weights_list bias_list chain
                   add_noise noiseless_h1 sigma p input_sampling va ha)
              update_layers_ok walkbacks 0 h0 [] X_init.2 Hs0)
    as (h1 & c & g1 & E1 & Hs1 & Hc & Hcs).
  exists c, h1, g1. by rewrite (bind_Ok _ _ _ _ _ E1).
Qed.

Lemma build_gsn_given_hiddens_ok walkbacks cost_function X hiddens g :
  1 ≤ walkbacks → shaped B ls hiddens →
  ∃ chain rX hiddens' g',
    build_gsn_given_hiddens X hiddens weights_list bias_list
      add_noise noiseless_h1 sigma p input_sampling va ha walkbacks cost_function g
    = Ok ((Some chain, hiddens',
           numpy_sum ((λ rX, cost_function rX X) <$> chain), cost_function rX X), g')
    ∧ for_each (seq 0 walkbacks)
        (λ _ st,
           let* st' := update_even_layers st.1 weights_list bias_list st.2
                         add_noise noiseless_h1 sigma p input_sampling va ha in
           let* hiddens := update_odd_layers st'.1 weights_list bias_list
                             add_noise noiseless_h1 sigma p input_sampling va ha in
           ret (hiddens, st'.2))
        (hiddens, Some []) g
      = Ok ((hiddens', Some chain), g')
    ∧ length chain = walkbacks
    ∧ last chain = Some rX
    ∧ (∀ n, ls !! 0 = Some n → Forall (has_shape B n) chain)
    ∧ shaped B ls hiddens'.
Proof.
  intros HK Hs. unfold build_gsn_given_hiddens.
  destruct (walkbacks_ok
              (λ hiddens chain,
                 update_layers_reverse hiddens weights_list bias_list chain
                   add_noise noiseless_h1 sigma p input_sampling va ha)
              update_layers_reverse_ok walkbacks 0 hiddens [] g Hs)
    as (h1 & c & g1 & E1 & Hs1 & Hc & Hcs).
  simpl in E1. rewrite (bind_Ok _ _ _ _ _ E1). cbn [fst snd].
  destruct (last c) as [rX|] eqn:El.
  2:{ apply last_None in El. subst c. simpl in Hc. lia. }
  exists c, rX, h1, g1. split; [|done].
  unfold bind, lift, ret. simpl. unfold getlast.
  by rewrite fmap_last, El.
Qed.

(** Without [add_noise] the first reconstruction does not depend on the
    generator. *)
Lemma build_gsn_first_reconstruction walkbacks X :
  add_noise = false → 1 ≤ walkbacks →
  (∀ n, ls !! 0 = Some n → has_shape B n X) →
  ∃ rX, ∀ g, ∃ chain hiddens g',
    build_gsn X weights_list bias_list
      add_noise noiseless_h1 sigma p input_sampling va ha walkbacks g
    = Ok ((Some chain, hiddens), g')
    ∧ head chain = Some rX.
Proof.
  intros Han HK HX. destruct walkbacks as [|k]; [lia|].
  destruct (init_hiddens_ok B ls X weights_list Hw HX) as (h0 & E0 & Hs0).
  destruct (update_odd_layers_quiet h0 weights_list bias_list
              noiseless_h1 sigma p input_sampling va ha) as [r_odd Hodd].
  rewrite <- Han in Hodd.
  destruct (lookup_lt_is_Some_2 ls 0) as [n Hn]; [lia|].
  destruct (update_odd_layers_ok h0 (MRG_RandomStreams 0) Hs0) as (h1 & g1 & E1 & Hs1 & _).
  rewrite Hodd in E1. destruct r_odd as [h1'|e]; [|done]. injection E1 as -> _.
  destruct (pre_activation_ok B ls h1 weights_list bias_list 0 n HL Hs1 Hw Hb Hn)
    as (v0 & Ev0 & _).
  exists (va v0). intros g. unfold build_gsn.
  assert ((if add_noise then draw (salt_and_pepper X p) else ret X) g = Ok (X, g)) as EX
    by (by rewrite Han).
  rewrite (bind_Ok _ _ _ _ _ EX).
  rewrite (bind_Ok _ _ _ h0 g) by (by apply lift_Ok).
  destruct (update_even_layers_ok h1 [] g Hs1) as (h2 & y & g2 & E2 & Hs2 & _).
  assert (update_layers h0 weights_list bias_list (Some [])
            add_noise noiseless_h1 sigma p input_sampling va ha g
          = Ok ((h2, Some ([] ++ [y])), g2)) as EU.
  { unfold update_layers. by rewrite (bind_Ok _ _ _ h1 g) by (by rewrite Hodd). }
  apply update_even_layers_frame in E2 as (_ & _ & c & v & [= <-] & Ev & [= ->]).
  2:{ intros ->. apply shaped_length in Hs1. simpl in Hs1. lia. }
  rewrite Ev0 in Ev. injection Ev as <-.
  destruct (walkbacks_ok
              (λ hiddens chain,
                 update_layers hiddens weights_list bias_list chain
                   add_noise noiseless_h1 sigma p input_sampling va ha)
              update_layers_ok k 1 h2 [va v0] g2 Hs2)
    as (h3 & c' & g3 & E3 & _).
  assert (for_each (seq 0 (S k))
            (λ _ st, update_layers st.1 weights_list bias_list st.2
                       add_noise noiseless_h1 sigma p input_sampling va ha)
            (h0, Some []) g
          = Ok ((h3, Some (va v0 :: c')), g3)) as EL.
  { rewrite <- cons_seq. cbn [for_each fst snd].
    rewrite (bind_Ok _ _ _ _ _ EU). exact E3. }
  exists (va v0 :: c'), h3, g3. by rewrite (bind_Ok _ _ _ _ _ EL).
Qed.

End Passes.

(** C1: for every layer count [L >= 1] and every walkback count [K],
    [build_gsn] called on an input batch of [B] rows, with [L] weights and
    [L + 1] biases shaped after the layer-size schedule
    [input_size, hidden_size, ..., hidden_size], returns a reconstruction
    chain of exactly [K] tensors and a hidden-state list of exactly [L + 1]
    tensors whose shapes follow that schedule. *)
Theorem build_gsn_chain_and_shapes (L K B input_size hidden_size : nat)
    X weights_list bias_list add_noise noiseless_h1 sigma p input_sampling
    va ha g :
  1 ≤ L →
  length weights_list = L → length bias_list = L + 1 →
  has_shape B input_size X →
  weights_ok (input_size :: replicate L hidden_size) weights_list →
  biases_ok (input_size :: replicate L hidden_size) bias_list →
  keeps_shape va → keeps_shape ha → noise_keeps_shape →
  ∃ chain hiddens g',
    build_gsn X weights_list bias_list
      add_noise noiseless_h1 sigma p input_sampling va ha K g
    = Ok ((Some chain, hiddens), g')
    ∧ length chain = K
    ∧ Forall (has_shape B input_size) chain
    ∧ length hiddens = L + 1
    ∧ shaped B (input_size :: replicate L hidden_size) hiddens.
Proof.
  intros HL _ _ HX Hw Hb Hva Hha Hnoise.
  destruct (build_gsn_ok B (input_size :: replicate L hidden_size)
              weights_list bias_list add_noise noiseless_h1 input_sampling sigma p
              va ha) with (walkbacks := K) (X := X) (g := g)
    as (c & h & g' & E & Hc & Hcs & Hs); try done.
  - simpl. rewrite length_replicate. lia.
  - by intros n [= <-].
  - exists c, h, g'. split; [done|]. split; [done|]. split; [by apply Hcs|].
    split; [|done]. rewrite (shaped_length _ _ _ Hs). simpl.
    rewrite length_replicate. lia.
Qed.

(** C4: from a hidden state shaped after the layer sizes,
    [build_gsn_given_hiddens] with [walkbacks >= 1] performs exactly
    [walkbacks] passes, each one the even-layer update followed by the
    odd-layer update, appends one reconstruction per pass, and returns the
    chain, the final hidden state, the sum of [cost_function rX X] over the
    chain entries and [cost_function] of the last chain entry. *)
Theorem build_gsn_given_hiddens_passes_and_costs (B walkbacks : nat) ls
    X hiddens weights_list bias_list add_noise noiseless_h1 sigma p
    input_sampling va ha cost_function g :
  1 ≤ walkbacks → 1 < length ls →
  shaped B ls hiddens → weights_ok ls weights_list → biases_ok ls bias_list →
  keeps_shape va → keeps_shape ha → noise_keeps_shape →
  ∃ chain rX hiddens' g',
    build_gsn_given_hiddens X hiddens weights_list bias_list
      add_noise noiseless_h1 sigma p input_sampling va ha walkbacks cost_function g
    = Ok ((Some chain, hiddens',
           numpy_sum ((λ rX, cost_function rX X) <$> chain), cost_function rX X), g')
    ∧ for_each (seq 0 walkbacks)
        (λ _ st,
           let* st' := update_even_layers st.1 weights_list bias_list st.2
                         add_noise noiseless_h1 sigma p input_sampling va ha in
           let* hiddens := update_odd_layers st'.1 weights_list bias_list
                             add_noise noiseless_h1 sigma p input_sampling va ha in
           ret (hiddens, st'.2))
        (hiddens, Some []) g
      = Ok ((hiddens', Some chain), g')
    ∧ length chain = walkbacks
    ∧ last chain = Some rX
    ∧ length hiddens' = length hiddens.
Proof.
  intros HK HL Hs Hw Hb Hva Hha Hnoise.
  destruct (build_gsn_given_hiddens_ok B ls weights_list bias_list
              add_noise noiseless_h1 input_sampling sigma p va ha
              HL Hw Hb Hva Hha Hnoise walkbacks cost_function X hiddens g HK Hs)
    as (c & rX & h' & g' & E & Eloop & Hc & Hl & _ & Hs').
  exists c, rX, h', g'. repeat (split; [done|]).
  by rewrite (shaped_length _ _ _ Hs), (shaped_length _ _ _ Hs').
Qed.

(** C9: at the visible layer ([i = 0]) the tensor appended to the chain is
    the visible activation of [dot(h1, W0.T) + b0], before sampling and
    before corruption; afterwards [h0] is replaced by the salt-and-pepper
    corruption of the (sampled or unsampled) activation, whatever
    [add_noise] is, [False] included. *)
Theorem visible_update_appends_then_corrupts
    hiddens weights_list bias_list chain
    add_noise noiseless_h1 sigma p input_sampling va ha g h1 w0 b0 d pre :
  hiddens !! 1 = Some h1 → weights_list !! 0 = Some w0 → bias_list !! 0 = Some b0 →
  dot h1 (transpose w0) = Ok d → badd d b0 = Ok pre →
  simple_update_layer hiddens weights_list bias_list (Some chain) 0
    add_noise noiseless_h1 sigma p input_sampling va ha g
  = (let rX := va pre in
     let sampled := if input_sampling then MRG_binomial rX g else (rX, g) in
     let corrupted := salt_and_pepper sampled.1 p sampled.2 in
     Ok ((<[0:=corrupted.1]> hiddens, Some (chain ++ [rX])), corrupted.2)).
Proof.
  intros Eh Ew Eb Ed Ev.
  assert (pre_activation hiddens weights_list bias_list 0 = Ok pre) as Epre.
  { unfold pre_activation. simpl. rewrite (getitem_Some _ _ _ Eh). simpl.
    rewrite (getitem_Some _ _ _ Ew). simpl. rewrite Ed. simpl.
    rewrite (getitem_Some _ _ _ Eb). simpl. done. }
  apply lookup_lt_Some in Eh.
  rewrite (simple_update_layer_eq _ _ _ _ _ _ _ _ _ _ _ _ _ pre Epre) by lia.
  simpl. by destruct input_sampling.
Qed.


(** C6 (as the code has it): with [noiseless_h1 = True] the update of the
    first hidden layer is the same computation on the same hidden state
    whether [add_noise] is [True] or [False], and it leaves the generator
    untouched.  (The [h1] of a whole build still differs with [add_noise],
    through the corrupted input and the noise on the layers above.) *)
Theorem noiseless_h1_update_ignores_add_noise
    hiddens weights_list bias_list p_X_chain sigma p input_sampling va ha g :
  simple_update_layer hiddens weights_list bias_list p_X_chain 1
    true true sigma p input_sampling va ha g
  = simple_update_layer hiddens weights_list bias_list p_X_chain 1
      false true sigma p input_sampling va ha g
  ∧ ∀ add_noise r g',
      simple_update_layer hiddens weights_list bias_list p_X_chain 1
        add_noise true sigma p input_sampling va ha g = Ok (r, g') →
      g' = g.
Proof.
  split; [done|]. intros add_noise [h' c'] g' E.
  destruct (pre_activation hiddens weights_list bias_list 1) as [v|e] eqn:Ev.
  2:{ unfold simple_update_layer in E. rewrite Ev in E. done. }
  pose proof (simple_update_layer_frame _ _ _ _ _ _ _ _ _ _ _ _ _ _ _ _ E) as (Hi & _).
  rewrite (simple_update_layer_eq _ _ _ _ _ _ _ _ _ _ _ _ _ v Ev Hi) in E.
  simpl in E. by injection E as _ _ <-.
Qed.

End UpdateFacts.

(** ** Which draws reach the chain *)

Section NoiseIrrelevant.
Context {R level MRG : Type} {HS : Scalar R}.
Variables N N' : Noise R level MRG.
Hypothesis Hsp : ∀ t q g, @salt_and_pepper _ _ _ N t q g = @salt_and_pepper _ _ _ N' t q g.

Lemma simple_update_layer_same_noise hiddens weights_list bias_list p_X_chain i
    noiseless_h1 sigma p va ha g :
  @simple_update_layer R level MRG HS N hiddens weights_list bias_list p_X_chain i
    false noiseless_h1 sigma p false va ha g
  = @simple_update_layer R level MRG HS N' hiddens weights_list bias_list p_X_chain i
      false noiseless_h1 sigma p false va ha g.
Proof.
  destruct (pre_activation hiddens weights_list bias_list i) as [v|e] eqn:Ev.
  2:{ unfold simple_update_layer. by rewrite Ev. }
  destruct (decide (i < length hiddens)) as [Hi|Hi].
  2:{ unfold simple_update_layer. rewrite Ev. simpl. unfold setitem.
      destruct (Nat.ltb_spec i (length hiddens)); [lia|done]. }
  rewrite !(simple_update_layer_eq _ _ _ _ _ _ _ _ _ _ _ _ _ v Ev Hi). cbv zeta.
  replace (if (i =? 1) && noiseless_h1 then false else false) with false
    by (by destruct ((i =? 1) && noiseless_h1)).
  rewrite andb_false_r. cbn [fst snd]. by rewrite Hsp.
Qed.

Lemma update_layers_same_noise hiddens weights_list bias_list p_X_chain
    noiseless_h1 sigma p va ha g :
  @update_layers R level MRG HS N hiddens weights_list bias_list p_X_chain
    false noiseless_h1 sigma p false va ha g
  = @update_layers R level MRG HS N' hiddens weights_list bias_list p_X_chain
      false noiseless_h1 sigma p false va ha g.
Proof.
  unfold update_layers, bind.
  assert (∀ h g0,
    @update_odd_layers R level MRG HS N h weights_list bias_list
      false noiseless_h1 sigma p false va ha g0
    = @update_odd_layers R level MRG HS N' h weights_list bias_list
        false noiseless_h1 sigma p false va ha g0) as ->.
  { intros h g0. unfold update_odd_layers. apply for_each_ext.
    intros i s g1. unfold bind. by rewrite simple_update_layer_same_noise. }
  destruct (update_odd_layers _ _ _ _ _ _ _ _ _ _ _) as [[h1 g1]|e]; [|done].
  unfold update_even_layers. apply for_each_ext.
  intros i s g2. apply simple_update_layer_same_noise.
Qed.

Lemma build_gsn_same_noise X weights_list bias_list noiseless_h1 sigma p va ha
    walkbacks g :
  @build_gsn R level MRG HS N X weights_list bias_list
    false noiseless_h1 sigma p false va ha walkbacks g
  = @build_gsn R level MRG HS N' X weights_list bias_list
      false noiseless_h1 sigma p false va ha walkbacks g.
Proof.
  unfold build_gsn, bind, ret. simpl.
  destruct (lift (init_hiddens X weights_list) g) as [[h0 g0]|e]; [|done].
  rewrite (for_each_ext _ _
             (λ _ st, @update_layers R level MRG HS N' st.1 weights_list bias_list st.2
                        false noiseless_h1 sigma p false va ha)); [done|].
  intros _ st g1. apply update_layers_same_noise.
Qed.

End NoiseIrrelevant.

(** C2 (as the code has it): with [add_noise = False] and
    [input_sampling = False], on parameters shaped after the layer sizes,
    the first entry of the reconstruction chain is the same for every state
    of the generator, and the whole result is the same whatever
    [add_gaussian] and [MRG.binomial] would draw: only the salt-and-pepper
    corruption of [h0], applied after every visible update, consumes draws. *)
Theorem build_gsn_noise_free_draws {R level MRG : Type} {HS : Scalar R}
    (N N' : Noise R level MRG) (L K B input_size hidden_size : nat)
    X weights_list bias_list noiseless_h1 sigma p va ha :
  1 ≤ L → 1 ≤ K →
  has_shape B input_size X →
  weights_ok (input_size :: replicate L hidden_size) weights_list →
  biases_ok (input_size :: replicate L hidden_size) bias_list →
  keeps_shape va → keeps_shape ha → @noise_keeps_shape R level MRG N →
  (∃ rX, ∀ g, ∃ chain hiddens g',
     @build_gsn R level MRG HS N X weights_list bias_list
       false noiseless_h1 sigma p false va ha K g
     = Ok ((Some chain, hiddens), g')
     ∧ head chain = Some rX)
  ∧ ((∀ t q g, @salt_and_pepper _ _ _ N t q g = @salt_and_pepper _ _ _ N' t q g) →
     ∀ g, @build_gsn R level MRG HS N X weights_list bias_list
            false noiseless_h1 sigma p false va ha K g
          = @build_gsn R level MRG HS N' X weights_list bias_list
              false noiseless_h1 sigma p false va ha K g).
Proof.
  intros HL HK HX Hw Hb Hva Hha Hn. split.
  - apply (@build_gsn_first_reconstruction R level MRG HS N B
             (input_size :: replicate L hidden_size) weights_list bias_list
             false noiseless_h1 false sigma p va ha); try done.
    + simpl. rewrite length_replicate. lia.
    + by intros n [= <-].
  - intros Hsp g. by apply build_gsn_same_noise.
Qed.

(** ** Packing and unpacking the hidden state *)

#[local] Arguments Nat.div : simpl never.
#[local] Arguments Nat.modulo : simpl never.

Lemma parity_S k : (S k mod 2 =? 0) = negb (k mod 2 =? 0).
Proof.
  pose proof (Nat.mod_upper_bound k 2). pose proof (Nat.mod_upper_bound (S k) 2).
  pose proof (Nat.Div0.div_mod k 2). pose proof (Nat.Div0.div_mod (S k) 2).
  destruct (Nat.eqb_spec (S k mod 2) 0), (Nat.eqb_spec (k mod 2) 0); simpl; lia.
Qed.

Lemma every_other_lookup {A} (l : list A) keep k :
  every_other keep l !! k = l !! (2 * k + (if keep then 0 else 1)).
Proof.
  revert keep k. induction l as [|x l IH]; intros keep k; [by destruct keep|].
  destruct keep; cbn [every_other negb].
  - destruct k as [|k]; [done|].
    replace (2 * S k + 0) with (S (2 * k + 1)) by lia. cbn [lookup list_lookup].
    apply IH.
  - replace (2 * k + 1) with (S (2 * k + 0)) by lia. cbn [lookup list_lookup].
    apply IH.
Qed.

Lemma every_other_length {A} (l : list A) keep :
  length (every_other keep l) = (length l + (if keep then 1 else 0)) / 2.
Proof.
  revert keep. induction l as [|x l IH]; intros keep; [by destruct keep|].
  destruct keep; cbn [every_other negb length]; rewrite IH.
  - replace (S (length l) + 1) with (length l + 0 + 1 * 2) by lia.
    rewrite Nat.div_add by done. lia.
  - f_equal. lia.
Qed.

Lemma every_other_Forall {A} (P : A → Prop) (l : list A) keep :
  Forall P l → Forall P (every_other keep l).
Proof.
  intros Hl. revert keep. induction Hl as [|x l Hx Hl IH]; intros keep; [done|].
  simpl. destruct keep; [constructor|]; auto.
Qed.

Lemma every_other_replicate {A} (x : A) n keep :
  every_other keep (replicate n x) = replicate ((n + (if keep then 1 else 0)) / 2) x.
Proof.
  symmetry. apply replicate_as_Forall_2.
  - by rewrite every_other_length, length_replicate.
  - apply every_other_Forall, Forall_replicate_eq.
Qed.

(** For the schedule the constructor builds, the odd layers are
    [ceil(layers / 2)] blocks of [hidden_size] columns. *)
Lemma odd_width_schedule (N L hs : nat) :
  odd_width ([N] ++ replicate L hs) = (L + 1) / 2 * hs.
Proof.
  unfold odd_width. cbn [app every_other negb].
  by rewrite every_other_replicate, sum_list_replicate.
Qed.

Section PackFacts.
Context {R level MRG : Type} `{Scalar R}.
Implicit Types (self : Self.t R level MRG) (t : tensor R).

Lemma pack_fold (l : list (tensor R)) k acc :
  foldl (λ output_list (il : nat * tensor R),
           if negb (il.1 mod 2 =? 0) then output_list ++ [il.2] else output_list)
    acc (zip (seq k (length l)) l)
  = acc ++ every_other (negb (k mod 2 =? 0)) l.
Proof.
  revert k acc. induction l as [|x l IH]; intros k acc.
  - simpl. by rewrite app_nil_r.
  - cbn [length seq zip zip_with foldl every_other fst snd].
    rewrite IH, parity_S. destruct (k mod 2 =? 0); cbn [negb]; [done|].
    by rewrite <- app_assoc.
Qed.

Lemma pack_hiddens_eq self (hiddens_list : list (tensor R)) :
  pack_hiddens self hiddens_list = concatenate (every_other false hiddens_list).
Proof.
  unfold pack_hiddens, enumerate. by rewrite pack_fold.
Qed.

Lemma block_width (a hs : nat) : (a + 1) * hs - a * hs = hs.
Proof. rewrite Nat.mul_add_distr_r. lia. Qed.

Lemma schedule_lookup_S (N L hs j : nat) :
  j < L → (N :: replicate L hs) !! S j = Some hs.
Proof. intros Hj. simpl. by apply lookup_replicate_2. Qed.

(** The list [unpack_hiddens] builds, entry by entry. *)
Lemma unpack_loop self B t ws k :
  well_formed self →
  has_shape B (odd_width (Self.layer_sizes self)) t →
  (Self.layers self + 1) / 2 * Self.hidden_size self ≤ odd_width (Self.layer_sizes self) →
  k + length ws = Self.layers self →
  (∀ i w, ws !! i = Some w → 1 ≤ k + i →
          has_shape (Self.hidden_size self) (Self.hidden_size self) w) →
  let g := λ idx,
    if negb (idx mod 2 =? 0) then zeros B (Self.hidden_size self)
    else slice_cols t (idx / 2 * Self.hidden_size self)
           ((idx / 2 + 1) * Self.hidden_size self) in
  rfor_each (zip (seq k (length ws)) ws)
    (λ (iw : nat * tensor R) h_list,
       let idx := iw.1 in
       let w := iw.2 in
       if negb (idx mod 2 =? 0) then
         h ← getlast h_list; d ← dot h w; Ok (h_list ++ [zeros_like d])
       else
         a ← getitem (Self.layer_sizes self) idx;
         b ← getitem (Self.layer_sizes self) (idx + 1);
         Ok (h_list ++ [transpose (getslice (transpose t)
                                     ((idx / 2) * a) ((idx / 2 + 1) * b))]))
    (zeros_like (Self.X self) :: (g <$> seq 0 k))
  = Ok (zeros_like (Self.X self) :: (g <$> seq 0 (Self.layers self))).
Proof.
  intros (HL & Hls & _ & _) Ht Hwide Hk Hw g.
  set (hs := Self.hidden_size self) in *. set (L := Self.layers self) in *.
  revert k Hk Hw. induction ws as [|w ws IH]; intros k Hk Hw.
  - simpl in *. by replace k with L by lia.
  - cbn [length] in Hk. cbn [length seq zip zip_with rfor_each fst snd].
    assert ((g <$> seq 0 k) ++ [g k] = g <$> seq 0 (S k)) as Hnext
      by (by rewrite seq_S, fmap_app).
    pose proof (IH (S k) ltac:(lia)
                  (λ i w' Ew' _, Hw (S i) w' Ew' ltac:(lia))) as Hrest.
    destruct (Nat.eqb_spec (k mod 2) 0) as [Hev|Hodd]; cbn [negb].
    + (* an odd layer: a block of columns of the packed tensor *)
      assert (∃ a, Self.layer_sizes self !! k = Some a ∧ k / 2 * a = k / 2 * hs)
        as (a & Ea & Hlo).
      { rewrite Hls. destruct k as [|k']; [by exists (Self.N_input self)|].
        exists hs. split; [|done]. apply schedule_lookup_S. lia. }
      assert (Self.layer_sizes self !! (k + 1) = Some hs) as Eb.
      { rewrite Hls. replace (k + 1) with (S k) by lia. apply schedule_lookup_S. lia. }
      rewrite (getitem_Some _ _ _ Ea). simpl. rewrite (getitem_Some _ _ _ Eb). simpl.
      rewrite Hlo, transpose_getslice_transpose by apply Ht.
      replace (slice_cols t (k / 2 * hs) ((k / 2 + 1) * hs)) with (g k)
        by (unfold g; by rewrite Hev).
      rewrite Hnext. exact Hrest.
    + (* an even layer: zeros of the shape the weight chain gives *)
      assert (1 ≤ k) as Hk1 by (destruct k; [done|lia]).
      assert (getlast (zeros_like (Self.X self) :: (g <$> seq 0 k)) = Ok (g (k - 1))) as ->.
      { replace k with (S (k - 1)) at 1 by lia. rewrite seq_S, fmap_app.
        rewrite app_comm_cons. apply getlast_snoc. }
      assert ((k - 1) mod 2 = 0) as Hev.
      { pose proof (Nat.Div0.div_mod (k - 1) 2). pose proof (Nat.Div0.div_mod k 2).
        pose proof (Nat.mod_upper_bound (k - 1) 2). pose proof (Nat.mod_upper_bound k 2).
        lia. }
      assert (has_shape B hs (g (k - 1))) as Hg.
      { unfold g. rewrite Hev. simpl.
        rewrite <- (block_width ((k - 1) / 2) hs) at 1.
        eapply slice_cols_shape; [exact Ht|].
        etrans; [|exact Hwide]. apply Nat.mul_le_mono_r.
        pose proof (Nat.Div0.div_mod (k - 1) 2). pose proof (Nat.Div0.div_mod (L + 1) 2).
        pose proof (Nat.mod_upper_bound (L + 1) 2). lia. }
      simpl.
      destruct (dot_shape _ _ _ _ _ Hg (Hw 0 w eq_refl ltac:(lia))) as (d & -> & Hd).
      simpl. rewrite (zeros_like_shape _ _ _ Hd).
      replace (zeros B hs) with (g k).
      2:{ unfold g. by destruct (Nat.eqb_spec (k mod 2) 0). }
      rewrite Hnext. exact Hrest.
Qed.

Lemma unpack_hiddens_eq self B t :
  well_formed self →
  has_shape B (odd_width (Self.layer_sizes self)) t →
  unpack_hiddens self t
  = Ok (zeros_like (Self.X self)
        :: ((λ idx,
               if negb (idx mod 2 =? 0) then zeros B (Self.hidden_size self)
               else slice_cols t (idx / 2 * Self.hidden_size self)
                      ((idx / 2 + 1) * Self.hidden_size self))
            <$> seq 0 (Self.layers self))).
Proof.
  intros Hwf Ht. pose proof Hwf as (HL & Hls & [Hlw Hw] & _).
  unfold unpack_hiddens, enumerate.
  assert (length (Self.weights_list self) = Self.layers self) as HlW.
  { rewrite Hls in Hlw. rewrite length_app, length_replicate in Hlw. simpl in Hlw. lia. }
  apply (unpack_loop self B t (Self.weights_list self) 0 Hwf Ht); [|done|].
  - by rewrite Hls, odd_width_schedule.
  - intros i w Ew Hi. simpl in Hi. destruct i as [|i]; [lia|].
    pose proof (lookup_lt_Some _ _ _ Ew) as Hlt.
    apply (Hw (S i) w); [done| |]; rewrite Hls.
    + apply schedule_lookup_S. lia.
    + replace (S i + 1) with (S (S i)) by lia. apply schedule_lookup_S. lia.
Qed.

(** Concatenating consecutive blocks of [hs] columns gives the block that
    spans them. *)
Lemma concatenate_blocks t (hs m k0 : nat) :
  wf t → (k0 + S m) * hs ≤ ncols t →
  concatenate ((λ k, slice_cols t (k * hs) ((k + 1) * hs)) <$> seq k0 (S m))
  = Ok (slice_cols t (k0 * hs) ((k0 + S m) * hs)).
Proof.
  intros Hwf. revert k0. induction m as [|m IH]; intros k0 Hle.
  - simpl. by replace (k0 + 1) with (k0 + 1) by lia.
  - rewrite <- cons_seq, fmap_cons.
    assert (∀ (x : tensor R) l, l ≠ [] →
              concatenate (x :: l) = rbind (concatenate l) (join x)) as Hc
      by (by intros x [|y l]).
    rewrite Hc by (by rewrite <- cons_seq).
    replace (k0 + S (S m)) with (S k0 + S m) in * by lia.
    rewrite IH by done. cbn [rbind].
    replace (S k0 * hs) with ((k0 + 1) * hs) by (f_equal; lia).
    apply join_slice_cols; [done| | |done]; apply Nat.mul_le_mono_r; lia.
Qed.

Lemma every_other_unpacked {A} (x0 : A) (g : nat → A) (L : nat) :
  every_other false (x0 :: (g <$> seq 0 L))
  = (λ k, g (2 * k)) <$> seq 0 ((L + 1) / 2).
Proof.
  cbn [every_other negb]. apply list_eq. intros k.
  rewrite every_other_lookup, !list_lookup_fmap.
  pose proof (Nat.Div0.div_mod (L + 1) 2). pose proof (Nat.mod_upper_bound (L + 1) 2).
  destruct (decide (k < (L + 1) / 2)) as [Hk|Hk].
  - rewrite !lookup_seq_lt by lia. simpl. do 2 f_equal. lia.
  - by rewrite !lookup_seq_ge by lia.
Qed.

(** C3: for a model as the constructor leaves it and a tensor [t] whose
    width is the sum of the widths of the odd-indexed layers,
    [unpack_hiddens] returns a hidden-state list and [pack_hiddens] of that
    list returns [t] itself. *)
Theorem pack_unpack_roundtrip self B t :
  well_formed self →
  has_shape B (odd_width (Self.layer_sizes self)) t →
  ∃ h_list, unpack_hiddens self t = Ok h_list ∧ pack_hiddens self h_list = Ok t.
Proof.
  intros Hwf Ht. pose proof Hwf as (HL & Hls & _ & _).
  eexists. split; [by apply (unpack_hiddens_eq self B t)|].
  rewrite pack_hiddens_eq, every_other_unpacked.
  set (hs := Self.hidden_size self). set (L := Self.layers self) in *.
  assert (ncols t = (L + 1) / 2 * hs) as Hc.
  { destruct Ht as (_ & -> & _). by rewrite Hls, odd_width_schedule. }
  destruct ((L + 1) / 2) as [|m] eqn:Em.
  { pose proof (Nat.Div0.div_mod (L + 1) 2). pose proof (Nat.mod_upper_bound (L + 1) 2).
    lia. }
  rewrite (list_fmap_ext _ (λ k, slice_cols t (k * hs) ((k + 1) * hs)) (seq 0 (S m))).
  - rewrite concatenate_blocks; [|apply Ht|simpl in *; lia].
    replace (0 * hs) with 0 by lia. replace (0 + S m) with (S m) by lia.
    rewrite <- Hc. f_equal. apply slice_cols_all, Ht.
  - intros _ k _. cbv beta.
    replace ((2 * k) mod 2) with 0 by (by rewrite Nat.mul_comm, Nat.Div0.mod_mul).
    cbn [Nat.eqb negb]. replace (2 * k / 2) with k; [done|].
    by rewrite Nat.mul_comm, Nat.div_mul.
Qed.

(** Concatenating tensors of one shape, and slicing the blocks back out. *)
Lemma concatenate_uniform (l : list (tensor R)) B hs :
  l ≠ [] → Forall (has_shape B hs) l →
  ∃ T, concatenate l = Ok T ∧ has_shape B (length l * hs) T
       ∧ ∀ k x, l !! k = Some x → slice_cols T (k * hs) ((k + 1) * hs) = x.
Proof.
  intros Hne Hl. induction Hl as [|x l Hx Hl IH]; [done|].
  destruct l as [|y l'].
  - exists x. split; [done|]. split; [by rewrite Nat.mul_1_l|].
    intros [|k] x' [= <-]. rewrite Nat.mul_0_l, Nat.add_0_l, Nat.mul_1_l.
    destruct Hx as (_ & <- & Hwf). by apply slice_cols_all.
  - destruct IH as (T' & ET' & HT' & Hsl); [done|].
    destruct (join_shape _ _ _ _ _ Hx HT') as (j & Ej & Hj & Hj0 & Hjr).
    exists j. split; [|split].
    + change (rbind (concatenate (y :: l')) (join x) = Ok j). by rewrite ET'.
    + exact Hj.
    + intros [|k] x' Ex'.
      * injection Ex' as <-. by rewrite Nat.mul_0_l, Nat.add_0_l, Nat.mul_1_l.
      * replace (S k * hs) with (hs + k * hs) by lia.
        replace ((S k + 1) * hs) with (hs + (k + 1) * hs) by lia.
        rewrite Hjr. by apply Hsl.
Qed.

(** C5: for a model as the constructor leaves it and a hidden-state list
    [h] shaped after the layer sizes, [pack_hiddens] returns a tensor and
    [unpack_hiddens] of that tensor returns a list of the same length whose
    odd-indexed entries are those of [h], whose entry 0 is a zero tensor of
    the shape of the model input, and whose other even-indexed entries are
    zero tensors of the shape the weight chain gives. *)
Theorem unpack_pack_keeps_odd_layers self B (h : list (tensor R)) :
  well_formed self →
  shaped B (Self.layer_sizes self) h →
  ∃ packed h',
    pack_hiddens self h = Ok packed
    ∧ unpack_hiddens self packed = Ok h'
    ∧ length h' = length h
    ∧ (∀ i, i mod 2 = 1 → h' !! i = h !! i)
    ∧ h' !! 0 = Some (zeros_like (Self.X self))
    ∧ (∀ i n, i mod 2 = 0 → 0 < i → Self.layer_sizes self !! i = Some n →
              h' !! i = Some (zeros B n)).
Proof.
  intros Hwf Hs. pose proof Hwf as (HL & Hls & _ & _).
  set (hs := Self.hidden_size self) in *. set (L := Self.layers self) in *.
  pose proof (shaped_length _ _ _ Hs) as Hlen.
  rewrite Hls, length_app, length_replicate in Hlen. simpl in Hlen.
  pose proof (Nat.Div0.div_mod (L + 1) 2) as HLd.
  pose proof (Nat.mod_upper_bound (L + 1) 2 ltac:(done)) as HLm.
  assert (Forall (has_shape B hs) (every_other false h)) as Hodd.
  { unfold shaped in Hs. rewrite Hls in Hs. simpl in Hs.
    destruct h as [|h0 rest]; [done|]. apply Forall2_cons_1 in Hs as [_ Hs].
    cbn [every_other negb]. apply every_other_Forall.
    apply Forall_lookup. intros i x Hx.
    destruct (Forall2_lookup_l _ _ _ _ _ Hs Hx) as (n & Hn & Hxn).
    apply lookup_replicate in Hn as [-> _]. done. }
  assert (length (every_other false h) = (L + 1) / 2) as Hlo.
  { rewrite every_other_length, Hlen. f_equal. lia. }
  destruct (concatenate_uniform (every_other false h) B hs) as (T & ET & HT & Hsl);
    [|done|].
  { intros E. rewrite E in Hlo. simpl in Hlo. lia. }
  rewrite Hlo in HT.
  assert (has_shape B (odd_width (Self.layer_sizes self)) T) as HT'
    by (by rewrite Hls, odd_width_schedule).
  pose proof (unpack_hiddens_eq self B T Hwf HT') as EU. fold hs L in EU.
  set (g := λ idx : nat,
         if negb (idx mod 2 =? 0) then zeros B hs
         else slice_cols T (idx / 2 * hs) ((idx / 2 + 1) * hs)) in EU.
  exists T, (zeros_like (Self.X self) :: (g <$> seq 0 L)).
  split; [by rewrite pack_hiddens_eq|]. split; [done|].
  split; [|split; [|split]].
  - simpl. rewrite length_fmap, length_seq. lia.
  - intros [|idx] Hi; [done|].
    change ((g <$> seq 0 L) !! idx = h !! S idx).
    assert (idx mod 2 = 0) as Hev.
    { pose proof (Nat.Div0.div_mod idx 2). pose proof (Nat.Div0.div_mod (S idx) 2).
      pose proof (Nat.mod_upper_bound idx 2). lia. }
    rewrite list_lookup_fmap.
    destruct (decide (idx < L)) as [Hlt|Hge].
    + rewrite lookup_seq_lt by done. simpl. unfold g. rewrite Hev. simpl.
      destruct (lookup_lt_is_Some_2 h (S idx)) as [x Hx]; [lia|].
      rewrite Hx. f_equal. apply Hsl. rewrite every_other_lookup, <- Hx. f_equal.
      pose proof (Nat.Div0.div_mod idx 2). lia.
    + rewrite lookup_seq_ge by lia. simpl. symmetry. apply lookup_ge_None_2. lia.
  - done.
  - intros [|idx] n Hi Hpos Hn; [lia|].
    change ((g <$> seq 0 L) !! idx = Some (zeros B n)).
    rewrite Hls in Hn. simpl in Hn. apply lookup_replicate in Hn as [-> Hlt].
    rewrite list_lookup_fmap, lookup_seq_lt by done. simpl. unfold g.
    assert (idx mod 2 ≠ 0) as Hodd'.
    { pose proof (Nat.Div0.div_mod idx 2). pose proof (Nat.Div0.div_mod (S idx) 2).
      pose proof (Nat.mod_upper_bound idx 2). lia. }
    by destruct (Nat.eqb_spec (idx mod 2) 0).
Qed.

End PackFacts.

(** ** The model object: construction and usage order *)

Lemma string_get_lt (s : string) (n : nat) :
  n < String.length s → ∃ c, String.get n s = Some c.
Proof.
  revert n. induction s as [|a s IH]; intros n Hn; simpl in *; [lia|].
  destruct n as [|n]; [by eexists|]. apply IH. lia.
Qed.

Lemma last_char_nonempty (s : string) : s ≠ ""%string → ∃ c, last_char s = Ok c.
Proof.
  intros Hs. unfold last_char.
  destruct (string_get_lt s (String.length s - 1)) as [c ->]; [|by eexists].
  destruct s; [done|]. simpl. lia.
Qed.

Lemma comprehension_ok {A B} (P : A → B → Prop) (f : A → result B) (l : list A) :
  (∀ x, x ∈ l → ∃ y, f x = Ok y ∧ P x y) →
  ∃ ys, comprehension f l = Ok ys ∧ Forall2 P l ys.
Proof.
  induction l as [|x l IH]; intros Hf.
  - exists []. by split.
  - destruct (Hf x) as (y & Ey & Hy); [left|].
    destruct IH as (ys & Eys & Hys).
    { intros z Hz. apply Hf. by right. }
    exists (y :: ys). simpl. rewrite Ey. simpl. rewrite Eys. simpl.
    split; [done|]. by constructor.
Qed.

Lemma comprehension_inv {A B} (P : A → B → Prop) (f : A → result B) (l : list A) ys :
  (∀ x y, x ∈ l → f x = Ok y → P x y) →
  comprehension f l = Ok ys → Forall2 P l ys.
Proof.
  revert ys. induction l as [|x l IH]; intros ys Hf E; simpl in E.
  - injection E as <-. constructor.
  - destruct (f x) as [y|e] eqn:Ey; [|done]. simpl in E.
    destruct (comprehension f l) as [ys'|e] eqn:Eys; [|done]. simpl in E.
    injection E as <-. constructor.
    + apply Hf; [left|done].
    + apply IH; [|done]. intros z w Hz. apply Hf. by right.
Qed.

Lemma lbind_Ok {A B} (m : L A) (k : A → L B) a l :
  m = (Ok a, l) → lbind m k = ((k a).1, l ++ (k a).2).
Proof. intros ->. simpl. by destruct (k a). Qed.

Lemma lbind_lret {A B} (a : A) (k : A → L B) : lbind (lret a) k = k a.
Proof. unfold lbind, lret. by destruct (k a). Qed.

Lemma lbind_llift_Ok {A B} (a : A) (k : A → L B) : lbind (llift (Ok a)) k = k a.
Proof. apply (lbind_lret a k). Qed.

Lemma resolved_lret {F} (registry : string → result F) a f (bad : L F) :
  resolved registry a f →
  match a with
  | Callable f' => lret f'
  | Name s => llift (registry s)
  | Neither => bad
  end = lret f.
Proof. destruct a; simpl; [by intros ->|by intros ->|done]. Qed.

Lemma input_dimension_lret {R level} (args : Args.t R level)
    (inputs_hook : option (nat * tensor R)) dataset N (bad : L nat) :
  input_dimension args inputs_hook dataset = Some N →
  match inputs_hook with
  | None =>
      match dataset with
      | None =>
          match Args.input_size args with
          | None => bad
          | Some n => lret n
          end
      | Some d => lret (get_example_shape d)
      end
  | Some hook => lret hook.1
  end = lret N.
Proof.
  unfold input_dimension. destruct inputs_hook; [by intros [= ->]|].
  destruct dataset; [by intros [= ->]|]. by intros ->.
Qed.

Lemma comprehension_fmap {A B} (f : A → result B) (g : A → B) (l : list A) :
  (∀ x, x ∈ l → f x = Ok (g x)) → comprehension f l = Ok (g <$> l).
Proof.
  induction l as [|x l IH]; intros Hf; [done|].
  simpl. rewrite Hf by left. simpl. rewrite IH; [done|].
  intros y Hy. apply Hf. by right.
Qed.

Lemma walkbacks_warning (layers walkbacks : nat) :
  (if layers mod 2 =? 0 then
     if walkbacks <? 2 * layers
     then log WARNING not_enough_walkbacks [layers; walkbacks]
     else lret tt
   else
     if walkbacks <? 2 * layers - 1
     then log WARNING not_enough_walkbacks [layers; walkbacks]
     else lret tt)
  = (Ok tt,
     if walkbacks <? recommended_walkbacks layers
     then [{| level_of := WARNING; msg := not_enough_walkbacks;
              args := [layers; walkbacks] |}]
     else []).
Proof.
  unfold recommended_walkbacks.
  destruct (layers mod 2 =? 0); by destruct (walkbacks <? _).
Qed.

Section ModelFacts.
Context {R level MRG : Type} `{Scalar R} `{Noise R level MRG} `{Utils R}.
Implicit Types (self : Self.t R level MRG) (t : tensor R).

Lemma unpack_hiddens_shaped self B t :
  well_formed self →
  has_shape B (Self.N_input self) (Self.X self) →
  has_shape B (odd_width (Self.layer_sizes self)) t →
  ∃ h, unpack_hiddens self t = Ok h ∧ shaped B (Self.layer_sizes self) h.
Proof.
  intros Hwf HX Ht. pose proof Hwf as (HL & Hls & _ & _).
  eexists. split; [by apply (unpack_hiddens_eq self B t)|].
  unfold shaped. rewrite Hls. simpl. constructor.
  { rewrite (zeros_like_shape _ _ _ HX). apply zeros_shape. }
  apply Forall2_same_length_lookup_2.
  { by rewrite length_fmap, length_seq, length_replicate. }
  intros i x n Hx Hn. apply lookup_replicate in Hn as [-> Hi].
  rewrite list_lookup_fmap, lookup_seq_lt in Hx by done. simpl in Hx.
  injection Hx as <-.
  destruct (negb (i mod 2 =? 0)) eqn:Hpar; [apply zeros_shape|].
  rewrite <- (block_width (i / 2) (Self.hidden_size self)) at 1.
  eapply slice_cols_shape; [exact Ht|].
  rewrite Hls, odd_width_schedule. apply Nat.mul_le_mono_r.
  apply negb_false_iff, Nat.eqb_eq in Hpar.
  pose proof (Nat.Div0.div_mod i 2).
  pose proof (Nat.Div0.div_mod (Self.layers self + 1) 2).
  pose proof (Nat.mod_upper_bound (Self.layers self + 1) 2). lia.
Qed.

Lemma getlast_fmap_Some {A B} (f : A → B) (l : list A) x :
  last l = Some x → getlast (f <$> l) = Ok (f x).
Proof. intros E. unfold getlast. by rewrite fmap_last, E. Qed.

Lemma last_of_length {A} (l : list A) : 1 ≤ length l → ∃ x, last l = Some x.
Proof.
  intros Hl. destruct (last l) as [x|] eqn:E; [by eexists|].
  apply last_None in E. subst l. simpl in Hl. lia.
Qed.

(** On a well-formed model and a well-shaped input the graphs build. *)
Lemma build_computation_graph_ok self hiddens_hook B :
  well_formed self → 1 ≤ Self.walkbacks self →
  has_shape B (Self.N_input self) (Self.X self) →
  keeps_shape (Self.visible_activation self) →
  keeps_shape (Self.hidden_activation self) →
  noise_keeps_shape →
  (∀ hook : nat * tensor R, hiddens_hook = Some hook →
     has_shape B (odd_width (Self.layer_sizes self)) hook.2) →
  ∃ g show_cost cost monitor output hiddens f_predict,
    build_computation_graph self hiddens_hook
    = Ok (set_graph self g show_cost cost monitor output hiddens f_predict)
    ∧ (hiddens_hook = None → is_Some f_predict).
Proof.
  intros Hwf HK HX Hva Hha Hnoise Hhook.
  pose proof Hwf as (HL & Hls & Hw & Hb).
  assert (1 < length (Self.layer_sizes self)) as Hlen.
  { rewrite Hls, length_app, length_replicate. simpl. lia. }
  assert (∀ n, Self.layer_sizes self !! 0 = Some n →
               has_shape B n (Self.X self)) as HX'.
  { intros n Hn. rewrite Hls in Hn. by injection Hn as <-. }
  unfold build_computation_graph. destruct hiddens_hook as [hook|].
  - (* generation from the hooked hidden state *)
    destruct (unpack_hiddens_shaped self B hook.2 Hwf HX (Hhook hook eq_refl))
      as (h0 & Eh0 & Hs0).
    destruct (build_gsn_given_hiddens_ok B (Self.layer_sizes self)
                (Self.weights_list self) (Self.bias_list self)
                true (Self.noiseless_h1 self) (Self.input_sampling self)
                (Self.hidden_add_noise_sigma self) (Self.input_salt_and_pepper self)
                (Self.visible_activation self) (Self.hidden_activation self)
                Hlen Hw Hb Hva Hha Hnoise (Self.walkbacks self)
                (Self.cost_function self) (Self.X self) h0 (Self.MRG self) HK Hs0)
      as (c1 & r1 & h1 & g1 & E1 & _ & Hc1 & Hl1 & _).
    destruct (build_gsn_given_hiddens_ok B (Self.layer_sizes self)
                (Self.weights_list self) (Self.bias_list self)
                false (Self.noiseless_h1 self) (Self.input_sampling self)
                (Self.hidden_add_noise_sigma self) (Self.input_salt_and_pepper self)
                (Self.visible_activation self) (Self.hidden_activation self)
                Hlen Hw Hb Hva Hha Hnoise (Self.walkbacks self)
                (Self.cost_function self) (Self.X self) h0 g1 HK Hs0)
      as (c2 & r2 & h2 & g2 & E2 & _ & Hc2 & Hl2 & _).
    unfold bind, lift, ret. rewrite Eh0, E1. cbn [fst snd]. rewrite E2.
    cbn [fst snd iter].
    rewrite (getlast_fmap_Some _ _ _ Hl1), (getlast_fmap_Some _ _ _ Hl2).
    unfold getlast. rewrite Hl2.
    eexists _, _, _, _, _, _, _. split; [done|]. done.
  - (* from the input alone *)
    destruct (build_gsn_ok B (Self.layer_sizes self)
                (Self.weights_list self) (Self.bias_list self)
                true (Self.noiseless_h1 self) (Self.input_sampling self)
                (Self.hidden_add_noise_sigma self) (Self.input_salt_and_pepper self)
                (Self.visible_activation self) (Self.hidden_activation self)
                Hlen Hw Hb Hva Hha Hnoise (Self.walkbacks self)
                (Self.X self) (Self.MRG self) HX')
      as (c1 & h1 & g1 & E1 & Hc1 & _).
    destruct (build_gsn_ok B (Self.layer_sizes self)
                (Self.weights_list self) (Self.bias_list self)
                false (Self.noiseless_h1 self) (Self.input_sampling self)
                (Self.hidden_add_noise_sigma self) (Self.input_salt_and_pepper self)
                (Self.visible_activation self) (Self.hidden_activation self)
                Hlen Hw Hb Hva Hha Hnoise (Self.walkbacks self)
                (Self.X self) g1 HX')
      as (c2 & h2 & g2 & E2 & Hc2 & _).
    destruct (last_of_length c1) as [r1 Hl1]; [lia|].
    destruct (last_of_length c2) as [r2 Hl2]; [lia|].
    unfold bind, lift, ret. rewrite E1. cbn [fst snd]. rewrite E2.
    cbn [fst snd iter].
    rewrite (getlast_fmap_Some _ _ _ Hl1), (getlast_fmap_Some _ _ _ Hl2).
    unfold getlast. rewrite Hl2.
    eexists _, _, _, _, _, _, _. split; [done|]. by eexists.
Qed.

Lemma initial_model_well_formed (args : Args.t R level) outdir N ha va cf X :
  initialisers_ok → 1 ≤ Args.layers args →
  well_formed (initial_model (MRG:=MRG) args outdir N ha va cf X).
Proof.
  intros [HW Hbias] HL. unfold well_formed, initial_model.
  cbn [Self.layers Self.layer_sizes Self.weights_list Self.bias_list
       Self.N_input Self.hidden_size].
  set (L := Args.layers args) in *. set (hs := Args.hidden_size args).
  split; [done|]. split; [done|].
  assert (length ([N] ++ replicate L hs) = S L) as Hlen
    by (rewrite length_app, length_replicate; simpl; lia).
  set (ls := [N] ++ replicate L hs) in *.
  split; [split|].
  - rewrite length_fmap, length_seq. lia.
  - intros i w a b Ew Ea Eb.
    apply list_lookup_fmap_Some in Ew as (k & -> & Ek).
    apply lookup_seq in Ek as [-> _]. rewrite Nat.add_0_l.
    rewrite (nth_lookup_Some _ _ _ _ Ea), (nth_lookup_Some _ _ _ _ Eb). apply HW.
  - apply Forall2_same_length_lookup_2.
    { rewrite length_fmap, length_seq. lia. }
    intros i b n Eb En.
    apply list_lookup_fmap_Some in Eb as (k & -> & Ek).
    apply lookup_seq in Ek as [-> _]. rewrite Nat.add_0_l.
    rewrite (nth_lookup_Some _ _ _ _ En). apply Hbias.
Qed.

(** What the constructor returns on a valid configuration. *)
Lemma init_ok (args : Args.t R level) inputs_hook hiddens_hook dataset X_value
    B N ha va cf :
  Args.output_path args ≠ ""%string →
  input_dimension args inputs_hook dataset = Some N →
  resolved get_activation_function (Args.hidden_activation args) ha →
  resolved get_activation_function (Args.visible_activation args) va →
  resolved get_cost_function (Args.cost_function args) cf →
  keeps_shape ha → keeps_shape va → noise_keeps_shape → initialisers_ok →
  1 ≤ Args.layers args → 1 ≤ Args.walkbacks args →
  has_shape B N (model_input inputs_hook X_value) →
  (∀ hook : nat * tensor R, hiddens_hook = Some hook →
     has_shape B
       (odd_width ([N] ++ replicate (Args.layers args) (Args.hidden_size args)))
       hook.2) →
  ∃ outdir g show_cost cost monitor output hiddens f_predict,
    __init__ args inputs_hook hiddens_hook dataset X_value
    = (Ok (set_graph
             (initial_model args outdir N ha va cf (model_input inputs_hook X_value))
             g show_cost cost monitor output hiddens f_predict),
       if Args.walkbacks args <? recommended_walkbacks (Args.layers args)
       then [{| level_of := WARNING; msg := not_enough_walkbacks;
                args := [Args.layers args; Args.walkbacks args] |}]
       else [])
    ∧ (hiddens_hook = None → is_Some f_predict).
Proof.
  intros Hpath Hdim Hha Hva Hcf Hkha Hkva Hnoise Hinit HL HK HX Hhook.
  destruct (last_char_nonempty _ Hpath) as [c Ec].
  set (outdir := if Ascii.eqb c "/"%char then Args.output_path args
                 else String.append (Args.output_path args) "/"%string).
  pose proof (initial_model_well_formed args outdir N ha va cf
                (model_input inputs_hook X_value) Hinit HL) as Hwf.
  destruct (build_computation_graph_ok
              (initial_model args outdir N ha va cf (model_input inputs_hook X_value))
              hiddens_hook B Hwf HK HX Hkva Hkha Hnoise Hhook)
    as (g & sc & co & mo & o & h & fp & Eg & Hfp).
  exists outdir, g, sc, co, mo, o, h, fp. split; [|done].
  unfold __init__. rewrite Ec. cbn [mbind result_bind rbind].
  rewrite lbind_llift_Ok. fold outdir.
  rewrite (input_dimension_lret _ _ _ _ _ Hdim), lbind_lret.
  rewrite walkbacks_warning.
  rewrite (resolved_lret _ _ _ _ Hha), lbind_lret.
  rewrite (resolved_lret _ _ _ _ Hva), lbind_lret.
  rewrite (resolved_lret _ _ _ _ Hcf), lbind_lret.
  set (ls := [N] ++ replicate (Args.layers args) (Args.hidden_size args)).
  rewrite (comprehension_fmap _
             (λ i, get_weights_uniform (nth i ls 0, nth (i + 1) ls 0) i)).
  2:{ intros i Hi. apply elem_of_seq in Hi.
      destruct (lookup_lt_is_Some_2 ls i) as [a Ea].
      { unfold ls. rewrite length_app, length_replicate. simpl. lia. }
      destruct (lookup_lt_is_Some_2 ls (i + 1)) as [b Eb].
      { unfold ls. rewrite length_app, length_replicate. simpl. lia. }
      rewrite (getitem_Some _ _ _ Ea). cbn [mbind result_bind rbind].
      rewrite (getitem_Some _ _ _ Eb). cbn [mbind result_bind rbind].
      by rewrite (nth_lookup_Some _ _ _ _ Ea), (nth_lookup_Some _ _ _ _ Eb). }
  rewrite lbind_llift_Ok.
  rewrite (comprehension_fmap _ (λ i, get_bias (nth i ls 0))).
  2:{ intros i Hi. apply elem_of_seq in Hi.
      destruct (lookup_lt_is_Some_2 ls i) as [a Ea].
      { unfold ls. rewrite length_app, length_replicate. simpl. lia. }
      rewrite (getitem_Some _ _ _ Ea). cbn [mbind result_bind rbind].
      by rewrite (nth_lookup_Some _ _ _ _ Ea). }
  rewrite lbind_llift_Ok.
  unfold initial_model in Eg. fold ls in Eg. unfold model_input in Eg.
  rewrite Eg. unfold lbind, llift.
  by rewrite app_nil_r.
Qed.


(** C7 (as the code has it): [predict], [get_hiddens] and [get_outputs]
    raise NotImplementedError while the attribute they need is not there.
    The constructor raises AssertionError, a different exception, when the
    input dimensionality is missing; for a missing activation or cost
    function it raises NotImplementedError, the same exception as the
    usage-order errors. *)
Theorem usage_order_and_configuration_errors :
  (∀ (self : Self.t R level MRG) input g,
     Self.f_predict self = None →
     error_of (predict self input g) = Some NotImplementedError)
  ∧ (∀ self : Self.t R level MRG,
       Self.hiddens self = None →
       error_of (get_hiddens self) = Some NotImplementedError)
  ∧ (∀ self : Self.t R level MRG,
       Self.output self = None →
       error_of (get_outputs self) = Some NotImplementedError)
  ∧ (∀ (args : Args.t R level) inputs_hook hiddens_hook dataset X_value,
       Args.output_path args ≠ ""%string →
       input_dimension args inputs_hook dataset = None →
       error_of (__init__ (MRG:=MRG) args inputs_hook hiddens_hook dataset X_value)
       = Some AssertionError)
  ∧ (∀ (args : Args.t R level) inputs_hook hiddens_hook dataset X_value N,
       Args.output_path args ≠ ""%string →
       input_dimension args inputs_hook dataset = Some N →
       missing_function args →
       error_of (__init__ (MRG:=MRG) args inputs_hook hiddens_hook dataset X_value)
       = Some NotImplementedError)
  ∧ AssertionError ≠ NotImplementedError.
Proof.
  split; [|split; [|split; [|split; [|split]]]].
  - intros self input g E. unfold predict. by rewrite E.
  - intros self E. unfold get_hiddens. by rewrite E.
  - intros self E. unfold get_outputs. by rewrite E.
  - intros args inputs_hook hiddens_hook dataset X_value Hpath Hdim.
    destruct (last_char_nonempty _ Hpath) as [c Ec].
    unfold __init__. rewrite Ec. cbn [mbind result_bind rbind].
    rewrite lbind_llift_Ok. unfold input_dimension in Hdim.
    destruct inputs_hook; [done|]. destruct dataset; [done|]. by rewrite Hdim.
  - intros args inputs_hook hiddens_hook dataset X_value N Hpath Hdim Hmiss.
    destruct (last_char_nonempty _ Hpath) as [c Ec].
    unfold __init__. rewrite Ec. cbn [mbind result_bind rbind].
    rewrite lbind_llift_Ok.
    rewrite (input_dimension_lret _ _ _ _ _ Hdim), lbind_lret.
    rewrite walkbacks_warning.
    destruct Hmiss as [Eh | [[ha Hha] [Ev | [[va Hva] Ec']]]].
    + rewrite Eh. unfold lbind, error_of. simpl. done.
    + rewrite (resolved_lret _ _ _ _ Hha), Ev. unfold lbind, error_of. simpl. done.
    + rewrite (resolved_lret _ _ _ _ Hha), lbind_lret.
      rewrite (resolved_lret _ _ _ _ Hva), Ec'. unfold lbind, error_of. simpl. done.
  - done.
Qed.

End ModelFacts.

(** ** The rational instance meets the assumptions *)

Section RationalFacts.
Import Rational.

Lemma next_row_length f row g : length (next_row f row g).1 = length row.
Proof.
  revert g. induction row as [|x row IH]; intros g; [done|].
  simpl. destruct (next g) as [u g1]. specialize (IH g1).
  destruct (next_row f row g1) as [ys g2]. simpl in *. by rewrite IH.
Qed.

Lemma next_rows_lengths f rs g :
  Forall2 (λ r r', length r' = length r) rs (next_rows f rs g).1.
Proof.
  revert g. induction rs as [|r rs IH]; intros g; [constructor|].
  simpl. pose proof (next_row_length f r g) as Hr.
  destruct (next_row f r g) as [r1 g1]. specialize (IH g1).
  destruct (next_rows f rs g1) as [rs1 g2]. simpl in *. by constructor.
Qed.

Lemma entrywise_rows f (t : tensor Q) g :
  ncols (entrywise f t g).1 = ncols t
  ∧ Forall2 (λ r r', length r' = length r) (rows t) (rows (entrywise f t g).1).
Proof.
  unfold entrywise. pose proof (next_rows_lengths f (rows t) g) as Hl.
  by destruct (next_rows f (rows t) g) as [rs g'].
Qed.

Lemma entrywise_shape f g : keeps_shape (λ t, (entrywise f t g).1).
Proof.
  intros r c t (Hr & Hc & Hw). destruct (entrywise_rows f t g) as [Hc' Hl].
  unfold has_shape, nrows, wf in *. rewrite Hc', <- (Forall2_length _ _ _ Hl).
  split; [done|]. split; [done|].
  apply Forall_lookup. intros i r' Hr'.
  destruct (Forall2_lookup_r _ _ _ _ _ Hl Hr') as (x & Hx & Hlen).
  rewrite Hlen. rewrite Forall_lookup in Hw. by eapply Hw.
Qed.

Lemma salt_and_pepper_Q_shape p g : keeps_shape (λ t, (salt_and_pepper_Q t p g).1).
Proof.
  intros r c t (Hr & Hc & Hw). unfold salt_and_pepper_Q.
  destruct (entrywise_rows (λ _ u, bernoulli (1 - p) u) t g) as [_ Ha].
  destruct (entrywise (λ _ u, bernoulli (1 - p) u) t g) as [a g1].
  destruct (entrywise_rows (λ _ u, bernoulli (1 # 2) u) t g1) as [_ Hb].
  destruct (entrywise (λ _ u, bernoulli (1 # 2) u) t g1) as [b g2].
  unfold has_shape, nrows, wf in *. simpl in *.
  pose proof (Forall2_length _ _ _ Ha) as Hla.
  pose proof (Forall2_length _ _ _ Hb) as Hlb.
  rewrite !length_zip_with. split; [lia|]. split; [done|].
  apply Forall_lookup. intros i x Hx.
  apply lookup_zip_with_Some in Hx as (y & z & -> & Hy & Hz).
  apply lookup_zip_with_Some in Hz as (ra & rb & -> & Hra & Hrb).
  pose proof (Forall2_lookup_lr _ _ _ _ _ _ Ha Hy Hra) as Hlra.
  pose proof (Forall2_lookup_lr _ _ _ _ _ _ Hb Hy Hrb) as Hlrb.
  simpl in Hlra, Hlrb. rewrite length_zip_with, length_zip_with.
  rewrite Forall_lookup in Hw. specialize (Hw _ _ Hy). lia.
Qed.

Lemma tape_noise_keeps_shape : noise_keeps_shape (R:=Q) (level:=Q) (MRG:=tape).
Proof.
  split; [|split].
  - intros p g. apply salt_and_pepper_Q_shape.
  - intros s g. apply (entrywise_shape (λ x u, Qred (x + s * u)) g).
  - intros g. apply (entrywise_shape bernoulli g).
Qed.

Lemma linear_keeps_shape : keeps_shape linear.
Proof. by intros r c t. Qed.

Lemma Q_initialisers_ok : initialisers_ok (R:=Q).
Proof.
  split.
  - intros a b i. simpl. unfold has_shape, nrows, wf. simpl.
    rewrite length_replicate. split; [done|]. split; [done|].
    apply Forall_replicate. by rewrite length_replicate.
  - intros n. simpl. by rewrite length_replicate.
Qed.

End RationalFacts.

(** ** The theorems at explicit inputs *)

Section Instances.
Import Rational Examples.
Local Open Scope Q_scope.

Ltac shape := unfold has_shape, nrows, wf; simpl; repeat split; repeat constructor.

Ltac weights :=
  split; [reflexivity|];
  let i := fresh "i" in
  let Hw := fresh "Hw" in let Ha := fresh "Ha" in let Hb := fresh "Hb" in
  intros i ? ? ? Hw Ha Hb;
  destruct i as [|[|[|i]]]; simpl in Hw, Ha, Hb; try discriminate;
  injection Hw as <-; injection Ha as <-; injection Hb as <-; shape.

Lemma W1_ok : weights_ok [1; 1]%nat W1.
Proof. weights. Defined.

Lemma b1_ok : biases_ok [1; 1]%nat b1.
Proof. repeat constructor. Defined.

Lemma W2_ok : weights_ok [3; 2; 2]%nat W2.
Proof. weights. Defined.

Lemma b2_ok : biases_ok [3; 2; 2]%nat b2.
Proof. repeat constructor. Defined.

Lemma h2_shaped : shaped 2 [3; 2; 2]%nat h2.
Proof. repeat constructor. Defined.

Lemma build_gsn_chain_and_shapes_witness :
  ∃ chain hiddens g',
    build_gsn X2 W2 b2 true true 2 (2 # 5) true linear linear 3 (lcg 64 1)
    = Ok ((Some chain, hiddens), g')
    ∧ length chain = 3%nat
    ∧ Forall (has_shape 2 3) chain
    ∧ length hiddens = (2 + 1)%nat
    ∧ shaped 2 (3 :: replicate 2 2)%nat hiddens.
Proof.
  apply (build_gsn_chain_and_shapes 2 3 2 3 2 X2 W2 b2);
    [lia | reflexivity | reflexivity | shape | exact W2_ok | exact b2_ok
    | exact linear_keeps_shape | exact linear_keeps_shape
    | exact tape_noise_keeps_shape].
Defined.
Lemma unbuilt_well_formed : well_formed unbuilt.
Proof. apply initial_model_well_formed; [exact Q_initialisers_ok | simpl; lia]. Defined.

(** C2, refuted as stated: with [add_noise = False] and
    [input_sampling = False], two walkbacks and two generator states, the
    second entries of the two chains are [[1]] and [[0]]. *)
Lemma build_gsn_chain_depends_on_draws :
  (λ r, r.1.1) <$> build_gsn X1 W1 b1 false true 2 (2 # 5) false linear linear 2
                     ([] : tape)
  = Ok (Some [mkT 1 [[1]]; mkT 1 [[1]]])
  ∧ (λ r, r.1.1) <$> build_gsn X1 W1 b1 false true 2 (2 # 5) false linear linear 2
                       ([9 # 10; 9 # 10] : tape)
    = Ok (Some [mkT 1 [[1]]; mkT 1 [[0]]])
  ∧ (λ r, r.1.1) <$> build_gsn X1 W1 b1 false true 2 (2 # 5) false linear linear 2
                       ([] : tape)
    ≠ (λ r, r.1.1) <$> build_gsn X1 W1 b1 false true 2 (2 # 5) false linear linear 2
                         ([9 # 10; 9 # 10] : tape).
Proof. split; [|split]; vm_compute; [reflexivity | reflexivity | discriminate]. Qed.

Lemma build_gsn_noise_free_draws_witness :
  (∃ rX, ∀ g : tape, ∃ chain hiddens g',
     build_gsn X1 W1 b1 false true 2 (2 # 5) false linear linear 2 g
     = Ok ((Some chain, hiddens), g')
     ∧ head chain = Some rX)
  ∧ ((∀ t q (g : tape), salt_and_pepper t q g = salt_and_pepper t q g) →
     ∀ g : tape,
       build_gsn X1 W1 b1 false true 2 (2 # 5) false linear linear 2 g
       = build_gsn X1 W1 b1 false true 2 (2 # 5) false linear linear 2 g).
Proof.
  apply (build_gsn_noise_free_draws tape_noise tape_noise 1 2 1 1 1 X1 W1 b1);
    [lia | lia | shape | exact W1_ok | exact b1_ok
    | exact linear_keeps_shape | exact linear_keeps_shape
    | exact tape_noise_keeps_shape].
Defined.

Lemma pack_unpack_roundtrip_witness :
  ∃ h_list,
    unpack_hiddens unbuilt (mkT 2 [[1; 2]; [3; 4]]) = Ok h_list
    ∧ pack_hiddens unbuilt h_list = Ok (mkT 2 [[1; 2]; [3; 4]]).
Proof.
  apply (pack_unpack_roundtrip unbuilt 2 (mkT 2 [[1; 2]; [3; 4]]));
    [exact unbuilt_well_formed | shape].
Defined.

Lemma build_gsn_given_hiddens_passes_and_costs_witness :
  ∃ chain rX hiddens' g',
    build_gsn_given_hiddens X2 h2 W2 b2 true true 2 (2 # 5) true linear linear 2
      square_error (lcg 64 1)
    = Ok ((Some chain, hiddens',
           numpy_sum ((λ rX, square_error rX X2) <$> chain), square_error rX X2), g')
    ∧ for_each (seq 0 2)
        (λ _ st,
           let* st' := update_even_layers st.1 W2 b2 st.2
                         true true 2 (2 # 5) true linear linear in
           let* hiddens := update_odd_layers st'.1 W2 b2
                             true true 2 (2 # 5) true linear linear in
           ret (hiddens, st'.2))
        (h2, Some []) (lcg 64 1)
      = Ok ((hiddens', Some chain), g')
    ∧ length chain = 2%nat
    ∧ last chain = Some rX
    ∧ length hiddens' = length h2.
Proof.
  apply (build_gsn_given_hiddens_passes_and_costs 2 2 [3; 2; 2]%nat X2 h2 W2 b2);
    [lia | simpl; lia | exact h2_shaped | exact W2_ok | exact b2_ok
    | exact linear_keeps_shape | exact linear_keeps_shape
    | exact tape_noise_keeps_shape].
Defined.

Lemma unpack_pack_keeps_odd_layers_witness :
  ∃ packed h',
    pack_hiddens unbuilt h2 = Ok packed
    ∧ unpack_hiddens unbuilt packed = Ok h'
    ∧ length h' = length h2
    ∧ (∀ i, (i mod 2 = 1)%nat → h' !! i = h2 !! i)
    ∧ h' !! 0%nat = Some (zeros_like (Self.X unbuilt))
    ∧ (∀ i n, (i mod 2 = 0)%nat → (0 < i)%nat →
              Self.layer_sizes unbuilt !! i = Some n → h' !! i = Some (zeros 2 n)).
Proof.
  apply (unpack_pack_keeps_odd_layers unbuilt 2 h2);
    [exact unbuilt_well_formed | exact h2_shaped].
Defined.

(** C6, refuted as stated: with [noiseless_h1 = True], the same input,
    parameters and generator state, the first hidden layer [build_gsn]
    returns is [[0]] with [add_noise = True] and [[1]] with
    [add_noise = False]. *)
Lemma build_gsn_h1_depends_on_add_noise :
  (λ r, r.1.2 !! 1%nat) <$> build_gsn X1 W1 b1 true true 2 (2 # 5) false linear linear 1
                             ([9 # 10; 9 # 10] : tape)
  = Ok (Some (mkT 1 [[0]]))
  ∧ (λ r, r.1.2 !! 1%nat) <$> build_gsn X1 W1 b1 false true 2 (2 # 5) false linear linear 1
                               ([9 # 10; 9 # 10] : tape)
    = Ok (Some (mkT 1 [[1]]))
  ∧ (λ r, r.1.2 !! 1%nat) <$> build_gsn X1 W1 b1 true true 2 (2 # 5) false linear linear 1
                               ([9 # 10; 9 # 10] : tape)
    ≠ (λ r, r.1.2 !! 1%nat) <$> build_gsn X1 W1 b1 false true 2 (2 # 5) false linear linear 1
                                 ([9 # 10; 9 # 10] : tape).
Proof. split; [|split]; vm_compute; [reflexivity | reflexivity | discriminate]. Qed.

Lemma noiseless_h1_update_ignores_add_noise_witness :
  simple_update_layer h2 W2 b2 None 1 true true 2 (2 # 5) true linear linear (lcg 64 1)
  = simple_update_layer h2 W2 b2 None 1 false true 2 (2 # 5) true linear linear (lcg 64 1)
  ∧ ∃ r, simple_update_layer h2 W2 b2 None 1 true true 2 (2 # 5) true linear linear
           (lcg 64 1)
         = Ok (r, lcg 64 1).
Proof.
  destruct (noiseless_h1_update_ignores_add_noise h2 W2 b2 None 2 (2 # 5) true
              linear linear (lcg 64 1)) as [Heq Hgen].
  split; [exact Heq|].
  destruct (simple_update_layer h2 W2 b2 None 1 true true 2 (2 # 5) true linear linear
              (lcg 64 1)) as [[r g']|e] eqn:E.
  - exists r. f_equal. f_equal. exact (Hgen true r g' E).
  - vm_compute in E. discriminate E.
Defined.

(** C7, refuted as stated: the constructor without a hidden activation and
    [predict] on a model without [f_predict] raise the same exception. *)
Lemma usage_error_same_as_missing_activation :
  error_of (__init__ (MRG:=tape) args_no_activation None None None X2)
  = Some NotImplementedError
  ∧ error_of (predict unbuilt X2 []) = Some NotImplementedError
  ∧ error_of (__init__ (MRG:=tape) args_no_activation None None None X2)
    = error_of (predict unbuilt X2 []).
Proof. split; [|split]; vm_compute; reflexivity. Qed.

Lemma usage_order_and_configuration_errors_witness :
  error_of (predict unbuilt X2 []) = Some NotImplementedError
  ∧ error_of (get_hiddens unbuilt) = Some NotImplementedError
  ∧ error_of (get_outputs unbuilt) = Some NotImplementedError
  ∧ error_of (__init__ (MRG:=tape) args_no_input_size None None None X2)
    = Some AssertionError
  ∧ error_of (__init__ (MRG:=tape) args_no_activation None None None X2)
    = Some NotImplementedError.
Proof.
  destruct (usage_order_and_configuration_errors (R:=Q) (level:=Q) (MRG:=tape))
    as (Hp & Hh & Ho & Hi & Hm & _).
  split; [apply Hp; reflexivity|].
  split; [apply Hh; reflexivity|].
  split; [apply Ho; reflexivity|].
  split.
  - apply Hi; [discriminate | reflexivity].
  - apply (Hm args_no_activation None None None X2 3%nat);
      [discriminate | reflexivity | left; reflexivity].
Defined.


Lemma visible_update_appends_then_corrupts_witness :
  simple_update_layer [X1; mkT 1 [[1]]] W1 b1 (Some []) 0
    false true 2 (2 # 5) false linear linear ([9 # 10; 9 # 10] : tape)
  = (let rX := linear (mkT 1 [[1]]) in
     let sampled := (rX, ([9 # 10; 9 # 10] : tape)) in
     let corrupted := salt_and_pepper sampled.1 (2 # 5) sampled.2 in
     Ok ((<[0%nat:=corrupted.1]> [X1; mkT 1 [[1]]], Some ([] ++ [rX])), corrupted.2)).
Proof.
  apply (visible_update_appends_then_corrupts [X1; mkT 1 [[1]]] W1 b1 []
           false true 2 (2 # 5) false linear linear [9 # 10; 9 # 10]
           (mkT 1 [[1]]) (mkT 1 [[1]]) [0] (mkT 1 [[1]]) (mkT 1 [[1]]));
    vm_compute; reflexivity.
Defined.


End Instances.

(** * Further properties of the layer-update engine *)

(** ** Which entries of the hidden state an update reads *)

Lemma range_2_elem_of x a b : a ≤ x < b → x mod 2 = a mod 2 → x ∈ range a b 2.
Proof.
  intros Hx Hpar. unfold range. apply list_elem_of_fmap.
  exists ((x - a) / 2).
  pose proof (Nat.Div0.div_mod x 2) as Dx. pose proof (Nat.Div0.div_mod a 2) as Da.
  pose proof (Nat.Div0.div_mod (x - a) 2) as Dxa.
  pose proof (Nat.mod_upper_bound (x - a) 2) as Uxa.
  assert ((x - a) mod 2 = 0) as Hz.
  { replace (x - a) with (0 + (x / 2 - a / 2) * 2) by lia.
    by rewrite Nat.Div0.mod_add. }
  split; [lia|]. apply elem_of_seq. split; [lia|].
  pose proof (Nat.Div0.div_mod (b - a + (2 - 1)) 2).
  pose proof (Nat.mod_upper_bound (b - a + (2 - 1)) 2). lia.
Qed.

(** Two loops over related states stay related: they fail alike or run to
    related states with the same generator. *)
Lemma for_each_sim {G E S} (P : list E → S → S → Prop) (f : E → S → M G S) (l : list E) :
  (∀ pre i s s' g, i ∈ l → P pre s s' →
     match f i s g, f i s' g with
     | Ok (t, g1), Ok (t', g2) => g1 = g2 ∧ P (pre ++ [i]) t t'
     | Raise e1, Raise e2 => e1 = e2
     | _, _ => False
     end) →
  ∀ pre s s' g, P pre s s' →
    match for_each l f s g, for_each l f s' g with
    | Ok (t, g1), Ok (t', g2) => g1 = g2 ∧ P (pre ++ l) t t'
    | Raise e1, Raise e2 => e1 = e2
    | _, _ => False
    end.
Proof.
  induction l as [|x l IH]; intros Hf pre s s' g HP.
  - simpl. unfold ret. by rewrite app_nil_r.
  - simpl. unfold bind.
    pose proof (Hf pre x s s' g ltac:(left) HP) as Hx.
    destruct (f x s g) as [[t g1]|e1], (f x s' g) as [[t' g2]|e2]; try done.
    destruct Hx as [<- HP'].
    pose proof (IH (λ pre i s s' g Hi, Hf pre i s s' g (list_elem_of_further _ _ _ Hi))
                  (pre ++ [x]) t t' g1 HP') as Hrest.
    by rewrite <- app_assoc in Hrest.
Qed.

Section Reads.
Context {R level MRG : Type} `{Scalar R} `{Noise R level MRG}.
Implicit Types (hiddens weights_list : list (tensor R)) (bias_list : list (vector R)).
Implicit Types (p_X_chain : option (list (tensor R))) (g : MRG).

Lemma pre_activation_reads hiddens hiddens' weights_list bias_list i :
  length hiddens = length hiddens' →
  (i ≠ 0 → hiddens !! (i - 1) = hiddens' !! (i - 1)) →
  hiddens !! (i + 1) = hiddens' !! (i + 1) →
  pre_activation hiddens weights_list bias_list i
  = pre_activation hiddens' weights_list bias_list i.
Proof.
  intros Hl Hprev Hnext. unfold pre_activation, getitem. rewrite Hl, Hnext.
  destruct (Nat.eqb_spec i 0) as [|Hi]; [done|]. by rewrite Hprev.
Qed.

(** A layer update that is given the pre-activation: it fails on an index
    out of range and otherwise replaces entry [i]. *)
Lemma simple_update_layer_raise hiddens weights_list bias_list p_X_chain i
    add_noise noiseless_h1 sigma p input_sampling va ha g e :
  pre_activation hiddens weights_list bias_list i = Raise e →
  simple_update_layer hiddens weights_list bias_list p_X_chain i
    add_noise noiseless_h1 sigma p input_sampling va ha g = Raise e.
Proof. intros Ev. unfold simple_update_layer. by rewrite Ev. Qed.

Lemma simple_update_layer_beyond hiddens weights_list bias_list p_X_chain i
    add_noise noiseless_h1 sigma p input_sampling va ha g v :
  pre_activation hiddens weights_list bias_list i = Ok v → ¬ i < length hiddens →
  simple_update_layer hiddens weights_list bias_list p_X_chain i
    add_noise noiseless_h1 sigma p input_sampling va ha g = Raise IndexError.
Proof.
  intros Ev Hi. unfold simple_update_layer. rewrite Ev. simpl. unfold setitem.
  by destruct (Nat.ltb_spec i (length hiddens)).
Qed.

Lemma simple_update_layer_reads hiddens hiddens' weights_list bias_list p_X_chain i
    add_noise noiseless_h1 sigma p input_sampling va ha g :
  length hiddens = length hiddens' →
  (i ≠ 0 → hiddens !! (i - 1) = hiddens' !! (i - 1)) →
  hiddens !! (i + 1) = hiddens' !! (i + 1) →
  match simple_update_layer hiddens weights_list bias_list p_X_chain i
          add_noise noiseless_h1 sigma p input_sampling va ha g,
        simple_update_layer hiddens' weights_list bias_list p_X_chain i
          add_noise noiseless_h1 sigma p input_sampling va ha g with
  | Ok ((h1, c1), g1), Ok ((h2, c2), g2) =>
      g1 = g2 ∧ c1 = c2 ∧ ∃ x, h1 = <[i:=x]> hiddens ∧ h2 = <[i:=x]> hiddens'
  | Raise e1, Raise e2 => e1 = e2
  | _, _ => False
  end.
Proof.
  intros Hl Hprev Hnext.
  pose proof (pre_activation_reads hiddens hiddens' weights_list bias_list i
                Hl Hprev Hnext) as Hpre.
  destruct (pre_activation hiddens weights_list bias_list i) as [v|e] eqn:Ev.
  2:{ rewrite (simple_update_layer_raise _ _ _ _ _ _ _ _ _ _ _ _ _ _ Ev).
      by rewrite (simple_update_layer_raise _ _ _ _ _ _ _ _ _ _ _ _ _ _ (eq_sym Hpre)). }
  symmetry in Hpre.
  destruct (decide (i < length hiddens)) as [Hi|Hi].
  2:{ rewrite (simple_update_layer_beyond _ _ _ _ _ _ _ _ _ _ _ _ _ _ Ev Hi).
      rewrite (simple_update_layer_beyond _ _ _ _ _ _ _ _ _ _ _ _ _ _ Hpre); [done|].
      by rewrite <- Hl. }
  rewrite (simple_update_layer_eq _ _ _ _ _ _ _ _ _ _ _ _ _ v Ev Hi).
  rewrite (simple_update_layer_eq _ _ _ _ _ _ _ _ _ _ _ _ _ v Hpre) by (by rewrite <- Hl).
  cbv zeta. destruct (i =? 0).
  - destruct p_X_chain as [c|]; [|done]. split; [done|]. split; [done|]. by eexists.
  - split; [done|]. split; [done|]. by eexists.
Qed.

Lemma parity_neighbours i :
  (i mod 2 = 1 → (i - 1) mod 2 = 0 ∧ (i + 1) mod 2 = 0)
  ∧ (i mod 2 = 0 → (i ≠ 0 → (i - 1) mod 2 = 1) ∧ (i + 1) mod 2 = 1).
Proof.
  pose proof (Nat.Div0.div_mod i 2) as Hi.
  pose proof (Nat.Div0.div_mod (i - 1) 2) as Hp.
  pose proof (Nat.Div0.div_mod (i + 1) 2) as Hn.
  pose proof (Nat.mod_upper_bound (i - 1) 2).
  pose proof (Nat.mod_upper_bound (i + 1) 2).
  lia.
Qed.

Lemma agree_insert par n pre (s s' : list (tensor R)) i x :
  agree par n pre s s' → agree par n (pre ++ [i]) (<[i:=x]> s) (<[i:=x]> s').
Proof.
  intros (Hs & Hs' & Hag). unfold agree. rewrite !length_insert.
  split; [done|]. split; [done|]. intros j Hj.
  destruct (decide (j = i)) as [->|Hji].
  - destruct (decide (i < n)) as [Hi|Hi].
    + rewrite !list_lookup_insert_eq by lia. done.
    + rewrite !lookup_ge_None_2; [done| |]; rewrite length_insert; lia.
  - rewrite !list_lookup_insert_ne by done. apply Hag.
    destruct Hj as [Hj|Hj]; [by left|right].
    apply elem_of_app in Hj as [Hj|Hj]; [done|].
    by apply list_elem_of_singleton in Hj.
Qed.

Lemma agree_all par n (s s' : list (tensor R)) :
  agree par n (range (1 - par) n 2) s s' → par < 2 → s = s'.
Proof.
  intros (Hs & Hs' & Hag) Hpar. apply list_eq. intros j.
  destruct (decide (j < n)) as [Hj|Hj].
  2:{ rewrite !lookup_ge_None_2 by lia. done. }
  apply Hag. destruct (Nat.eq_dec (j mod 2) par) as [Hp|Hp]; [by left|right].
  pose proof (Nat.mod_upper_bound j 2).
  assert (j mod 2 = 1 - par) as Hj2 by lia.
  apply range_2_elem_of.
  - split; [|done]. pose proof (Nat.Div0.div_mod j 2). lia.
  - rewrite Hj2. destruct par as [|[|]]; [done|done|lia].
Qed.

(** The odd pass reads the even entries only. *)
Lemma update_odd_layers_reads hiddens hiddens' weights_list bias_list
    add_noise noiseless_h1 sigma p input_sampling va ha g :
  length hiddens = length hiddens' →
  (∀ j, j mod 2 = 0 → hiddens !! j = hiddens' !! j) →
  update_odd_layers hiddens weights_list bias_list
    add_noise noiseless_h1 sigma p input_sampling va ha g
  = update_odd_layers hiddens' weights_list bias_list
      add_noise noiseless_h1 sigma p input_sampling va ha g.
Proof.
  intros Hl Hev. unfold update_odd_layers. rewrite <- Hl.
  set (body := λ i hs,
         let* r := simple_update_layer hs weights_list bias_list None i
                     add_noise noiseless_h1 sigma p input_sampling va ha in
         ret r.1).
  assert (∀ pre i (s s' : list (tensor R)) g0,
            i ∈ range 1 (length hiddens) 2 → agree 0 (length hiddens) pre s s' →
            match body i s g0, body i s' g0 with
            | Ok (t, g1), Ok (t', g2) => g1 = g2 ∧ agree 0 (length hiddens) (pre ++ [i]) t t'
            | Raise e1, Raise e2 => e1 = e2
            | _, _ => False
            end) as Hstep.
  { intros pre i s s' g0 Hi Hag. apply elem_of_range_2 in Hi as [Hi Hodd].
    change (1 mod 2) with 1 in Hodd.
    destruct (proj1 (parity_neighbours i) Hodd) as [Hp Hn].
    pose proof Hag as (Hs & Hs' & Hlk).
    pose proof (simple_update_layer_reads s s' weights_list bias_list None i
                  add_noise noiseless_h1 sigma p input_sampling va ha g0
                  ltac:(congruence) (λ _, Hlk _ (or_introl Hp))
                  (Hlk _ (or_introl Hn))) as Hone.
    unfold body, bind, ret.
    destruct (simple_update_layer s _ _ _ _ _ _ _ _ _ _ _ _) as [[[h1 c1] g1]|e1],
             (simple_update_layer s' _ _ _ _ _ _ _ _ _ _ _ _) as [[[h2 c2] g2]|e2];
      try done.
    destruct Hone as (<- & _ & x & -> & ->). split; [done|]. cbn [fst].
    by apply agree_insert. }
  assert (agree 0 (length hiddens) [] hiddens hiddens') as Hstart.
  { split; [done|]. split; [done|]. intros j [Hj|Hj]; [by apply Hev|].
    by apply elem_of_nil in Hj. }
  pose proof (for_each_sim (agree 0 (length hiddens)) body (range 1 (length hiddens) 2)
                Hstep [] hiddens hiddens' g Hstart) as Hsim.
  destruct (for_each (range 1 (length hiddens) 2) body hiddens g) as [[t g1]|e1],
           (for_each (range 1 (length hiddens) 2) body hiddens' g) as [[t' g2]|e2];
    try done.
  - destruct Hsim as [<- Hag]. by rewrite (agree_all 0 _ _ _ Hag) by lia.
  - by rewrite Hsim.
Qed.

(** The even pass reads the odd entries only. *)
Lemma update_even_layers_reads hiddens hiddens' weights_list bias_list p_X_chain
    add_noise noiseless_h1 sigma p input_sampling va ha g :
  length hiddens = length hiddens' →
  (∀ j, j mod 2 = 1 → hiddens !! j = hiddens' !! j) →
  update_even_layers hiddens weights_list bias_list p_X_chain
    add_noise noiseless_h1 sigma p input_sampling va ha g
  = update_even_layers hiddens' weights_list bias_list p_X_chain
      add_noise noiseless_h1 sigma p input_sampling va ha g.
Proof.
  intros Hl Hodd. unfold update_even_layers. rewrite <- Hl.
  set (body := λ i (st : list (tensor R) * option (list (tensor R))),
         simple_update_layer st.1 weights_list bias_list st.2 i
           add_noise noiseless_h1 sigma p input_sampling va ha).
  set (P := λ pre (st st' : list (tensor R) * option (list (tensor R))),
         st.2 = st'.2 ∧ agree 1 (length hiddens) pre st.1 st'.1).
  assert (∀ pre i st st' g0,
            i ∈ range 0 (length hiddens) 2 → P pre st st' →
            match body i st g0, body i st' g0 with
            | Ok (t, g1), Ok (t', g2) => g1 = g2 ∧ P (pre ++ [i]) t t'
            | Raise e1, Raise e2 => e1 = e2
            | _, _ => False
            end) as Hstep.
  { intros pre i [s c] [s' c'] g0 Hi [Hc Hag]. cbn [fst snd] in Hc, Hag. subst c'.
    apply elem_of_range_2 in Hi as [Hi Hev]. change (0 mod 2) with 0 in Hev.
    destruct (proj2 (parity_neighbours i) Hev) as [Hp Hn].
    pose proof Hag as (Hs & Hs' & Hlk).
    pose proof (simple_update_layer_reads s s' weights_list bias_list c i
                  add_noise noiseless_h1 sigma p input_sampling va ha g0
                  ltac:(congruence) (λ Hi0, Hlk _ (or_introl (Hp Hi0)))
                  (Hlk _ (or_introl Hn))) as Hone.
    unfold body. cbn [fst snd].
    destruct (simple_update_layer s _ _ _ _ _ _ _ _ _ _ _ _) as [[[h1 c1] g1]|e1],
             (simple_update_layer s' _ _ _ _ _ _ _ _ _ _ _ _) as [[[h2 c2] g2]|e2];
      try done.
    destruct Hone as (<- & <- & x & -> & ->). split; [done|]. split; [done|].
    cbn [fst]. by apply agree_insert. }
  assert (P [] (hiddens, p_X_chain) (hiddens', p_X_chain)) as Hstart.
  { split; [done|]. split; [done|]. split; [done|].
    intros j [Hj|Hj]; [by apply Hodd|]. by apply elem_of_nil in Hj. }
  pose proof (for_each_sim P body (range 0 (length hiddens) 2)
                Hstep [] (hiddens, p_X_chain) (hiddens', p_X_chain) g Hstart) as Hsim.
  fold body.
  destruct (for_each (range 0 (length hiddens) 2) body (hiddens, p_X_chain) g)
    as [[[t c] g1]|e1],
    (for_each (range 0 (length hiddens) 2) body (hiddens', p_X_chain) g)
    as [[[t' c'] g2]|e2]; try done.
  - destruct Hsim as (<- & Hc & Hag). cbn [fst snd] in Hc, Hag. subst c'.
    by rewrite (agree_all 1 _ _ _ Hag) by lia.
  - by rewrite Hsim.
Qed.

Lemma for_each_first {G E S} (x : E) (l : list E) (f : E → S → M G S)
    (s s' : S) (r : G) :
  f x s r = f x s' r → for_each (x :: l) f s r = for_each (x :: l) f s' r.
Proof. intros Hf. simpl. unfold bind. by rewrite Hf. Qed.

Lemma update_layers_reads hiddens hiddens' weights_list bias_list p_X_chain
    add_noise noiseless_h1 sigma p input_sampling va ha g :
  length hiddens = length hiddens' →
  (∀ j, j mod 2 = 0 → hiddens !! j = hiddens' !! j) →
  update_layers hiddens weights_list bias_list p_X_chain
    add_noise noiseless_h1 sigma p input_sampling va ha g
  = update_layers hiddens' weights_list bias_list p_X_chain
      add_noise noiseless_h1 sigma p input_sampling va ha g.
Proof.
  intros Hl Hev. unfold update_layers, bind.
  by rewrite (update_odd_layers_reads hiddens hiddens').
Qed.

Lemma update_layers_reverse_reads hiddens hiddens' weights_list bias_list p_X_chain
    add_noise noiseless_h1 sigma p input_sampling va ha g :
  length hiddens = length hiddens' →
  (∀ j, j mod 2 = 1 → hiddens !! j = hiddens' !! j) →
  update_layers_reverse hiddens weights_list bias_list p_X_chain
    add_noise noiseless_h1 sigma p input_sampling va ha g
  = update_layers_reverse hiddens' weights_list bias_list p_X_chain
      add_noise noiseless_h1 sigma p input_sampling va ha g.
Proof.
  intros Hl Hodd. unfold update_layers_reverse, bind.
  by rewrite (update_even_layers_reads hiddens hiddens').
Qed.

(** X1: One full update (odd layers, then even layers) reads the even-indexed
    layers only: on two hidden states of the same length that agree on every
    even-indexed entry, [update_layers] and [update_layers_scan_step] give
    the same outcome (the same hidden state, chain and generator, or the same
    exception).  The odd layers they are given are dead inputs. *)
Theorem update_layers_reads_even_layers hiddens hiddens' weights_list bias_list
    p_X_chain add_noise noiseless_h1 sigma p input_sampling va ha g :
  length hiddens = length hiddens' →
  (∀ j, j mod 2 = 0 → hiddens !! j = hiddens' !! j) →
  update_layers hiddens weights_list bias_list p_X_chain
    add_noise noiseless_h1 sigma p input_sampling va ha g
  = update_layers hiddens' weights_list bias_list p_X_chain
      add_noise noiseless_h1 sigma p input_sampling va ha g
  ∧ update_layers_scan_step hiddens weights_list bias_list
      add_noise noiseless_h1 sigma p input_sampling va ha g
    = update_layers_scan_step hiddens' weights_list bias_list
        add_noise noiseless_h1 sigma p input_sampling va ha g.
Proof.
  intros Hl Hev. split; [by apply update_layers_reads|].
  unfold update_layers_scan_step, bind.
  by rewrite (update_odd_layers_reads hiddens hiddens').
Qed.

(** X2: [build_gsn_pxh] depends on the even-indexed layers of the hidden state it
    is given only, for every number of walkbacks. *)
Theorem build_gsn_pxh_reads_even_layers hiddens hiddens' weights_list bias_list
    add_noise noiseless_h1 sigma p input_sampling va ha walkbacks g :
  length hiddens = length hiddens' →
  (∀ j, j mod 2 = 0 → hiddens !! j = hiddens' !! j) →
  build_gsn_pxh hiddens weights_list bias_list
    add_noise noiseless_h1 sigma p input_sampling va ha walkbacks g
  = build_gsn_pxh hiddens' weights_list bias_list
      add_noise noiseless_h1 sigma p input_sampling va ha walkbacks g.
Proof.
  intros Hl Hev. unfold build_gsn_pxh. destruct walkbacks as [|k]; [done|].
  unfold bind at 1 3. rewrite <- cons_seq.
  rewrite (for_each_first 0 _ _ (hiddens, Some []) (hiddens', Some [])); [done|].
  by apply update_layers_reads.
Qed.

(** X3: [build_gsn_given_hiddens] depends on the odd-indexed layers of the hidden
    state it is given only: the visible layer and the other even layers are
    recomputed before they are read. *)
Theorem build_gsn_given_hiddens_reads_odd_layers X hiddens hiddens'
    weights_list bias_list add_noise noiseless_h1 sigma p input_sampling va ha
    walkbacks cost_function g :
  length hiddens = length hiddens' →
  (∀ j, j mod 2 = 1 → hiddens !! j = hiddens' !! j) →
  build_gsn_given_hiddens X hiddens weights_list bias_list
    add_noise noiseless_h1 sigma p input_sampling va ha walkbacks cost_function g
  = build_gsn_given_hiddens X hiddens' weights_list bias_list
      add_noise noiseless_h1 sigma p input_sampling va ha walkbacks cost_function g.
Proof.
  intros Hl Hodd. unfold build_gsn_given_hiddens. destruct walkbacks as [|k]; [done|].
  unfold bind at 1 4. rewrite <- cons_seq.
  rewrite (for_each_first 0 _ _ (hiddens, Some []) (hiddens', Some [])); [done|].
  by apply update_layers_reverse_reads.
Qed.

End Reads.

(** ** How walkbacks compose *)

Lemma for_each_app {G E S} (l1 l2 : list E) (f : E → S → M G S) (s : S) (r : G) :
  for_each (l1 ++ l2) f s r = (let* s1 := for_each l1 f s in for_each l2 f s1) r.
Proof.
  revert s r. induction l1 as [|x l1 IH]; intros s r; [done|].
  simpl. unfold bind. destruct (f x s r) as [[s1 r1]|e]; [|done].
  rewrite IH. done.
Qed.

(** A loop whose body ignores the loop variable. *)
Lemma for_each_seq_shift {G St} (F : St → M G St) (a b n : nat) (s : St) (r : G) :
  for_each (seq a n) (λ _, F) s r = for_each (seq b n) (λ _, F) s r.
Proof.
  revert a b s r. induction n as [|n IH]; intros a b s r; [done|].
  simpl. unfold bind. destruct (F s r) as [[s1 r1]|e]; [|done]. apply IH.
Qed.

Lemma for_each_seq_S {G St} (F : St → M G St) (n : nat) (s : St) (r : G) :
  for_each (seq 0 (S n)) (λ _, F) s r
  = (let* s1 := for_each (seq 0 n) (λ _, F) s in F s1) r.
Proof.
  rewrite seq_S, for_each_app. unfold bind.
  destruct (for_each (seq 0 n) (λ _, F) s r) as [[s1 r1]|e]; [|done].
  simpl. unfold bind. by destruct (F s1 r1) as [[s2 r2]|e].
Qed.

Lemma for_each_S_seq {G St} (F : St → M G St) (n : nat) (s : St) (r : G) :
  for_each (seq 0 (S n)) (λ _, F) s r
  = (let* s1 := F s in for_each (seq 0 n) (λ _, F) s1) r.
Proof.
  simpl. unfold bind. destruct (F s r) as [[s1 r1]|e]; [|done].
  apply for_each_seq_shift.
Qed.

Section Walkbacks.
Context {R level MRG : Type} `{Scalar R} `{Noise R level MRG}.
Implicit Types (hiddens weights_list : list (tensor R)) (bias_list : list (vector R)).
Implicit Types (p_X_chain : option (list (tensor R))) (g : MRG).

(** X4: One more walkback is one more full update: [build_gsn] with
    [walkbacks + 1] walkbacks is [build_gsn] with [walkbacks] walkbacks
    followed by one [update_layers] on the hidden state and the chain it
    returned, failures included. *)
Theorem build_gsn_one_more_walkback X weights_list bias_list
    add_noise noiseless_h1 sigma p input_sampling va ha walkbacks g :
  build_gsn X weights_list bias_list
    add_noise noiseless_h1 sigma p input_sampling va ha (S walkbacks) g
  = (let* r := build_gsn X weights_list bias_list
                 add_noise noiseless_h1 sigma p input_sampling va ha walkbacks in
     let* st := update_layers r.2 weights_list bias_list r.1
                  add_noise noiseless_h1 sigma p input_sampling va ha in
     ret (st.2, st.1)) g.
Proof.
  unfold build_gsn, bind.
  destruct ((if add_noise then draw (salt_and_pepper X p) else ret X) g)
    as [[X_init g0]|e]; [|done].
  destruct (lift (init_hiddens X_init weights_list) g0) as [[h0 g1]|e]; [|done].
  rewrite (for_each_seq_S
             (λ st, update_layers st.1 weights_list bias_list st.2
                      add_noise noiseless_h1 sigma p input_sampling va ha)).
  unfold bind.
  by destruct (for_each (seq 0 walkbacks) _ (h0, Some []) g1) as [[[h1 c1] g2]|e].
Qed.

Lemma build_gsn_scan_eq X weights_list bias_list
    add_noise noiseless_h1 sigma p input_sampling va ha walkbacks
    (cost_function : tensor R → tensor R → R) g :
  build_gsn_scan X weights_list bias_list
    add_noise noiseless_h1 sigma p input_sampling va ha walkbacks cost_function g
  = match build_gsn X weights_list bias_list
            add_noise noiseless_h1 sigma p input_sampling va ha walkbacks g with
    | Ok ((Some chain, _), g') =>
        match last chain with
        | Some x_sample =>
            Ok ((x_sample, numpy_sum ((λ rX, cost_function rX X) <$> chain),
                 cost_function x_sample X), g')
        | None => Raise IndexError
        end
    | Ok ((None, _), _) => Raise TypeError
    | Raise e => Raise e
    end.
Proof.
  unfold build_gsn_scan, build_gsn, bind.
  destruct ((if add_noise then draw (salt_and_pepper X p) else ret X) g)
    as [[X_init g0]|e]; [|done].
  destruct (lift (init_hiddens X_init weights_list) g0) as [[h0 g1]|e]; [|done].
  destruct (for_each (seq 0 walkbacks) _ (h0, Some []) g1) as [[[h1 [c1|]] g2]|e];
    [|done|done].
  cbn [fst snd iter lift ret]. unfold getlast. rewrite fmap_last.
  by destruct (last c1).
Qed.

(** X5: [build_gsn_scan] is [build_gsn] followed by the costs: it returns the
    last entry of the chain [build_gsn] returns, the sum of the costs of the
    chain entries against [X] and the cost of the last entry, with the same
    generator; where [build_gsn] returns an empty chain (no walkback) it raises
    IndexError, and where [build_gsn] fails it fails alike. *)
Theorem build_gsn_scan_after_build_gsn X weights_list bias_list
    add_noise noiseless_h1 sigma p input_sampling va ha walkbacks
    (cost_function : tensor R → tensor R → R) g :
  build_gsn_scan X weights_list bias_list
    add_noise noiseless_h1 sigma p input_sampling va ha walkbacks cost_function g
  = match build_gsn X weights_list bias_list
            add_noise noiseless_h1 sigma p input_sampling va ha walkbacks g with
    | Ok ((Some chain, _), g') =>
        match last chain with
        | Some x_sample =>
            Ok ((x_sample, numpy_sum ((λ rX, cost_function rX X) <$> chain),
                 cost_function x_sample X), g')
        | None => Raise IndexError
        end
    | Ok ((None, _), _) => Raise TypeError
    | Raise e => Raise e
    end.
Proof. apply build_gsn_scan_eq. Qed.

Lemma reverse_walkbacks weights_list bias_list
    add_noise noiseless_h1 sigma p input_sampling va ha walkbacks hiddens p_X_chain g :
  for_each (seq 0 (S walkbacks))
    (λ _ st, update_layers_reverse st.1 weights_list bias_list st.2
               add_noise noiseless_h1 sigma p input_sampling va ha)
    (hiddens, p_X_chain) g
  = (let* st := update_even_layers hiddens weights_list bias_list p_X_chain
                  add_noise noiseless_h1 sigma p input_sampling va ha in
     let* st := for_each (seq 0 walkbacks)
                  (λ _ st, update_layers st.1 weights_list bias_list st.2
                             add_noise noiseless_h1 sigma p input_sampling va ha)
                  st in
     let* hiddens' := update_odd_layers st.1 weights_list bias_list
                        add_noise noiseless_h1 sigma p input_sampling va ha in
     ret (hiddens', st.2)) g.
Proof.
  revert hiddens p_X_chain g.
  induction walkbacks as [|k IH]; intros hiddens p_X_chain g.
  - simpl. unfold update_layers_reverse, bind, ret.
    destruct (update_even_layers _ _ _ _ _ _ _ _ _ _ _ g) as [[[h1 c1] g1]|e]; [|done].
    cbn [fst snd]. by destruct (update_odd_layers _ _ _ _ _ _ _ _ _ _ g1) as [[h2 g2]|e].
  - rewrite (for_each_S_seq
               (λ st, update_layers_reverse st.1 weights_list bias_list st.2
                        add_noise noiseless_h1 sigma p input_sampling va ha)).
    unfold bind, update_layers_reverse. cbn [fst snd]. unfold bind.
    destruct (update_even_layers hiddens _ _ _ _ _ _ _ _ _ _ g) as [[[h1 c1] g1]|e];
      [|done].
    cbn [fst snd].
    rewrite (for_each_S_seq
               (λ st, update_layers st.1 weights_list bias_list st.2
                        add_noise noiseless_h1 sigma p input_sampling va ha)).
    unfold bind, update_layers. cbn [fst snd]. unfold bind.
    destruct (update_odd_layers h1 _ _ _ _ _ _ _ _ _ g1) as [[h2 g2]|e]; [|done].
    unfold ret at 1. rewrite IH. unfold bind.
    by destruct (update_even_layers h2 _ _ _ _ _ _ _ _ _ _ g2) as [[[h3 c3] g3]|e].
Qed.

(** X6: Reversed walkbacks are forward walkbacks between an even pass and an odd
    pass: [build_gsn_given_hiddens] with [walkbacks + 1] walkbacks runs one
    update of the even layers, then [walkbacks] full updates as [build_gsn]
    does them ([update_layers]), then one update of the odd layers; the
    chain is complete before that last odd pass. *)
Theorem build_gsn_given_hiddens_as_forward_walkbacks X hiddens weights_list bias_list
    add_noise noiseless_h1 sigma p input_sampling va ha walkbacks
    (cost_function : tensor R → tensor R → R) g :
  build_gsn_given_hiddens X hiddens weights_list bias_list
    add_noise noiseless_h1 sigma p input_sampling va ha (S walkbacks) cost_function g
  = (let* st := update_even_layers hiddens weights_list bias_list (Some [])
                  add_noise noiseless_h1 sigma p input_sampling va ha in
     let* st := for_each (seq 0 walkbacks)
                  (λ _ st, update_layers st.1 weights_list bias_list st.2
                             add_noise noiseless_h1 sigma p input_sampling va ha)
                  st in
     let* hiddens' := update_odd_layers st.1 weights_list bias_list
                        add_noise noiseless_h1 sigma p input_sampling va ha in
     let* chain := lift (iter st.2) in
     let costs := (λ rX, cost_function rX X) <$> chain in
     let* show_cost := lift (getlast costs) in
     ret (st.2, hiddens', numpy_sum costs, show_cost)) g.
Proof.
  unfold build_gsn_given_hiddens. unfold bind at 1. rewrite reverse_walkbacks.
  unfold bind.
  destruct (update_even_layers hiddens _ _ _ _ _ _ _ _ _ _ g) as [[[h1 c1] g1]|e];
    [|done].
  destruct (for_each (seq 0 walkbacks) _ (h1, c1) g1) as [[[h2 c2] g2]|e]; [|done].
  cbn [fst snd].
  by destruct (update_odd_layers h2 _ _ _ _ _ _ _ _ _ g2) as [[h3 g3]|e].
Qed.

End Walkbacks.

(** ** Indices out of range and degenerate hidden states *)

Section Degenerate.
Context {R level MRG : Type} `{Scalar R} `{Noise R level MRG}.
Implicit Types (hiddens weights_list : list (tensor R)) (bias_list : list (vector R)).
Implicit Types (p_X_chain : option (list (tensor R))) (g : MRG).

Lemma pre_activation_out_of_range hiddens weights_list bias_list i :
  length hiddens ≤ i ∨ length hiddens ≤ 1 →
  pre_activation hiddens weights_list bias_list i = Raise IndexError.
Proof.
  intros Hi. unfold pre_activation, getitem.
  destruct (Nat.eqb_spec i 0) as [->|Hi0].
  - rewrite (lookup_ge_None_2 hiddens (0 + 1)) by lia. done.
  - destruct (Nat.eqb_spec i (length hiddens - 1)) as [Htop|Hmid]; [lia|].
    rewrite (lookup_ge_None_2 hiddens (i + 1)) by lia. done.
Qed.

Lemma simple_update_layer_short hiddens weights_list bias_list p_X_chain i
    add_noise noiseless_h1 sigma p input_sampling va ha g :
  length hiddens ≤ i ∨ length hiddens ≤ 1 →
  simple_update_layer hiddens weights_list bias_list p_X_chain i
    add_noise noiseless_h1 sigma p input_sampling va ha g = Raise IndexError.
Proof.
  intros Hi. unfold simple_update_layer.
  by rewrite (pre_activation_out_of_range _ _ _ _ Hi).
Qed.

Lemma update_even_layers_singleton h0 weights_list bias_list p_X_chain
    add_noise noiseless_h1 sigma p input_sampling va ha g :
  update_even_layers [h0] weights_list bias_list p_X_chain
    add_noise noiseless_h1 sigma p input_sampling va ha g = Raise IndexError.
Proof.
  unfold update_even_layers. change (range 0 (length [h0]) 2) with [0].
  cbn [for_each]. unfold bind. cbn [fst snd].
  rewrite simple_update_layer_short; [done|]. right. simpl. lia.
Qed.

Lemma update_layers_singleton h0 weights_list bias_list p_X_chain
    add_noise noiseless_h1 sigma p input_sampling va ha g :
  update_layers [h0] weights_list bias_list p_X_chain
    add_noise noiseless_h1 sigma p input_sampling va ha g = Raise IndexError.
Proof.
  unfold update_layers, bind.
  change (update_odd_layers [h0] weights_list bias_list
            add_noise noiseless_h1 sigma p input_sampling va ha g) with (Ok ([h0], g)).
  cbv beta iota. apply update_even_layers_singleton.
Qed.

Lemma reverse_walkbacks_nil weights_list bias_list p_X_chain
    add_noise noiseless_h1 sigma p input_sampling va ha walkbacks start g :
  for_each (seq start walkbacks)
    (λ _ st, update_layers_reverse st.1 weights_list bias_list st.2
               add_noise noiseless_h1 sigma p input_sampling va ha)
    ([], p_X_chain) g
  = Ok (([], p_X_chain), g).
Proof.
  revert start. induction walkbacks as [|k IH]; intros start; [done|].
  simpl. unfold bind. cbn [fst snd]. apply IH.
Qed.

(** X7: [simple_update_layer] raises IndexError, before it draws or assigns
    anything, when [i] is not an index of the hidden list, and for every [i]
    when the list has fewer than two entries (a visible layer alone has no
    layer to be computed from). *)
Theorem simple_update_layer_out_of_range hiddens weights_list bias_list p_X_chain i
    add_noise noiseless_h1 sigma p input_sampling va ha g :
  length hiddens ≤ i ∨ length hiddens ≤ 1 →
  simple_update_layer hiddens weights_list bias_list p_X_chain i
    add_noise noiseless_h1 sigma p input_sampling va ha g = Raise IndexError.
Proof. apply simple_update_layer_short. Qed.

Lemma update_layers_nil weights_list bias_list p_X_chain
    add_noise noiseless_h1 sigma p input_sampling va ha g :
  update_layers [] weights_list bias_list p_X_chain
    add_noise noiseless_h1 sigma p input_sampling va ha g = Ok (([], p_X_chain), g).
Proof. done. Qed.

Lemma walkbacks_nil weights_list bias_list p_X_chain
    add_noise noiseless_h1 sigma p input_sampling va ha walkbacks start g :
  for_each (seq start walkbacks)
    (λ _ st, update_layers st.1 weights_list bias_list st.2
               add_noise noiseless_h1 sigma p input_sampling va ha)
    ([], p_X_chain) g
  = Ok (([], p_X_chain), g).
Proof.
  revert start. induction walkbacks as [|k IH]; intros start; [done|].
  simpl. unfold bind. cbn [fst snd]. rewrite update_layers_nil. apply IH.
Qed.

(** X8: On an empty hidden list a full update is a no-op that appends nothing
    to the chain, so [update_layers_scan_step] and [build_gsn_pxh] (for every
    number of walkbacks) raise IndexError when they read the chain, and so
    does [build_gsn_given_hiddens] when it reads the costs; on a hidden list
    with the visible layer alone a full update raises IndexError. *)
Theorem degenerate_hidden_states weights_list bias_list
    add_noise noiseless_h1 sigma p input_sampling va ha g :
  (∀ p_X_chain,
     update_layers [] weights_list bias_list p_X_chain
       add_noise noiseless_h1 sigma p input_sampling va ha g
     = Ok (([], p_X_chain), g))
  ∧ update_layers_scan_step [] weights_list bias_list
      add_noise noiseless_h1 sigma p input_sampling va ha g = Raise IndexError
  ∧ (∀ walkbacks,
       build_gsn_pxh [] weights_list bias_list
         add_noise noiseless_h1 sigma p input_sampling va ha walkbacks g
       = Raise IndexError)
  ∧ (∀ X walkbacks (cost_function : tensor R → tensor R → R),
       build_gsn_given_hiddens X [] weights_list bias_list
         add_noise noiseless_h1 sigma p input_sampling va ha walkbacks cost_function g
       = Raise IndexError)
  ∧ (∀ h0 p_X_chain,
       update_layers [h0] weights_list bias_list p_X_chain
         add_noise noiseless_h1 sigma p input_sampling va ha g
       = Raise IndexError).
Proof.
  split; [done|]. split; [done|]. split; [|split].
  - intros walkbacks. unfold build_gsn_pxh, bind. by rewrite walkbacks_nil.
  - intros X walkbacks cost_function. unfold build_gsn_given_hiddens, bind.
    by rewrite reverse_walkbacks_nil.
  - intros h0 p_X_chain. apply update_layers_singleton.
Qed.

End Degenerate.

(** ** The variants of the builder on well-shaped states *)

Section VariantsOk.
Context {R level MRG : Type} `{Scalar R} `{Noise R level MRG}.
Implicit Types (hiddens weights_list : list (tensor R)) (bias_list : list (vector R)).
Implicit Types (g : MRG).

(** X9: On a hidden state and parameters shaped after the layer sizes,
    [update_layers_scan_step] returns the one reconstruction that
    [update_layers] appends to an empty chain, a batch of the input's shape,
    together with the hidden state that [update_layers] leaves, shaped as
    before. *)
Theorem update_layers_scan_step_returns (B : nat) ls hiddens weights_list bias_list
    add_noise noiseless_h1 sigma p input_sampling va ha g :
  1 < length ls → shaped B ls hiddens →
  weights_ok ls weights_list → biases_ok ls bias_list →
  keeps_shape va → keeps_shape ha → noise_keeps_shape →
  ∃ x hiddens' g',
    update_layers_scan_step hiddens weights_list bias_list
      add_noise noiseless_h1 sigma p input_sampling va ha g
    = Ok ((x, hiddens'), g')
    ∧ update_layers hiddens weights_list bias_list (Some [])
        add_noise noiseless_h1 sigma p input_sampling va ha g
      = Ok ((hiddens', Some [x]), g')
    ∧ (∀ n, ls !! 0 = Some n → has_shape B n x)
    ∧ shaped B ls hiddens'.
Proof.
  intros HL Hs Hw Hb Hva Hha Hn.
  destruct (update_layers_ok B ls weights_list bias_list add_noise noiseless_h1
              input_sampling sigma p va ha HL Hw Hb Hva Hha Hn hiddens [] g Hs)
    as (h' & y & g' & E & Hs' & Hy).
  exists y, h', g'. split; [|done].
  unfold update_layers in E. unfold update_layers_scan_step. unfold bind in *.
  destruct (update_odd_layers hiddens _ _ _ _ _ _ _ _ _ g) as [[h1 g1]|e]; [|done].
  by rewrite E.
Qed.

(** X10: With at least one walkback, on an input and parameters shaped after the
    layer sizes, [build_gsn_scan] returns: the sample is a batch of the
    input's shape and the last cost is the cost of that sample against [X]. *)
Theorem build_gsn_scan_returns (B walkbacks : nat) ls X weights_list bias_list
    add_noise noiseless_h1 sigma p input_sampling va ha
    (cost_function : tensor R → tensor R → R) g :
  1 ≤ walkbacks → 1 < length ls →
  (∀ n, ls !! 0 = Some n → has_shape B n X) →
  weights_ok ls weights_list → biases_ok ls bias_list →
  keeps_shape va → keeps_shape ha → noise_keeps_shape →
  ∃ x_sample cost g',
    build_gsn_scan X weights_list bias_list
      add_noise noiseless_h1 sigma p input_sampling va ha walkbacks cost_function g
    = Ok ((x_sample, cost, cost_function x_sample X), g')
    ∧ (∀ n, ls !! 0 = Some n → has_shape B n x_sample).
Proof.
  intros HK HL HX Hw Hb Hva Hha Hn.
  destruct (build_gsn_ok B ls weights_list bias_list add_noise noiseless_h1
              input_sampling sigma p va ha HL Hw Hb Hva Hha Hn walkbacks X g HX)
    as (chain & h & g' & E & Hlen & Hsh & _).
  destruct (last_of_length chain) as [x Hx]; [lia|].
  exists x, (numpy_sum ((λ rX, cost_function rX X) <$> chain)), g'.
  rewrite build_gsn_scan_eq, E, Hx. split; [done|].
  intros n En. specialize (Hsh n En). rewrite Forall_forall in Hsh.
  apply Hsh. rewrite last_lookup in Hx. by eapply list_elem_of_lookup_2.
Qed.

(** X11: With at least one walkback, on a hidden state and parameters shaped
    after the layer sizes, [build_gsn_pxh] returns a batch of the input's
    shape. *)
Theorem build_gsn_pxh_returns (B walkbacks : nat) ls hiddens weights_list bias_list
    add_noise noiseless_h1 sigma p input_sampling va ha g :
  1 ≤ walkbacks → 1 < length ls → shaped B ls hiddens →
  weights_ok ls weights_list → biases_ok ls bias_list →
  keeps_shape va → keeps_shape ha → noise_keeps_shape →
  ∃ x_sample g',
    build_gsn_pxh hiddens weights_list bias_list
      add_noise noiseless_h1 sigma p input_sampling va ha walkbacks g
    = Ok (x_sample, g')
    ∧ (∀ n, ls !! 0 = Some n → has_shape B n x_sample).
Proof.
  intros HK HL Hs Hw Hb Hva Hha Hn.
  destruct (walkbacks_ok B ls
              (λ hiddens chain,
                 update_layers hiddens weights_list bias_list chain
                   add_noise noiseless_h1 sigma p input_sampling va ha)
              (update_layers_ok B ls weights_list bias_list add_noise noiseless_h1
                 input_sampling sigma p va ha HL Hw Hb Hva Hha Hn)
              walkbacks 0 hiddens [] g Hs)
    as (h1 & c & g1 & E1 & Hs1 & Hc & Hcs).
  destruct (last_of_length c) as [x Hx]; [lia|].
  exists x, g1. unfold build_gsn_pxh, bind. simpl in E1. rewrite E1.
  cbn [fst snd iter lift]. unfold getlast. rewrite Hx. split; [done|].
  intros n En. specialize (Hcs n En). rewrite Forall_forall in Hcs.
  apply Hcs. rewrite last_lookup in Hx. by eapply list_elem_of_lookup_2.
Qed.

End VariantsOk.

(** * Further properties of the model object *)

(** ** The constructor, case by case *)


Lemma resolve_cases {F} (registry : string → result F) (a : callable_or_name F) :
  (∃ f, resolved registry a f)
  ∨ a = Neither
  ∨ (∃ s e, a = Name s ∧ registry s = Raise e).
Proof.
  destruct a as [f|s|].
  - left. by exists f.
  - destruct (registry s) as [f|e] eqn:E.
    + left. by exists f.
    + right. right. by exists s, e.
  - right. by left.
Qed.

Section Constructor.
Context {R level MRG : Type} `{Scalar R} `{Noise R level MRG} `{Utils R}.
Implicit Types (self : Self.t R level MRG) (t : tensor R).
Implicit Types (args : Args.t R level).

(** On a configuration whose output path, input dimension, activations and
    cost function are found, the constructor is the graph build on the
    initial attributes, after the walkback check. *)
Lemma init_resolved args inputs_hook hiddens_hook dataset X_value c N ha va cf :
  last_char (Args.output_path args) = Ok c →
  input_dimension args inputs_hook dataset = Some N →
  resolved get_activation_function (Args.hidden_activation args) ha →
  resolved get_activation_function (Args.visible_activation args) va →
  resolved get_cost_function (Args.cost_function args) cf →
  __init__ args inputs_hook hiddens_hook dataset X_value
  = (build_computation_graph
       (initial_model args
          (if Ascii.eqb c "/"%char then Args.output_path args
           else String.append (Args.output_path args) "/"%string)
          N ha va cf (model_input inputs_hook X_value))
       hiddens_hook,
     if Args.walkbacks args <? recommended_walkbacks (Args.layers args)
     then [{| level_of := WARNING; msg := not_enough_walkbacks;
              args := [Args.layers args; Args.walkbacks args] |}]
     else []).
Proof.
  intros Ec Hdim Hha Hva Hcf.
  unfold __init__. rewrite Ec. cbn [mbind result_bind rbind].
  rewrite lbind_llift_Ok.
  rewrite (input_dimension_lret _ _ _ _ _ Hdim), lbind_lret.
  rewrite walkbacks_warning.
  rewrite (resolved_lret _ _ _ _ Hha), lbind_lret.
  rewrite (resolved_lret _ _ _ _ Hva), lbind_lret.
  rewrite (resolved_lret _ _ _ _ Hcf), lbind_lret.
  set (ls := [N] ++ replicate (Args.layers args) (Args.hidden_size args)).
  rewrite (comprehension_fmap _
             (λ i, get_weights_uniform (nth i ls 0, nth (i + 1) ls 0) i)).
  2:{ intros i Hi. apply elem_of_seq in Hi.
      destruct (lookup_lt_is_Some_2 ls i) as [a Ea].
      { unfold ls. rewrite length_app, length_replicate. simpl. lia. }
      destruct (lookup_lt_is_Some_2 ls (i + 1)) as [b Eb].
      { unfold ls. rewrite length_app, length_replicate. simpl. lia. }
      rewrite (getitem_Some _ _ _ Ea). cbn [mbind result_bind rbind].
      rewrite (getitem_Some _ _ _ Eb). cbn [mbind result_bind rbind].
      by rewrite (nth_lookup_Some _ _ _ _ Ea), (nth_lookup_Some _ _ _ _ Eb). }
  rewrite lbind_llift_Ok.
  rewrite (comprehension_fmap _ (λ i, get_bias (nth i ls 0))).
  2:{ intros i Hi. apply elem_of_seq in Hi.
      destruct (lookup_lt_is_Some_2 ls i) as [a Ea].
      { unfold ls. rewrite length_app, length_replicate. simpl. lia. }
      rewrite (getitem_Some _ _ _ Ea). cbn [mbind result_bind rbind].
      by rewrite (nth_lookup_Some _ _ _ _ Ea). }
  rewrite lbind_llift_Ok.
  unfold initial_model. fold ls. unfold model_input, lbind, llift.
  by destruct (build_computation_graph _ _); rewrite app_nil_r.
Qed.

Ltac init_prefix Ec Hdim :=
  unfold __init__; rewrite Ec; cbn [mbind result_bind rbind];
  rewrite lbind_llift_Ok;
  rewrite (input_dimension_lret _ _ _ _ _ Hdim), lbind_lret;
  rewrite walkbacks_warning;
  rewrite (lbind_Ok _ _ tt _ eq_refl); cbv beta.

(** A lookup that fails ends the constructor with the lookup's exception
    and records, after those of the walkback check. *)
Lemma init_fails_hidden args inputs_hook hiddens_hook dataset X_value c N e l :
  last_char (Args.output_path args) = Ok c →
  input_dimension args inputs_hook dataset = Some N →
  match Args.hidden_activation args with
  | Callable f => lret f
  | Name s => llift (get_activation_function s)
  | Neither => do _ := log CRITICAL "Missing a hidden activation function!"%string []
               in lraise NotImplementedError
  end = (Raise e, l) →
  __init__ args inputs_hook hiddens_hook dataset X_value
  = (Raise e,
     (if Args.walkbacks args <? recommended_walkbacks (Args.layers args)
      then [{| level_of := WARNING; msg := not_enough_walkbacks;
               args := [Args.layers args; Args.walkbacks args] |}]
      else []) ++ l).
Proof. intros Ec Hdim Hf. init_prefix Ec Hdim. by rewrite Hf. Qed.

Lemma init_fails_visible args inputs_hook hiddens_hook dataset X_value c N ha e l :
  last_char (Args.output_path args) = Ok c →
  input_dimension args inputs_hook dataset = Some N →
  resolved get_activation_function (Args.hidden_activation args) ha →
  match Args.visible_activation args with
  | Callable f => lret f
  | Name s => llift (get_activation_function s)
  | Neither => do _ := log CRITICAL "Missing a visible activation function!"%string []
               in lraise NotImplementedError
  end = (Raise e, l) →
  __init__ args inputs_hook hiddens_hook dataset X_value
  = (Raise e,
     (if Args.walkbacks args <? recommended_walkbacks (Args.layers args)
      then [{| level_of := WARNING; msg := not_enough_walkbacks;
               args := [Args.layers args; Args.walkbacks args] |}]
      else []) ++ l).
Proof.
  intros Ec Hdim Hha Hf. init_prefix Ec Hdim.
  rewrite (resolved_lret _ _ _ _ Hha), lbind_lret. by rewrite Hf.
Qed.

Lemma init_fails_cost args inputs_hook hiddens_hook dataset X_value c N ha va e l :
  last_char (Args.output_path args) = Ok c →
  input_dimension args inputs_hook dataset = Some N →
  resolved get_activation_function (Args.hidden_activation args) ha →
  resolved get_activation_function (Args.visible_activation args) va →
  match Args.cost_function args with
  | Callable f => lret f
  | Name s => llift (get_cost_function s)
  | Neither => do _ := log CRITICAL "Missing a cost function!"%string []
               in lraise NotImplementedError
  end = (Raise e, l) →
  __init__ args inputs_hook hiddens_hook dataset X_value
  = (Raise e,
     (if Args.walkbacks args <? recommended_walkbacks (Args.layers args)
      then [{| level_of := WARNING; msg := not_enough_walkbacks;
               args := [Args.layers args; Args.walkbacks args] |}]
      else []) ++ l).
Proof.
  intros Ec Hdim Hha Hva Hf. init_prefix Ec Hdim.
  rewrite (resolved_lret _ _ _ _ Hha), lbind_lret.
  rewrite (resolved_lret _ _ _ _ Hva), lbind_lret. by rewrite Hf.
Qed.

Lemma init_fails_dimension args inputs_hook hiddens_hook dataset X_value c :
  last_char (Args.output_path args) = Ok c →
  input_dimension args inputs_hook dataset = None →
  __init__ args inputs_hook hiddens_hook dataset X_value
  = (Raise AssertionError,
     [{| level_of := CRITICAL; msg := missing_input_size; args := [] |}]).
Proof.
  intros Ec Hdim. unfold __init__. rewrite Ec. cbn [mbind result_bind rbind].
  rewrite lbind_llift_Ok. unfold input_dimension in Hdim.
  destruct inputs_hook; [done|]. destruct dataset; [done|]. by rewrite Hdim.
Qed.

Lemma init_fails_path args inputs_hook hiddens_hook dataset X_value e :
  last_char (Args.output_path args) = Raise e →
  __init__ args inputs_hook hiddens_hook dataset X_value = (Raise e, []).
Proof. intros Ec. unfold __init__. by rewrite Ec. Qed.

(** X12: An empty output path: the constructor raises IndexError on
    [self.outdir[-1]] before it reads anything else or logs anything. *)
Theorem constructor_empty_output_path args inputs_hook hiddens_hook dataset X_value :
  Args.output_path args = ""%string →
  __init__ args inputs_hook hiddens_hook dataset X_value = (Raise IndexError, []).
Proof. intros Hp. apply init_fails_path. by rewrite Hp. Qed.

(** X13: Configuration errors are logged once, at CRITICAL, with a message that
    names what is missing, after the walkback warning when there is one; the
    checks run in the order input size, hidden activation, visible
    activation, cost function, and the first that fails ends the
    constructor. *)
Theorem constructor_error_log args inputs_hook hiddens_hook dataset X_value :
  Args.output_path args ≠ ""%string →
  let warning :=
    if Args.walkbacks args <? recommended_walkbacks (Args.layers args)
    then [{| level_of := WARNING; msg := not_enough_walkbacks;
             args := [Args.layers args; Args.walkbacks args] |}]
    else [] in
  (input_dimension args inputs_hook dataset = None →
   __init__ args inputs_hook hiddens_hook dataset X_value
   = (Raise AssertionError,
      [{| level_of := CRITICAL; msg := missing_input_size; args := [] |}]))
  ∧ (is_Some (input_dimension args inputs_hook dataset) →
     Args.hidden_activation args = Neither →
     __init__ args inputs_hook hiddens_hook dataset X_value
     = (Raise NotImplementedError,
        warning ++ [{| level_of := CRITICAL;
                       msg := "Missing a hidden activation function!"%string;
                       args := [] |}]))
  ∧ (∀ ha, is_Some (input_dimension args inputs_hook dataset) →
     resolved get_activation_function (Args.hidden_activation args) ha →
     Args.visible_activation args = Neither →
     __init__ args inputs_hook hiddens_hook dataset X_value
     = (Raise NotImplementedError,
        warning ++ [{| level_of := CRITICAL;
                       msg := "Missing a visible activation function!"%string;
                       args := [] |}]))
  ∧ (∀ ha va, is_Some (input_dimension args inputs_hook dataset) →
     resolved get_activation_function (Args.hidden_activation args) ha →
     resolved get_activation_function (Args.visible_activation args) va →
     Args.cost_function args = Neither →
     __init__ args inputs_hook hiddens_hook dataset X_value
     = (Raise NotImplementedError,
        warning ++ [{| level_of := CRITICAL;
                       msg := "Missing a cost function!"%string;
                       args := [] |}])).
Proof.
  intros Hpath warning. destruct (last_char_nonempty _ Hpath) as [c Ec].
  split; [|split; [|split]].
  - intros Hdim. by apply (init_fails_dimension _ _ _ _ _ c).
  - intros [N Hdim] Hn. apply (init_fails_hidden _ _ _ _ _ c N); [done|done|].
    by rewrite Hn.
  - intros ha [N Hdim] Hha Hn. apply (init_fails_visible _ _ _ _ _ c N ha); try done.
    by rewrite Hn.
  - intros ha va [N Hdim] Hha Hva Hn.
    apply (init_fails_cost _ _ _ _ _ c N ha va); try done. by rewrite Hn.
Qed.

(** X14: A name the registry does not know: the registry's exception leaves the
    constructor unchanged, and no CRITICAL record is logged for it. *)
Theorem constructor_propagates_registry_errors
    args inputs_hook hiddens_hook dataset X_value s e :
  Args.output_path args ≠ ""%string →
  is_Some (input_dimension args inputs_hook dataset) →
  let warning :=
    if Args.walkbacks args <? recommended_walkbacks (Args.layers args)
    then [{| level_of := WARNING; msg := not_enough_walkbacks;
             args := [Args.layers args; Args.walkbacks args] |}]
    else [] in
  (Args.hidden_activation args = Name s → get_activation_function s = Raise e →
   __init__ args inputs_hook hiddens_hook dataset X_value = (Raise e, warning))
  ∧ (∀ ha, resolved get_activation_function (Args.hidden_activation args) ha →
     Args.visible_activation args = Name s → get_activation_function s = Raise e →
     __init__ args inputs_hook hiddens_hook dataset X_value = (Raise e, warning))
  ∧ (∀ ha va, resolved get_activation_function (Args.hidden_activation args) ha →
     resolved get_activation_function (Args.visible_activation args) va →
     Args.cost_function args = Name s → get_cost_function s = Raise e →
     __init__ args inputs_hook hiddens_hook dataset X_value = (Raise e, warning)).
Proof.
  intros Hpath [N Hdim] warning. destruct (last_char_nonempty _ Hpath) as [c Ec].
  split; [|split].
  - intros Hn He. rewrite <- (app_nil_r warning).
    apply (init_fails_hidden _ _ _ _ _ c N); [done|done|]. by rewrite Hn, He.
  - intros ha Hha Hn He. rewrite <- (app_nil_r warning).
    apply (init_fails_visible _ _ _ _ _ c N ha); try done. by rewrite Hn, He.
  - intros ha va Hha Hva Hn He. rewrite <- (app_nil_r warning).
    apply (init_fails_cost _ _ _ _ _ c N ha va); try done. by rewrite Hn, He.
Qed.

End Constructor.

(** ** What the builders return, whenever they return *)

Lemma bind_inv {G A B} (m : M G A) (k : A → M G B) (r : G) (b : B) (r' : G) :
  bind m k r = Ok (b, r') → ∃ a r1, m r = Ok (a, r1) ∧ k a r1 = Ok (b, r').
Proof.
  unfold bind. destruct (m r) as [[a r1]|e]; [|done]. intros E. by exists a, r1.
Qed.

Lemma lift_inv {G A} (x : result A) (r : G) (a : A) (r' : G) :
  lift x r = Ok (a, r') → x = Ok a ∧ r' = r.
Proof. unfold lift. destruct x; [|done]. by intros [= <- <-]. Qed.

Lemma ret_inv {G A} (x : A) (r : G) (a : A) (r' : G) :
  ret x r = Ok (a, r') → a = x ∧ r' = r.
Proof. by intros [= <- <-]. Qed.

Lemma getlast_inv {A} (l : list A) (x : A) : getlast l = Ok x → last l = Some x.
Proof. unfold getlast. destruct (last l); [|done]. by intros [= <-]. Qed.

Lemma iter_inv {A} (c : option (list A)) (l : list A) :
  match c with Some chain => Ok chain | None => Raise TypeError end = Ok l → c = Some l.
Proof. destruct c; [|done]. by intros [= <-]. Qed.

Section Returns.
Context {R level MRG : Type} `{Scalar R} `{Noise R level MRG}.
Implicit Types (hiddens weights_list : list (tensor R)) (bias_list : list (vector R)).
Implicit Types (p_X_chain : option (list (tensor R))) (g : MRG).

Lemma init_hiddens_length X_init weights_list hiddens :
  init_hiddens X_init weights_list = Ok hiddens →
  length hiddens = length weights_list + 1 ∧ hiddens !! 0 = Some X_init.
Proof.
  unfold init_hiddens.
  assert (∀ acc, acc !! 0 = Some X_init →
            rfor_each weights_list
              (λ w hiddens, h ← getlast hiddens; d ← dot h w; Ok (hiddens ++ [zeros_like d]))
              acc = Ok hiddens →
            length hiddens = length weights_list + length acc
            ∧ hiddens !! 0 = Some X_init) as Hloop.
  { induction weights_list as [|w ws IH]; intros acc Hacc E.
    - injection E as <-. done.
    - simpl in E. destruct (getlast acc) as [h|e]; [|done]. simpl in E.
      destruct (dot h w) as [d|e]; [|done]. simpl in E.
      apply IH in E as [Hl H0'].
      + rewrite length_app in Hl. simpl in *. split; [lia|done].
      + rewrite lookup_app_l; [done|]. by apply lookup_lt_Some in Hacc. }
  intros E. by apply (Hloop [X_init]) in E.
Qed.

Lemma update_layers_inv hiddens weights_list bias_list p_X_chain
    add_noise noiseless_h1 sigma p input_sampling va ha g hiddens' chain' g' :
  hiddens ≠ [] →
  update_layers hiddens weights_list bias_list p_X_chain
    add_noise noiseless_h1 sigma p input_sampling va ha g
  = Ok ((hiddens', chain'), g') →
  length hiddens' = length hiddens
  ∧ ∃ c y, p_X_chain = Some c ∧ chain' = Some (c ++ [y]).
Proof.
  intros Hne E. unfold update_layers in E.
  apply bind_inv in E as (h1 & g1 & Eo & Ee).
  apply update_odd_layers_frame in Eo as [Hl1 _].
  apply update_even_layers_frame in Ee as (Hl2 & _ & c & v & -> & _ & ->).
  - split; [lia|]. by eexists _, _.
  - intros ->. destruct hiddens; [done|]. simpl in Hl1. lia.
Qed.

Lemma update_layers_reverse_inv hiddens weights_list bias_list p_X_chain
    add_noise noiseless_h1 sigma p input_sampling va ha g hiddens' chain' g' :
  hiddens ≠ [] →
  update_layers_reverse hiddens weights_list bias_list p_X_chain
    add_noise noiseless_h1 sigma p input_sampling va ha g
  = Ok ((hiddens', chain'), g') →
  length hiddens' = length hiddens
  ∧ ∃ c y, p_X_chain = Some c ∧ chain' = Some (c ++ [y]).
Proof.
  intros Hne E. unfold update_layers_reverse in E.
  apply bind_inv in E as ([h1 c1] & g1 & Ee & E).
  apply bind_inv in E as (h2 & g2 & Eo & E). apply ret_inv in E as [[= <- <-] _].
  apply update_odd_layers_frame in Eo as [Hl2 _].
  apply update_even_layers_frame in Ee as (Hl1 & _ & c & v & -> & _ & ->); [|done].
  cbn [fst snd] in *. split; [lia|]. by eexists _, _.
Qed.

(** Walkbacks that ran to the end appended one entry each. *)
Lemma walkbacks_inv
    (step : list (tensor R) → option (list (tensor R)) →
            M MRG (list (tensor R) * option (list (tensor R)))) :
  (∀ hiddens p_X_chain g hiddens' chain' g',
     hiddens ≠ [] → step hiddens p_X_chain g = Ok ((hiddens', chain'), g') →
     length hiddens' = length hiddens
     ∧ ∃ c y, p_X_chain = Some c ∧ chain' = Some (c ++ [y])) →
  ∀ walkbacks start hiddens c g hiddens' chain' g',
    hiddens ≠ [] →
    for_each (seq start walkbacks) (λ _ st, step st.1 st.2) (hiddens, Some c) g
    = Ok ((hiddens', chain'), g') →
    length hiddens' = length hiddens
    ∧ ∃ ys, chain' = Some (c ++ ys) ∧ length ys = walkbacks.
Proof.
  intros Hstep walkbacks.
  induction walkbacks as [|k IH]; intros start hiddens c g hiddens' chain' g' Hne E.
  - apply ret_inv in E as [[= -> ->] _]. split; [done|]. exists []. by rewrite app_nil_r.
  - simpl in E. apply bind_inv in E as ([h1 c1] & g1 & E1 & E). cbn [fst snd] in E1.
    apply Hstep in E1 as (Hl1 & c0 & y & [= <-] & ->); [|done].
    apply IH in E as (Hl & ys & -> & Hys).
    + split; [lia|]. exists (y :: ys). rewrite <- app_assoc. simpl. split; [done|lia].
    + intros ->. destruct hiddens; [done|]. simpl in Hl1. lia.
Qed.

Lemma build_gsn_inv X weights_list bias_list
    add_noise noiseless_h1 sigma p input_sampling va ha walkbacks g c hiddens g' :
  build_gsn X weights_list bias_list
    add_noise noiseless_h1 sigma p input_sampling va ha walkbacks g
  = Ok ((c, hiddens), g') →
  length hiddens = length weights_list + 1
  ∧ ∃ chain, c = Some chain ∧ length chain = walkbacks.
Proof.
  intros E. unfold build_gsn in E.
  apply bind_inv in E as (X_init & g0 & _ & E).
  apply bind_inv in E as (h0 & g1 & E0 & E). apply lift_inv in E0 as [E0 ->].
  apply init_hiddens_length in E0 as [Hl0 H0'].
  apply bind_inv in E as ([h1 c1] & g2 & E1 & E). apply ret_inv in E as [[= <- <-] _].
  apply (walkbacks_inv
           (λ hiddens chain,
              update_layers hiddens weights_list bias_list chain
                add_noise noiseless_h1 sigma p input_sampling va ha)) in E1
    as (Hl1 & ys & -> & Hys).
  - cbn [fst snd]. split; [lia|]. by exists ys.
  - intros. by eapply update_layers_inv.
  - intros ->. simpl in Hl0. lia.
Qed.

Lemma build_gsn_needs_layers X bias_list
    add_noise noiseless_h1 sigma p input_sampling va ha walkbacks g :
  1 ≤ walkbacks →
  build_gsn X [] bias_list
    add_noise noiseless_h1 sigma p input_sampling va ha walkbacks g = Raise IndexError.
Proof.
  intros HK. destruct walkbacks as [|k]; [lia|]. unfold build_gsn, bind.
  destruct ((if add_noise then draw (salt_and_pepper X p) else ret X) g)
    as [[X_init g0]|e] eqn:EX.
  2:{ by destruct add_noise. }
  cbn [init_hiddens rfor_each lift seq for_each fst snd]. unfold bind.
  by rewrite update_layers_singleton.
Qed.

(** X15: Whenever [build_gsn] returns, whatever the shapes of its arguments, the
    chain has exactly [walkbacks] entries and the hidden list has one entry
    more than there are weights; and with at least one walkback it returns
    only if there is at least one weight matrix. *)
Theorem build_gsn_returned_lengths X weights_list bias_list
    add_noise noiseless_h1 sigma p input_sampling va ha walkbacks g c hiddens g' :
  build_gsn X weights_list bias_list
    add_noise noiseless_h1 sigma p input_sampling va ha walkbacks g
  = Ok ((c, hiddens), g') →
  length hiddens = length weights_list + 1
  ∧ (∃ chain, c = Some chain ∧ length chain = walkbacks)
  ∧ (1 ≤ walkbacks → weights_list ≠ []).
Proof.
  intros E. pose proof (build_gsn_inv _ _ _ _ _ _ _ _ _ _ _ _ _ _ _ E) as [Hl Hc].
  split; [done|]. split; [done|]. intros HK ->.
  by rewrite build_gsn_needs_layers in E.
Qed.

Lemma build_gsn_given_hiddens_inv X hiddens weights_list bias_list
    add_noise noiseless_h1 sigma p input_sampling va ha walkbacks
    (cost_function : tensor R → tensor R → R) g c hiddens' cost show_cost g' :
  build_gsn_given_hiddens X hiddens weights_list bias_list
    add_noise noiseless_h1 sigma p input_sampling va ha walkbacks cost_function g
  = Ok ((c, hiddens', cost, show_cost), g') →
  1 ≤ walkbacks ∧ 2 ≤ length hiddens ∧ length hiddens' = length hiddens
  ∧ ∃ chain rX, c = Some chain ∧ length chain = walkbacks ∧ last chain = Some rX
                ∧ cost = numpy_sum ((λ rX, cost_function rX X) <$> chain)
                ∧ show_cost = cost_function rX X.
Proof.
  intros E. unfold build_gsn_given_hiddens in E.
  apply bind_inv in E as ([h1 c1] & g1 & E1 & E). cbn [fst snd] in E.
  apply bind_inv in E as (chain & g2 & Ec & E). apply lift_inv in Ec as [Ec ->].
  apply iter_inv in Ec as ->.
  apply bind_inv in E as (sc & g3 & Es & E). apply lift_inv in Es as [Es ->].
  apply ret_inv in E as [[= -> -> -> ->] _].
  apply getlast_inv in Es. rewrite fmap_last in Es.
  destruct (last chain) as [rX|] eqn:El; [|done]. injection Es as <-.
  destruct hiddens as [|x rest].
  { rewrite reverse_walkbacks_nil in E1. injection E1 as _ <- _. done. }
  pose proof E1 as Erun.
  apply (walkbacks_inv
           (λ hiddens chain,
              update_layers_reverse hiddens weights_list bias_list chain
                add_noise noiseless_h1 sigma p input_sampling va ha)) in E1
    as (Hl1 & ys & [= ->] & Hys); [| |done].
  2:{ intros. by eapply update_layers_reverse_inv. }
  assert (1 ≤ walkbacks) as HK.
  { rewrite <- Hys. destruct ys; [done|]. simpl. lia. }
  split; [done|]. split; [|split; [done|by exists ys, rX]].
  destruct rest as [|y rest]; [exfalso|simpl; lia].
  destruct walkbacks as [|k]; [lia|]. simpl in Erun.
  apply bind_inv in Erun as (st & g2 & Erev & _). cbn [fst snd] in Erev.
  unfold update_layers_reverse in Erev. apply bind_inv in Erev as (st' & g3 & Ee & _).
  by rewrite update_even_layers_singleton in Ee.
Qed.

(** X16: Whenever [build_gsn_given_hiddens] returns, whatever the shapes of its
    arguments: there was at least one walkback and the hidden state has at
    least two layers; the hidden list has kept its length; the chain has
    exactly [walkbacks] entries; the total cost is the sum of the costs of
    the chain entries and the last cost is that of the last entry. *)
Theorem build_gsn_given_hiddens_returned X hiddens weights_list bias_list
    add_noise noiseless_h1 sigma p input_sampling va ha walkbacks
    (cost_function : tensor R → tensor R → R) g c hiddens' cost show_cost g' :
  build_gsn_given_hiddens X hiddens weights_list bias_list
    add_noise noiseless_h1 sigma p input_sampling va ha walkbacks cost_function g
  = Ok ((c, hiddens', cost, show_cost), g') →
  1 ≤ walkbacks ∧ 2 ≤ length hiddens ∧ length hiddens' = length hiddens
  ∧ ∃ chain rX, c = Some chain ∧ length chain = walkbacks ∧ last chain = Some rX
                ∧ cost = numpy_sum ((λ rX, cost_function rX X) <$> chain)
                ∧ show_cost = cost_function rX X.
Proof. apply build_gsn_given_hiddens_inv. Qed.

End Returns.

(** ** What building the graphs needs and leaves *)

Section Graphs.
Context {R level MRG : Type} `{Scalar R} `{Noise R level MRG} `{Utils R}.
Implicit Types (self : Self.t R level MRG) (t : tensor R).

Lemma unpack_hiddens_length self t h_list :
  unpack_hiddens self t = Ok h_list →
  length h_list = length (Self.weights_list self) + 1.
Proof.
  unfold unpack_hiddens, enumerate.
  assert (∀ (l : list (nat * tensor R)) acc,
            rfor_each l
              (λ iw h_list,
                 let idx := iw.1 in
                 let w := iw.2 in
                 if negb (idx mod 2 =? 0) then
                   h ← getlast h_list; d ← dot h w; Ok (h_list ++ [zeros_like d])
                 else
                   a ← getitem (Self.layer_sizes self) idx;
                   b ← getitem (Self.layer_sizes self) (idx + 1);
                   Ok (h_list ++ [transpose (getslice (transpose t)
                                               ((idx / 2) * a) ((idx / 2 + 1) * b))]))
              acc = Ok h_list →
            length h_list = length l + length acc) as Hloop.
  { induction l as [|[idx w] l IH]; intros acc E.
    - by injection E as <-.
    - cbn [rfor_each fst snd] in E. cbv zeta in E.
      destruct (negb (idx mod 2 =? 0)).
      + destruct (getlast acc) as [h|e]; [|done]. simpl in E.
        destruct (dot h w) as [d|e]; [|done]. simpl in E.
        apply IH in E. rewrite length_app in E. simpl in *. lia.
      + destruct (getitem (Self.layer_sizes self) idx) as [a|e]; [|done]. simpl in E.
        destruct (getitem (Self.layer_sizes self) (idx + 1)) as [b|e]; [|done].
        simpl in E. apply IH in E. rewrite length_app in E. simpl in *. lia. }
  intros E. apply Hloop in E.
  rewrite length_zip_with, length_seq in E. simpl in E. lia.
Qed.

Lemma build_computation_graph_inv self hiddens_hook self' :
  build_computation_graph self hiddens_hook = Ok self' →
  1 ≤ Self.walkbacks self ∧ Self.weights_list self ≠ []
  ∧ ∃ g show_cost cost monitor output hiddens,
      length hiddens = length (Self.weights_list self) + 1
      ∧ self' = set_graph self g show_cost cost monitor output hiddens
                  match hiddens_hook with
                  | None =>
                      Some (λ input,
                              let* r := build_gsn input (Self.weights_list self)
                                          (Self.bias_list self)
                                          false (Self.noiseless_h1 self)
                                          (Self.hidden_add_noise_sigma self)
                                          (Self.input_salt_and_pepper self)
                                          (Self.input_sampling self)
                                          (Self.visible_activation self)
                                          (Self.hidden_activation self)
                                          (Self.walkbacks self) in
                              let* chain := lift (iter (fst r)) in
                              lift (getlast chain))
                  | Some _ => None
                  end.
Proof.
  intros E. unfold build_computation_graph in E. cbv zeta in E.
  match type of E with
  | match ?x with _ => _ end = _ =>
      destruct x as [[[[[[[sc co] mo] o] h] fp] g]|e] eqn:EG
  end; [|done].
  injection E as <-.
  apply bind_inv in EG as (p_X_chain & g1 & E1 & EG).
  apply bind_inv in EG as ([c2 h2] & g2 & E2 & EG). cbn [fst snd] in EG.
  apply bind_inv in EG as (chain & g3 & Ec & EG). apply lift_inv in Ec as [Ec ->].
  apply iter_inv in Ec as ->.
  apply bind_inv in EG as (sc' & g3 & Es & EG). apply lift_inv in Es as [Es ->].
  apply getlast_inv in Es. rewrite fmap_last in Es.
  destruct (last chain) as [rX|] eqn:El; [|done].
  apply bind_inv in EG as (chain_recon & g3 & Ec & EG). apply lift_inv in Ec as [Ec ->].
  apply bind_inv in EG as (mo' & g3 & _ & EG).
  apply bind_inv in EG as (o' & g4 & _ & EG).
  apply ret_inv in EG as [[= -> -> -> -> -> ->] _].
  assert (1 ≤ length chain) as Hc1 by (destruct chain; [done|simpl; lia]).
  destruct hiddens_hook as [hook|].
  - apply bind_inv in E1 as (h0 & g5 & Eu & E1). apply lift_inv in Eu as [Eu ->].
    apply bind_inv in E1 as ([[[c1 h1] t1] s1] & g5 & E1 & Er).
    apply ret_inv in Er as [[= <-] _].
    apply build_gsn_given_hiddens_inv in E1 as (HK & Hh0 & _).
    apply bind_inv in E2 as (h0' & g6 & Eu' & E2). apply lift_inv in Eu' as [Eu' ->].
    apply bind_inv in E2 as ([[[c3 h3] t3] s3] & g6 & E2 & Er).
    apply ret_inv in Er as [[= <- <-] _].
    apply build_gsn_given_hiddens_inv in E2 as (_ & _ & Hh3 & _).
    pose proof (unpack_hiddens_length _ _ _ Eu) as Hu.
    pose proof (unpack_hiddens_length _ _ _ Eu') as Hu'.
    split; [done|]. split.
    + intros Hw. rewrite Hw in Hu. simpl in Hu. lia.
    + eexists _, _, _, _, _, _. split; [|reflexivity]. lia.
  - apply bind_inv in E1 as ([c1 h1] & g5 & E1 & Er). apply ret_inv in Er as [[= <-] _].
    pose proof E1 as E1'.
    apply build_gsn_inv in E1 as (_ & chain' & [= <-] & HK).
    apply build_gsn_inv in E2 as (Hh2 & _).
    split; [lia|]. split.
    + intros Hw. rewrite Hw in E1'. rewrite build_gsn_needs_layers in E1'; [done|lia].
    + eexists _, _, _, _, _, _. split; [|reflexivity]. done.
Qed.

Lemma set_graph_fields self g show_cost cost monitor output hiddens f_predict :
  let self' := set_graph self g show_cost cost monitor output hiddens f_predict in
  Self.outdir self' = Self.outdir self
  ∧ Self.N_input self' = Self.N_input self
  ∧ Self.layers self' = Self.layers self
  ∧ Self.walkbacks self' = Self.walkbacks self
  ∧ Self.hidden_size self' = Self.hidden_size self
  ∧ Self.layer_sizes self' = Self.layer_sizes self
  ∧ Self.X self' = Self.X self
  ∧ Self.weights_list self' = Self.weights_list self
  ∧ Self.bias_list self' = Self.bias_list self.
Proof. done. Qed.

Lemma build_gsn_given_hiddens_singleton X h0 weights_list bias_list
    add_noise noiseless_h1 sigma p input_sampling va ha walkbacks
    (cost_function : tensor R → tensor R → R) (g : MRG) :
  build_gsn_given_hiddens X [h0] weights_list bias_list
    add_noise noiseless_h1 sigma p input_sampling va ha walkbacks cost_function g
  = Raise IndexError.
Proof.
  unfold build_gsn_given_hiddens. destruct walkbacks as [|k]; [done|].
  cbn [seq for_each]. unfold bind, update_layers_reverse, bind. cbn [fst snd].
  by rewrite update_even_layers_singleton.
Qed.

(** Without weights the graphs cannot be built. *)
Lemma build_computation_graph_needs_layers self hiddens_hook :
  Self.weights_list self = [] →
  build_computation_graph self hiddens_hook = Raise IndexError.
Proof.
  intros Hw. unfold build_computation_graph. cbv zeta. rewrite Hw.
  destruct hiddens_hook as [hook|].
  - assert (unpack_hiddens self hook.2 = Ok [zeros_like (Self.X self)]) as Hu
      by (unfold unpack_hiddens; by rewrite Hw).
    unfold bind, lift. rewrite Hu.
    by rewrite build_gsn_given_hiddens_singleton.
  - destruct (Self.walkbacks self) as [|k] eqn:HK.
    + unfold bind, build_gsn, bind, draw, lift, ret. simpl.
      by destruct (salt_and_pepper _ _ _).
    + unfold bind. rewrite build_gsn_needs_layers; [done|lia].
Qed.

(** Without walkbacks the chains are empty and the costs cannot be read. *)
Lemma build_computation_graph_needs_walkbacks self hiddens_hook :
  Self.walkbacks self = 0 →
  ∃ e, build_computation_graph self hiddens_hook = Raise e.
Proof.
  intros HK.
  destruct (build_computation_graph self hiddens_hook) as [self'|e] eqn:E;
    [|by exists e].
  apply build_computation_graph_inv in E as [HK' _]. lia.
Qed.

End Graphs.

(** ** What the constructor leaves *)

Section Constructed.
Context {R level MRG : Type} `{Scalar R} `{Noise R level MRG} `{Utils R}.
Implicit Types (self : Self.t R level MRG) (t : tensor R).
Implicit Types (args : Args.t R level).

Lemma init_inv args inputs_hook hiddens_hook dataset X_value self logs :
  __init__ args inputs_hook hiddens_hook dataset X_value = (Ok self, logs) →
  ∃ c N ha va cf,
    last_char (Args.output_path args) = Ok c
    ∧ input_dimension args inputs_hook dataset = Some N
    ∧ resolved get_activation_function (Args.hidden_activation args) ha
    ∧ resolved get_activation_function (Args.visible_activation args) va
    ∧ resolved get_cost_function (Args.cost_function args) cf
    ∧ build_computation_graph
        (initial_model args
           (if Ascii.eqb c "/"%char then Args.output_path args
            else String.append (Args.output_path args) "/"%string)
           N ha va cf (model_input inputs_hook X_value))
        hiddens_hook = Ok self
    ∧ logs = (if Args.walkbacks args <? recommended_walkbacks (Args.layers args)
              then [{| level_of := WARNING; msg := not_enough_walkbacks;
                       args := [Args.layers args; Args.walkbacks args] |}]
              else []).
Proof.
  intros E.
  destruct (last_char (Args.output_path args)) as [c|e] eqn:Ec.
  2:{ by rewrite (init_fails_path _ _ _ _ _ _ Ec) in E. }
  destruct (input_dimension args inputs_hook dataset) as [N|] eqn:Hdim.
  2:{ by rewrite (init_fails_dimension _ _ _ _ _ _ Ec Hdim) in E. }
  destruct (resolve_cases get_activation_function (Args.hidden_activation args))
    as [[ha Hha]|[Hn|(s & e & Hn & He)]].
  2:{ rewrite (init_fails_hidden _ _ _ _ _ c N NotImplementedError
                 [{| level_of := CRITICAL;
                     msg := "Missing a hidden activation function!"%string;
                     args := [] |}]) in E; [done|done|done|by rewrite Hn]. }
  2:{ rewrite (init_fails_hidden _ _ _ _ _ c N e []) in E;
        [done|done|done|by rewrite Hn, He]. }
  destruct (resolve_cases get_activation_function (Args.visible_activation args))
    as [[va Hva]|[Hn|(s & e & Hn & He)]].
  2:{ rewrite (init_fails_visible _ _ _ _ _ c N ha NotImplementedError
                 [{| level_of := CRITICAL;
                     msg := "Missing a visible activation function!"%string;
                     args := [] |}]) in E; [done|done|done|done|by rewrite Hn]. }
  2:{ rewrite (init_fails_visible _ _ _ _ _ c N ha e []) in E;
        [done|done|done|done|by rewrite Hn, He]. }
  destruct (resolve_cases get_cost_function (Args.cost_function args))
    as [[cf Hcf]|[Hn|(s & e & Hn & He)]].
  2:{ rewrite (init_fails_cost _ _ _ _ _ c N ha va NotImplementedError
                 [{| level_of := CRITICAL;
                     msg := "Missing a cost function!"%string;
                     args := [] |}]) in E; [done|done|done|done|done|by rewrite Hn]. }
  2:{ rewrite (init_fails_cost _ _ _ _ _ c N ha va e []) in E;
        [done|done|done|done|done|by rewrite Hn, He]. }
  rewrite (init_resolved _ _ _ _ _ c N ha va cf Ec Hdim Hha Hva Hcf) in E.
  injection E as E <-. by exists c, N, ha, va, cf.
Qed.






End Constructed.

(** ** Packed hidden states as hooks *)

Section Hooks.
Context {R level MRG : Type} `{Scalar R} `{Noise R level MRG} `{Utils R}.
Implicit Types (self : Self.t R level MRG) (t : tensor R).

(** Packing a well-shaped hidden state gives a tensor as wide as the odd
    layers together, whose blocks of columns are the odd layers. *)
Lemma pack_hiddens_shaped self B (h : list (tensor R)) :
  well_formed self → shaped B (Self.layer_sizes self) h →
  ∃ packed,
    pack_hiddens self h = Ok packed
    ∧ has_shape B (odd_width (Self.layer_sizes self)) packed
    ∧ ∀ k x, every_other false h !! k = Some x →
             slice_cols packed (k * Self.hidden_size self)
               ((k + 1) * Self.hidden_size self) = x.
Proof.
  intros Hwf Hs. pose proof Hwf as (HL & Hls & _ & _).
  set (hs := Self.hidden_size self) in *. set (L := Self.layers self) in *.
  pose proof (shaped_length _ _ _ Hs) as Hlen.
  rewrite Hls, length_app, length_replicate in Hlen. simpl in Hlen.
  pose proof (Nat.Div0.div_mod (L + 1) 2) as HLd.
  pose proof (Nat.mod_upper_bound (L + 1) 2 ltac:(done)) as HLm.
  assert (Forall (has_shape B hs) (every_other false h)) as Hodd.
  { unfold shaped in Hs. rewrite Hls in Hs. simpl in Hs.
    destruct h as [|h0 rest]; [done|]. apply Forall2_cons_1 in Hs as [_ Hs].
    cbn [every_other negb]. apply every_other_Forall.
    apply Forall_lookup. intros i x Hx.
    destruct (Forall2_lookup_l _ _ _ _ _ Hs Hx) as (n & Hn & Hxn).
    apply lookup_replicate in Hn as [-> _]. done. }
  assert (length (every_other false h) = (L + 1) / 2) as Hlo.
  { rewrite every_other_length, Hlen. f_equal. lia. }
  destruct (concatenate_uniform (every_other false h) B hs) as (T & ET & HT & Hsl);
    [|done|].
  { intros E. rewrite E in Hlo. simpl in Hlo. lia. }
  rewrite Hlo in HT. exists T. split; [by rewrite pack_hiddens_eq|].
  split; [by rewrite Hls, odd_width_schedule|done].
Qed.

(** Unpacking what was packed gives back the odd layers. *)
Lemma unpack_pack_agree self B (h : list (tensor R)) :
  well_formed self → shaped B (Self.layer_sizes self) h →
  ∃ packed h',
    pack_hiddens self h = Ok packed
    ∧ unpack_hiddens self packed = Ok h'
    ∧ length h' = length h
    ∧ ∀ i, i mod 2 = 1 → h' !! i = h !! i.
Proof.
  intros Hwf Hs. pose proof Hwf as (HL & Hls & _ & _).
  destruct (pack_hiddens_shaped self B h Hwf Hs) as (T & ET & HT & Hsl).
  set (hs := Self.hidden_size self) in *. set (L := Self.layers self) in *.
  pose proof (shaped_length _ _ _ Hs) as Hlen.
  rewrite Hls, length_app, length_replicate in Hlen. simpl in Hlen.
  pose proof (unpack_hiddens_eq self B T Hwf HT) as EU. fold hs L in EU.
  set (f := λ idx : nat,
         if negb (idx mod 2 =? 0) then zeros B hs
         else slice_cols T (idx / 2 * hs) ((idx / 2 + 1) * hs)) in EU.
  exists T, (zeros_like (Self.X self) :: (f <$> seq 0 L)).
  split; [done|]. split; [done|]. split.
  - simpl. rewrite length_fmap, length_seq. lia.
  - intros [|idx] Hi; [done|].
    change ((f <$> seq 0 L) !! idx = h !! S idx).
    assert (idx mod 2 = 0) as Hev.
    { pose proof (Nat.Div0.div_mod idx 2). pose proof (Nat.Div0.div_mod (S idx) 2).
      pose proof (Nat.mod_upper_bound idx 2). lia. }
    rewrite list_lookup_fmap.
    destruct (decide (idx < L)) as [Hlt|Hge].
    + rewrite lookup_seq_lt by done. simpl. unfold f. rewrite Hev. simpl.
      destruct (lookup_lt_is_Some_2 h (S idx)) as [x Hx]; [lia|].
      rewrite Hx. f_equal. apply Hsl. rewrite every_other_lookup, <- Hx. f_equal.
      pose proof (Nat.Div0.div_mod idx 2). lia.
    + rewrite lookup_seq_ge by lia. simpl. symmetry. apply lookup_ge_None_2. lia.
Qed.

(** X20: Handing a hidden state over in packed form loses nothing that
    [build_gsn_given_hiddens] uses: on a well-formed model and a hidden
    state [h] shaped after its layer sizes, the graph built from
    [unpack_hiddens (pack_hiddens h)] is the graph built from [h] itself,
    for every input, every setting of the flags and every generator state. *)
Theorem packed_hiddens_build_the_same_graph self B (h : list (tensor R))
    X add_noise noiseless_h1 sigma p input_sampling va ha walkbacks
    (cost_function : tensor R → tensor R → R) :
  well_formed self → shaped B (Self.layer_sizes self) h →
  ∃ packed h',
    pack_hiddens self h = Ok packed
    ∧ unpack_hiddens self packed = Ok h'
    ∧ ∀ g, build_gsn_given_hiddens X h' (Self.weights_list self) (Self.bias_list self)
             add_noise noiseless_h1 sigma p input_sampling va ha walkbacks
             cost_function g
           = build_gsn_given_hiddens X h (Self.weights_list self) (Self.bias_list self)
               add_noise noiseless_h1 sigma p input_sampling va ha walkbacks
               cost_function g.
Proof.
  intros Hwf Hs.
  destruct (unpack_pack_agree self B h Hwf Hs) as (packed & h' & Ep & Eu & Hl & Hodd).
  exists packed, h'. split; [done|]. split; [done|]. intros g.
  unfold build_gsn_given_hiddens. destruct walkbacks as [|k]; [done|].
  unfold bind at 1 4. rewrite <- cons_seq.
  rewrite (for_each_first 0 _ _ (h', Some []) (h, Some [])); [done|].
  by apply update_layers_reverse_reads.
Qed.

End Hooks.

(** ** Configurations without layers or walkbacks, and built models *)

Section Built.
Context {R level MRG : Type} `{Scalar R} `{Noise R level MRG} `{Utils R}.
Implicit Types (self : Self.t R level MRG) (t : tensor R).
Implicit Types (args : Args.t R level).

(** X21: A configuration with no hidden layer: whatever the input and the hooks,
    the constructor raises IndexError (the visible layer has no layer above
    it to be updated from) and logs nothing. *)
Theorem constructor_without_layers args inputs_hook hiddens_hook dataset X_value
    N ha va cf :
  Args.output_path args ≠ ""%string →
  input_dimension args inputs_hook dataset = Some N →
  resolved get_activation_function (Args.hidden_activation args) ha →
  resolved get_activation_function (Args.visible_activation args) va →
  resolved get_cost_function (Args.cost_function args) cf →
  Args.layers args = 0 →
  __init__ args inputs_hook hiddens_hook dataset X_value = (Raise IndexError, []).
Proof.
  intros Hpath Hdim Hha Hva Hcf HL.
  destruct (last_char_nonempty _ Hpath) as [c Ec].
  rewrite (init_resolved _ _ _ _ _ c N ha va cf Ec Hdim Hha Hva Hcf).
  rewrite build_computation_graph_needs_layers.
  - by rewrite HL.
  - cbn [initial_model Self.weights_list]. by rewrite HL.
Qed.

Lemma build_computation_graph_zero_walkbacks self hiddens_hook B :
  well_formed self → Self.walkbacks self = 0 →
  has_shape B (Self.N_input self) (Self.X self) →
  keeps_shape (Self.visible_activation self) →
  keeps_shape (Self.hidden_activation self) →
  noise_keeps_shape →
  (∀ hook : nat * tensor R, hiddens_hook = Some hook →
     has_shape B (odd_width (Self.layer_sizes self)) hook.2) →
  build_computation_graph self hiddens_hook = Raise IndexError.
Proof.
  intros Hwf HK HX Hva Hha Hnoise Hhook.
  pose proof Hwf as (HL & Hls & Hw & Hb).
  assert (1 < length (Self.layer_sizes self)) as Hlen.
  { rewrite Hls, length_app, length_replicate. simpl. lia. }
  assert (∀ n, Self.layer_sizes self !! 0 = Some n →
               has_shape B n (Self.X self)) as HX'.
  { intros n Hn. rewrite Hls in Hn. by injection Hn as <-. }
  unfold build_computation_graph. cbv zeta. rewrite HK.
  destruct hiddens_hook as [hook|].
  - destruct (unpack_hiddens_shaped self B hook.2 Hwf HX (Hhook hook eq_refl))
      as (h0 & Eh0 & Hs0).
    unfold bind, lift. by rewrite Eh0.
  - destruct (build_gsn_ok B (Self.layer_sizes self)
                (Self.weights_list self) (Self.bias_list self)
                true (Self.noiseless_h1 self) (Self.input_sampling self)
                (Self.hidden_add_noise_sigma self) (Self.input_salt_and_pepper self)
                (Self.visible_activation self) (Self.hidden_activation self)
                Hlen Hw Hb Hva Hha Hnoise 0 (Self.X self) (Self.MRG self) HX')
      as (c1 & h1 & g1 & E1 & Hc1 & _).
    destruct (build_gsn_ok B (Self.layer_sizes self)
                (Self.weights_list self) (Self.bias_list self)
                false (Self.noiseless_h1 self) (Self.input_sampling self)
                (Self.hidden_add_noise_sigma self) (Self.input_salt_and_pepper self)
                (Self.visible_activation self) (Self.hidden_activation self)
                Hlen Hw Hb Hva Hha Hnoise 0 (Self.X self) g1 HX')
      as (c2 & h2 & g2 & E2 & Hc2 & _).
    destruct c1; [|done]. unfold bind, lift, ret. rewrite E1. cbn [fst snd].
    by rewrite E2.
Qed.

(** X22: An otherwise valid configuration with no walkback: the constructor logs
    the walkback warning and raises IndexError (there is no cost to read
    from an empty chain). *)
Theorem constructor_without_walkbacks args inputs_hook hiddens_hook dataset X_value
    B N ha va cf :
  Args.output_path args ≠ ""%string →
  input_dimension args inputs_hook dataset = Some N →
  resolved get_activation_function (Args.hidden_activation args) ha →
  resolved get_activation_function (Args.visible_activation args) va →
  resolved get_cost_function (Args.cost_function args) cf →
  keeps_shape ha → keeps_shape va → noise_keeps_shape → initialisers_ok →
  1 ≤ Args.layers args → Args.walkbacks args = 0 →
  has_shape B N (model_input inputs_hook X_value) →
  (∀ hook : nat * tensor R, hiddens_hook = Some hook →
     has_shape B
       (odd_width ([N] ++ replicate (Args.layers args) (Args.hidden_size args)))
       hook.2) →
  __init__ args inputs_hook hiddens_hook dataset X_value
  = (Raise IndexError,
     [{| level_of := WARNING; msg := not_enough_walkbacks;
         args := [Args.layers args; 0] |}]).
Proof.
  intros Hpath Hdim Hha Hva Hcf Hkha Hkva Hnoise Hinit HL HK HX Hhook.
  destruct (last_char_nonempty _ Hpath) as [c Ec].
  rewrite (init_resolved _ _ _ _ _ c N ha va cf Ec Hdim Hha Hva Hcf).
  rewrite (build_computation_graph_zero_walkbacks _ _ B); try done.
  - rewrite HK. f_equal.
    assert ((0 <? recommended_walkbacks (Args.layers args)) = true) as ->; [|done].
    apply Nat.ltb_lt. unfold recommended_walkbacks.
    destruct (Args.layers args mod 2 =? 0); lia.
  - by apply initial_model_well_formed.
Qed.

Lemma last_Forall {A} (P : A → Prop) (l : list A) x :
  Forall P l → last l = Some x → P x.
Proof.
  intros Hl Hx. rewrite Forall_forall in Hl. apply Hl.
  rewrite last_lookup in Hx. by eapply list_elem_of_lookup_2.
Qed.

(** On a well-formed model and a well-shaped input the graphs build, the
    output has the shape of the input and the hidden representation is
    shaped after the layer sizes. *)
Lemma build_computation_graph_shapes self hiddens_hook B :
  well_formed self → 1 ≤ Self.walkbacks self →
  has_shape B (Self.N_input self) (Self.X self) →
  keeps_shape (Self.visible_activation self) →
  keeps_shape (Self.hidden_activation self) →
  noise_keeps_shape →
  (∀ hook : nat * tensor R, hiddens_hook = Some hook →
     has_shape B (odd_width (Self.layer_sizes self)) hook.2) →
  ∃ g show_cost cost monitor output hiddens f_predict,
    build_computation_graph self hiddens_hook
    = Ok (set_graph self g show_cost cost monitor output hiddens f_predict)
    ∧ has_shape B (Self.N_input self) output
    ∧ shaped B (Self.layer_sizes self) hiddens.
Proof.
  intros Hwf HK HX Hva Hha Hnoise Hhook.
  pose proof Hwf as (HL & Hls & Hw & Hb).
  assert (1 < length (Self.layer_sizes self)) as Hlen.
  { rewrite Hls, length_app, length_replicate. simpl. lia. }
  assert (Self.layer_sizes self !! 0 = Some (Self.N_input self)) as H0'
    by (by rewrite Hls).
  assert (∀ n, Self.layer_sizes self !! 0 = Some n →
               has_shape B n (Self.X self)) as HX'.
  { intros n Hn. rewrite H0' in Hn. by injection Hn as <-. }
  unfold build_computation_graph. destruct hiddens_hook as [hook|].
  - destruct (unpack_hiddens_shaped self B hook.2 Hwf HX (Hhook hook eq_refl))
      as (h0 & Eh0 & Hs0).
    destruct (build_gsn_given_hiddens_ok B (Self.layer_sizes self)
                (Self.weights_list self) (Self.bias_list self)
                true (Self.noiseless_h1 self) (Self.input_sampling self)
                (Self.hidden_add_noise_sigma self) (Self.input_salt_and_pepper self)
                (Self.visible_activation self) (Self.hidden_activation self)
                Hlen Hw Hb Hva Hha Hnoise (Self.walkbacks self)
                (Self.cost_function self) (Self.X self) h0 (Self.MRG self) HK Hs0)
      as (c1 & r1 & h1 & g1 & E1 & _ & Hc1 & Hl1 & _).
    destruct (build_gsn_given_hiddens_ok B (Self.layer_sizes self)
                (Self.weights_list self) (Self.bias_list self)
                false (Self.noiseless_h1 self) (Self.input_sampling self)
                (Self.hidden_add_noise_sigma self) (Self.input_salt_and_pepper self)
                (Self.visible_activation self) (Self.hidden_activation self)
                Hlen Hw Hb Hva Hha Hnoise (Self.walkbacks self)
                (Self.cost_function self) (Self.X self) h0 g1 HK Hs0)
      as (c2 & r2 & h2 & g2 & E2 & _ & Hc2 & Hl2 & Hsh2 & Hs2).
    unfold bind, lift, ret. rewrite Eh0, E1. cbn [fst snd]. rewrite E2.
    cbn [fst snd iter].
    rewrite (getlast_fmap_Some _ _ _ Hl1), (getlast_fmap_Some _ _ _ Hl2).
    unfold getlast. rewrite Hl2.
    eexists _, _, _, _, _, _, _. split; [done|]. split; [|done].
    by apply (last_Forall _ c2 r2 (Hsh2 _ H0')).
  - destruct (build_gsn_ok B (Self.layer_sizes self)
                (Self.weights_list self) (Self.bias_list self)
                true (Self.noiseless_h1 self) (Self.input_sampling self)
                (Self.hidden_add_noise_sigma self) (Self.input_salt_and_pepper self)
                (Self.visible_activation self) (Self.hidden_activation self)
                Hlen Hw Hb Hva Hha Hnoise (Self.walkbacks self)
                (Self.X self) (Self.MRG self) HX')
      as (c1 & h1 & g1 & E1 & Hc1 & _).
    destruct (build_gsn_ok B (Self.layer_sizes self)
                (Self.weights_list self) (Self.bias_list self)
                false (Self.noiseless_h1 self) (Self.input_sampling self)
                (Self.hidden_add_noise_sigma self) (Self.input_salt_and_pepper self)
                (Self.visible_activation self) (Self.hidden_activation self)
                Hlen Hw Hb Hva Hha Hnoise (Self.walkbacks self)
                (Self.X self) g1 HX')
      as (c2 & h2 & g2 & E2 & Hc2 & Hsh2 & Hs2).
    destruct (last_of_length c1) as [r1 Hl1]; [lia|].
    destruct (last_of_length c2) as [r2 Hl2]; [lia|].
    unfold bind, lift, ret. rewrite E1. cbn [fst snd]. rewrite E2.
    cbn [fst snd iter].
    rewrite (getlast_fmap_Some _ _ _ Hl1), (getlast_fmap_Some _ _ _ Hl2).
    unfold getlast. rewrite Hl2.
    eexists _, _, _, _, _, _, _. split; [done|]. split; [|done].
    by apply (last_Forall _ c2 r2 (Hsh2 _ H0')).
Qed.

(** X23: A model built from a valid configuration: [get_outputs] returns a batch
    of the shape of the input, [get_hiddens] returns a tensor of [B] rows as
    wide as the odd layers together, neither logs anything; and, when there
    is no hiddens hook, [predict] returns for every input batch of [N]
    columns, of any number of rows, a reconstruction of the shape of that
    input, and logs nothing. *)
Theorem built_model_shapes args inputs_hook hiddens_hook dataset X_value
    B N ha va cf :
  Args.output_path args ≠ ""%string →
  input_dimension args inputs_hook dataset = Some N →
  resolved get_activation_function (Args.hidden_activation args) ha →
  resolved get_activation_function (Args.visible_activation args) va →
  resolved get_cost_function (Args.cost_function args) cf →
  keeps_shape ha → keeps_shape va → noise_keeps_shape → initialisers_ok →
  1 ≤ Args.layers args → 1 ≤ Args.walkbacks args →
  has_shape B N (model_input inputs_hook X_value) →
  (∀ hook : nat * tensor R, hiddens_hook = Some hook →
     has_shape B
       (odd_width ([N] ++ replicate (Args.layers args) (Args.hidden_size args)))
       hook.2) →
  ∃ self logs,
    __init__ args inputs_hook hiddens_hook dataset X_value = (Ok self, logs)
    ∧ (∃ output, get_outputs self = (Ok output, []) ∧ has_shape B N output)
    ∧ (∃ packed, get_hiddens self = (Ok packed, [])
                 ∧ has_shape B (odd_width (Self.layer_sizes self)) packed)
    ∧ (hiddens_hook = None →
       ∀ B' input g, has_shape B' N input →
         ∃ out g', predict self input g = (Ok (out, g'), [])
                   ∧ has_shape B' N out).
Proof.
  intros Hpath Hdim Hha Hva Hcf Hkha Hkva Hnoise Hinit HL HK HX Hhook.
  destruct (last_char_nonempty _ Hpath) as [c Ec].
  set (outdir := if Ascii.eqb c "/"%char then Args.output_path args
                 else String.append (Args.output_path args) "/"%string).
  set (self0 := initial_model (MRG:=MRG) args outdir N ha va cf
                  (model_input inputs_hook X_value)).
  pose proof (initial_model_well_formed args outdir N ha va cf
                (model_input inputs_hook X_value) Hinit HL) as Hwf.
  fold self0 in Hwf.
  destruct (build_computation_graph_shapes self0 hiddens_hook B Hwf HK HX Hkva Hkha
              Hnoise Hhook)
    as (g & sc & co & mo & o & h & fp & Eg & Ho & Hh).
  pose proof (build_computation_graph_inv _ _ _ Eg) as (_ & _ & Hinv).
  destruct Hinv as (g' & sc' & co' & mo' & o' & h' & _ & Hset).
  exists (set_graph self0 g sc co mo o h fp). eexists. split.
  { rewrite (init_resolved _ _ _ _ _ c N ha va cf Ec Hdim Hha Hva Hcf).
    fold outdir self0. by rewrite Eg. }
  split; [by exists o|]. split.
  - assert (well_formed (set_graph self0 g sc co mo o h fp)) as Hwf' by exact Hwf.
    destruct (pack_hiddens_shaped (set_graph self0 g sc co mo o h fp) B h Hwf' Hh)
      as (packed & Ep & Hp & _).
    exists packed. split; [|done]. unfold get_hiddens. cbn [set_graph Self.hiddens].
    unfold llift. by rewrite Ep.
  - intros -> B' input g0 Hin.
    assert (fp = Self.f_predict (set_graph self0 g sc co mo o h fp)) as Hfp by done.
    rewrite Hset in Hfp. cbn [set_graph Self.f_predict] in Hfp.
    pose proof Hwf as (_ & Hls & Hw & Hb).
    assert (1 < length (Self.layer_sizes self0)) as Hlen.
    { rewrite Hls, length_app, length_replicate. simpl. lia. }
    assert (Self.layer_sizes self0 !! 0 = Some N) as H0' by (by rewrite Hls).
    destruct (build_gsn_ok B' (Self.layer_sizes self0)
                (Self.weights_list self0) (Self.bias_list self0)
                false (Self.noiseless_h1 self0) (Self.input_sampling self0)
                (Self.hidden_add_noise_sigma self0) (Self.input_salt_and_pepper self0)
                (Self.visible_activation self0) (Self.hidden_activation self0)
                Hlen Hw Hb Hkva Hkha Hnoise (Self.walkbacks self0) input g0)
      as (chain & hs & g1 & E & Hc & Hsh & _).
    { intros n Hn. rewrite H0' in Hn. by injection Hn as <-. }
    destruct (last_of_length chain) as [out Hout]; [cbn in Hc; lia|].
    exists out, g1. split; [|by apply (last_Forall _ chain out (Hsh _ H0'))].
    unfold predict. cbn [set_graph Self.f_predict]. rewrite Hfp.
    unfold llift, bind, lift. rewrite E. cbn [fst snd iter].
    unfold getlast. by rewrite Hout.
Qed.

End Built.

(** ** What packing reads, and the passes without noise in closed form *)

Lemma every_other_reads {A} (l l' : list A) :
  (∀ i, i mod 2 = 1 → l !! i = l' !! i) → every_other false l = every_other false l'.
Proof.
  intros Hodd. apply list_eq. intros k. rewrite !every_other_lookup.
  apply Hodd. replace (2 * k + 1) with (1 + k * 2) by lia.
  by rewrite Nat.Div0.mod_add.
Qed.

(** A loop that ran to the end has established, for the elements it went
    through, what each step establishes. *)
Lemma for_each_prefix {G E S} (P : list E → S → Prop) (f : E → S → M G S) (l : list E) :
  (∀ pre i s r s' r', i ∈ l → P pre s → f i s r = Ok (s', r') → P (pre ++ [i]) s') →
  ∀ pre s r s' r', P pre s → for_each l f s r = Ok (s', r') → P (pre ++ l) s'.
Proof.
  induction l as [|x l IH]; intros Hf pre s r s' r' HP Erun.
  - apply ret_inv in Erun as [-> _]. by rewrite app_nil_r.
  - simpl in Erun. apply bind_inv in Erun as (s1 & r1 & E1 & Erun).
    replace (pre ++ x :: l) with ((pre ++ [x]) ++ l) by (by rewrite <- app_assoc).
    eapply (IH (λ pre i s r s' r' Hi, Hf pre i s r s' r' (list_elem_of_further _ _ _ Hi)));
      [|exact Erun].
    eapply Hf; [left|exact HP|exact E1].
Qed.

Section ClosedForms.
Context {R level MRG : Type} `{Scalar R} `{Noise R level MRG} `{Utils R}.
Implicit Types (hiddens weights_list : list (tensor R)) (bias_list : list (vector R)).
Implicit Types (p_X_chain : option (list (tensor R))) (g : MRG).

(** X24: [pack_hiddens] reads the odd-indexed layers only, and nothing of the
    model: hidden lists that agree on their odd-indexed entries are packed
    alike by any two models. *)
Theorem pack_hiddens_reads_odd_layers (self self' : Self.t R level MRG)
    (h h' : list (tensor R)) :
  (∀ i, i mod 2 = 1 → h !! i = h' !! i) →
  pack_hiddens self h = pack_hiddens self' h'.
Proof. intros Hodd. by rewrite !pack_hiddens_eq, (every_other_reads h h'). Qed.

(** A hidden layer updated without noise is the activation of its
    pre-activation, and the generator is not touched. *)
Lemma simple_update_layer_noise_free hiddens weights_list bias_list p_X_chain i
    noiseless_h1 sigma p input_sampling va ha g hiddens' chain' g' :
  i ≠ 0 →
  simple_update_layer hiddens weights_list bias_list p_X_chain i
    false noiseless_h1 sigma p input_sampling va ha g = Ok ((hiddens', chain'), g') →
  ∃ v, pre_activation hiddens weights_list bias_list i = Ok v
       ∧ i < length hiddens
       ∧ hiddens' = <[i:=ha v]> hiddens ∧ chain' = p_X_chain ∧ g' = g.
Proof.
  intros Hi0 E.
  destruct (pre_activation hiddens weights_list bias_list i) as [v|e] eqn:Ev.
  2:{ by rewrite (simple_update_layer_raise _ _ _ _ _ _ _ _ _ _ _ _ _ _ Ev) in E. }
  destruct (decide (i < length hiddens)) as [Hi|Hi].
  2:{ by rewrite (simple_update_layer_beyond _ _ _ _ _ _ _ _ _ _ _ _ _ _ Ev Hi) in E. }
  rewrite (simple_update_layer_eq _ _ _ _ _ _ _ _ _ _ _ _ _ v Ev Hi) in E.
  cbv zeta in E. destruct (Nat.eqb_spec i 0) as [|_]; [done|].
  exists v. split; [done|]. split; [done|].
  destruct ((i =? 1) && noiseless_h1); cbn in E; by injection E as <- <- <-.
Qed.

(** X25: Without noise the odd pass is a parallel update: every odd layer becomes
    the hidden activation of its pre-activation in the state the pass
    started from, [ha (h_(i+1) W_i^T + h_(i-1) W_(i-1) + b_i)] (without the
    first term for the top layer), whatever the order of the updates, and
    nothing is drawn. *)
Theorem update_odd_layers_noise_free hiddens weights_list bias_list
    noiseless_h1 sigma p input_sampling va ha g hiddens' g' :
  update_odd_layers hiddens weights_list bias_list
    false noiseless_h1 sigma p input_sampling va ha g = Ok (hiddens', g') →
  g' = g
  ∧ ∀ i, i mod 2 = 1 → i < length hiddens →
      ∃ v, pre_activation hiddens weights_list bias_list i = Ok v
           ∧ hiddens' !! i = Some (ha v).
Proof.
  intros E. split.
  { destruct (update_odd_layers_quiet hiddens weights_list bias_list
                noiseless_h1 sigma p input_sampling va ha) as [r Hr].
    rewrite Hr in E. by apply lift_inv in E as [_ ->]. }
  unfold update_odd_layers in E.
  apply (for_each_prefix
           (λ pre (s : list (tensor R)),
              length s = length hiddens
              ∧ (∀ j, j mod 2 = 0 → s !! j = hiddens !! j)
              ∧ ∀ i, i ∈ pre →
                  ∃ v, pre_activation hiddens weights_list bias_list i = Ok v
                       ∧ s !! i = Some (ha v))
           _ _) with (pre := []) in E.
  - destruct E as (_ & _ & Hdone). intros i Hodd Hi. apply Hdone. simpl.
    apply range_2_elem_of; [|done]. split; [|done]. destruct i; [done|lia].
  - intros pre i s r s' r' Hi (Hl & Hev & Hdone) Estep.
    apply elem_of_range_2 in Hi as [Hi Hodd]. change (1 mod 2) with 1 in Hodd.
    apply bind_inv in Estep as ([s1 c1] & r1 & E1 & Er).
    apply ret_inv in Er as [-> _]. cbn [fst].
    apply simple_update_layer_noise_free in E1 as (v & Ev & Hlt & -> & _ & _); [|lia].
    destruct (proj1 (parity_neighbours i) Hodd) as [Hp Hn].
    rewrite (pre_activation_reads s hiddens) in Ev;
      [|done|by intros _; apply Hev|by apply Hev].
    rewrite length_insert. split; [done|]. split.
    + intros j Hj. rewrite list_lookup_insert_ne; [by apply Hev|].
      intros ->. rewrite Hj in Hodd. done.
    + intros i' Hi'. destruct (decide (i' = i)) as [->|Hne].
      * exists v. split; [done|]. by rewrite list_lookup_insert_eq by lia.
      * rewrite list_lookup_insert_ne by done. apply Hdone.
        apply elem_of_app in Hi' as [Hi'|Hi']; [done|].
        by apply list_elem_of_singleton in Hi'.
  - split; [done|]. split; [done|]. intros i Hi. by apply elem_of_nil in Hi.
Qed.

(** X26: Without noise on the hidden layers the even pass in closed form: the
    chain receives the visible activation of the pre-activation of the
    visible layer, [va (h_1 W_0^T + b_0)]; the visible layer becomes the
    salt-and-pepper corruption of that reconstruction (sampled first when
    [input_sampling] is set), which is all the pass draws; every other even
    layer becomes the hidden activation of its pre-activation in the state
    the pass started from. *)
Theorem update_even_layers_noise_free hiddens weights_list bias_list chain
    noiseless_h1 sigma p input_sampling va ha g hiddens' chain' g' :
  hiddens ≠ [] →
  update_even_layers hiddens weights_list bias_list (Some chain)
    false noiseless_h1 sigma p input_sampling va ha g = Ok ((hiddens', chain'), g') →
  ∃ v0,
    pre_activation hiddens weights_list bias_list 0 = Ok v0
    ∧ chain' = Some (chain ++ [va v0])
    ∧ (let sampled := if input_sampling then MRG_binomial (va v0) g else (va v0, g) in
       let corrupted := salt_and_pepper sampled.1 p sampled.2 in
       hiddens' !! 0 = Some corrupted.1 ∧ g' = corrupted.2)
    ∧ ∀ i, i mod 2 = 0 → 0 < i < length hiddens →
        ∃ v, pre_activation hiddens weights_list bias_list i = Ok v
             ∧ hiddens' !! i = Some (ha v).
Proof.
  intros Hne E. unfold update_even_layers in E.
  assert (0 < length hiddens) as Hpos by (destruct hiddens; [done|simpl; lia]).
  rewrite range_0_2 in E by done. cbn [for_each] in E.
  apply bind_inv in E as ([s1 c1] & g1 & E0 & E). cbn [fst snd] in E0.
  destruct (pre_activation hiddens weights_list bias_list 0) as [v0|e] eqn:Ev0.
  2:{ by rewrite (simple_update_layer_raise _ _ _ _ _ _ _ _ _ _ _ _ _ _ Ev0) in E0. }
  rewrite (simple_update_layer_eq _ _ _ _ _ _ _ _ _ _ _ _ _ v0 Ev0 Hpos) in E0.
  cbv zeta in E0. cbn [Nat.eqb negb andb fst snd] in E0.
  set (sampled := if input_sampling then MRG_binomial (va v0) g else (va v0, g)) in *.
  set (corrupted := salt_and_pepper sampled.1 p sampled.2) in *.
  injection E0 as <- <- <-.
  exists v0. split; [done|].
  set (body := λ i (st : list (tensor R) * option (list (tensor R))),
         simple_update_layer st.1 weights_list bias_list st.2 i
           false noiseless_h1 sigma p input_sampling va ha) in E.
  assert (g' = corrupted.2) as Hg.
  { destruct (for_each_pure (range 2 (length hiddens) 2) body) with
      (s := (<[0:=corrupted.1]> hiddens, Some (chain ++ [va v0]))) as [r Hr].
    - intros i st Hi. apply elem_of_range_2 in Hi as [Hi _].
      apply simple_update_layer_quiet. lia.
    - rewrite Hr in E. by apply lift_inv in E as [_ ->]. }
  apply (for_each_prefix
           (λ pre (st : list (tensor R) * option (list (tensor R))),
              st.2 = Some (chain ++ [va v0])
              ∧ length st.1 = length hiddens
              ∧ st.1 !! 0 = Some corrupted.1
              ∧ (∀ j, j mod 2 = 1 → st.1 !! j = hiddens !! j)
              ∧ ∀ i, i ∈ pre →
                  ∃ v, pre_activation hiddens weights_list bias_list i = Ok v
                       ∧ st.1 !! i = Some (ha v))
           _ _) with (pre := []) in E.
  - cbn [fst snd] in E. destruct E as (-> & _ & H0' & _ & Hdone).
    split; [done|]. split; [done|]. intros i Hev [Hi0 Hi]. apply Hdone. simpl.
    apply range_2_elem_of; [|done]. split; [|done].
    pose proof (Nat.Div0.div_mod i 2). lia.
  - intros pre i [s c] r [s' c'] r' Hi (Hc & Hl & H0' & Hodd & Hdone) Estep.
    cbn [fst snd] in *. subst c.
    apply elem_of_range_2 in Hi as [Hi Hev]. change (2 mod 2) with 0 in Hev.
    apply simple_update_layer_noise_free in Estep as (v & Ev & Hlt & -> & -> & _);
      [|lia].
    destruct (proj2 (parity_neighbours i) Hev) as [Hp Hn].
    rewrite (pre_activation_reads s hiddens) in Ev;
      [|done|by intros Hi0; apply Hodd, Hp|by apply Hodd].
    rewrite length_insert. split; [done|]. split; [done|]. split.
    { rewrite list_lookup_insert_ne by lia. done. }
    split.
    + intros j Hj. rewrite list_lookup_insert_ne; [by apply Hodd|].
      intros ->. rewrite Hj in Hev. done.
    + intros i' Hi'. destruct (decide (i' = i)) as [->|Hne'].
      * exists v. split; [done|]. by rewrite list_lookup_insert_eq by lia.
      * rewrite list_lookup_insert_ne by done. apply Hdone.
        apply elem_of_app in Hi' as [Hi'|Hi']; [done|].
        by apply list_elem_of_singleton in Hi'.
  - cbn [fst snd]. rewrite length_insert. split; [done|]. split; [done|].
    split; [by rewrite list_lookup_insert_eq|]. split.
    + intros j Hj. apply list_lookup_insert_ne. intros <-. done.
    + intros i Hi. by apply elem_of_nil in Hi.
Qed.

End ClosedForms.

(** ** Which graph feeds which attribute *)

Section Attributes.
Context {R level MRG : Type} `{Scalar R} `{Noise R level MRG} `{Utils R}.
Implicit Types (self : Self.t R level MRG) (t : tensor R).
Implicit Types (args : Args.t R level).

Lemma build_computation_graph_no_hook_inv self self' :
  build_computation_graph self None = Ok self' →
  ∃ chain hs g1 chain' hs' g2 rX out,
    build_gsn (Self.X self) (Self.weights_list self) (Self.bias_list self)
      true (Self.noiseless_h1 self) (Self.hidden_add_noise_sigma self)
      (Self.input_salt_and_pepper self) (Self.input_sampling self)
      (Self.visible_activation self) (Self.hidden_activation self)
      (Self.walkbacks self) (Self.MRG self)
    = Ok ((Some chain, hs), g1)
    ∧ build_gsn (Self.X self) (Self.weights_list self) (Self.bias_list self)
        false (Self.noiseless_h1 self) (Self.hidden_add_noise_sigma self)
        (Self.input_salt_and_pepper self) (Self.input_sampling self)
        (Self.visible_activation self) (Self.hidden_activation self)
        (Self.walkbacks self) g1
      = Ok ((Some chain', hs'), g2)
    ∧ last chain = Some rX ∧ last chain' = Some out
    ∧ Self.cost self'
      = Some (numpy_sum ((λ rX, Self.cost_function self rX (Self.X self)) <$> chain))
    ∧ Self.show_cost self' = Some (Self.cost_function self rX (Self.X self))
    ∧ Self.monitor self' = Some (Self.cost_function self out (Self.X self))
    ∧ Self.output self' = Some out
    ∧ Self.hiddens self' = Some hs'
    ∧ Self.MRG self' = g2.
Proof.
  intros E. unfold build_computation_graph in E. cbv zeta in E.
  match type of E with
  | match ?x with _ => _ end = _ =>
      destruct x as [[[[[[[sc co] mo] o] h] fp] g]|e] eqn:EG
  end; [|done].
  injection E as <-.
  apply bind_inv in EG as (p_X_chain & g1 & E1 & EG).
  apply bind_inv in EG as ([c2 h2] & g2 & E2 & EG). cbn [fst snd] in EG.
  apply bind_inv in EG as (chain & g3 & Ec & EG). apply lift_inv in Ec as [Ec ->].
  apply iter_inv in Ec as ->.
  apply bind_inv in EG as (sc' & g3 & Es & EG). apply lift_inv in Es as [Es ->].
  apply getlast_inv in Es. rewrite fmap_last in Es.
  destruct (last chain) as [rX|] eqn:El; [|done]. injection Es as <-.
  apply bind_inv in EG as (chain' & g3 & Ec & EG). apply lift_inv in Ec as [Ec ->].
  apply iter_inv in Ec as ->.
  apply bind_inv in EG as (mo' & g3 & Em & EG). apply lift_inv in Em as [Em ->].
  apply getlast_inv in Em. rewrite fmap_last in Em.
  destruct (last chain') as [out|] eqn:El'; [|done]. injection Em as <-.
  apply bind_inv in EG as (o' & g4 & Eo & EG). apply lift_inv in Eo as [Eo ->].
  apply getlast_inv in Eo. rewrite El' in Eo. injection Eo as <-.
  apply ret_inv in EG as [[= -> -> -> -> -> ->] ->].
  apply bind_inv in E1 as ([c1 h1] & g5 & E1 & Er). apply ret_inv in Er as [Hc1 ->].
  cbn [fst] in Hc1. subst c1.
  by exists chain, h1, g5, chain', h2, g2, rX, out.
Qed.

(** X27: In a model built without a hiddens hook, the training cost and
    [show_cost] come from the graph with noise ([add_noise = True], built
    first, from the generator seeded with 1): the cost is the sum of the
    costs of its [walkbacks] reconstructions against the input.  The output,
    the hidden representation and the monitor come from the graph without
    noise: the output is its last reconstruction. *)
Theorem graphs_feed_attributes args inputs_hook dataset X_value self logs :
  __init__ args inputs_hook None dataset X_value = (Ok self, logs) →
  ∃ chain hs g1 chain' hs' g2 rX out,
    build_gsn (Self.X self) (Self.weights_list self) (Self.bias_list self)
      true (Self.noiseless_h1 self) (Self.hidden_add_noise_sigma self)
      (Self.input_salt_and_pepper self) (Self.input_sampling self)
      (Self.visible_activation self) (Self.hidden_activation self)
      (Self.walkbacks self) (MRG_RandomStreams 1)
    = Ok ((Some chain, hs), g1)
    ∧ build_gsn (Self.X self) (Self.weights_list self) (Self.bias_list self)
        false (Self.noiseless_h1 self) (Self.hidden_add_noise_sigma self)
        (Self.input_salt_and_pepper self) (Self.input_sampling self)
        (Self.visible_activation self) (Self.hidden_activation self)
        (Self.walkbacks self) g1
      = Ok ((Some chain', hs'), g2)
    ∧ length chain = Self.walkbacks self ∧ length chain' = Self.walkbacks self
    ∧ last chain = Some rX ∧ last chain' = Some out
    ∧ get_train_cost self
      = Ok (numpy_sum ((λ rX, Self.cost_function self rX (Self.X self)) <$> chain))
    ∧ Self.show_cost self = Some (Self.cost_function self rX (Self.X self))
    ∧ get_outputs self = (Ok out, [])
    ∧ Self.monitor self = Some (Self.cost_function self out (Self.X self))
    ∧ Self.hiddens self = Some hs'
    ∧ get_inputs self = [model_input inputs_hook X_value].
Proof.
  intros E. apply init_inv in E
    as (c & N & ha & va & cf & Ec & Hdim & Hha & Hva & Hcf & E & _).
  pose proof (build_computation_graph_inv _ _ _ E)
    as (_ & _ & g & sc & co & mo & o & h & _ & Hself).
  apply build_computation_graph_no_hook_inv in E
    as (chain & hs & g1 & chain' & hs' & g2 & rX & out
        & E1 & E2 & Hl & Hl' & Hcost & Hshow & Hmon & Hout & Hhid & _).
  exists chain, hs, g1, chain', hs', g2, rX, out.
  pose proof (build_gsn_inv _ _ _ _ _ _ _ _ _ _ _ _ _ _ _ E1) as (_ & ? & [= <-] & Hc).
  pose proof (build_gsn_inv _ _ _ _ _ _ _ _ _ _ _ _ _ _ _ E2) as (_ & ? & [= <-] & Hc').
  rewrite Hself. cbn [set_graph]. rewrite Hself in Hcost, Hshow, Hmon, Hout, Hhid.
  cbn [set_graph Self.cost Self.show_cost Self.monitor Self.output Self.hiddens]
    in Hcost, Hshow, Hmon, Hout, Hhid.
  injection Hcost as ->. injection Hshow as ->. injection Hmon as ->.
  injection Hout as ->. injection Hhid as ->.
  by repeat split.
Qed.

End Attributes.

(** ** The visible state the builders return *)

Section VisibleState.
Context {R level MRG : Type} `{Scalar R} `{Noise R level MRG}.
Implicit Types (hiddens weights_list : list (tensor R)) (bias_list : list (vector R)).
Implicit Types (p_X_chain : option (list (tensor R))) (g : MRG).





End VisibleState.

(** ** What unpacking reads *)

Lemma rfor_each_ext_in {E S} (l : list E) (f f' : E → S → result S) (s : S) :
  (∀ x s, x ∈ l → f x s = f' x s) → rfor_each l f s = rfor_each l f' s.
Proof.
  revert s. induction l as [|x l IH]; intros s Hf; [done|].
  simpl. rewrite (Hf x s) by left. destruct (f' x s) as [s'|e]; [|done].
  simpl. apply IH. intros y s0 Hy. apply Hf. by right.
Qed.

Section Unpacking.
Context {R level MRG : Type} `{Scalar R}.
Implicit Types (self : Self.t R level MRG) (t : tensor R).

Lemma slice_cols_wf t lo hi : wf t → wf (slice_cols t lo hi).
Proof.
  intros Hwf. unfold wf, slice_cols. simpl.
  apply Forall_fmap. eapply Forall_impl; [exact Hwf|]. simpl. intros x Hx.
  rewrite length_take, length_drop. lia.
Qed.

Lemma slice_cols_prefix t (W lo hi : nat) :
  hi ≤ W → slice_cols (slice_cols t 0 W) lo hi = slice_cols t lo hi.
Proof.
  intros Hhi. unfold slice_cols. simpl. f_equal; [lia|].
  rewrite <- list_fmap_compose. apply list_fmap_ext. intros i r _. simpl.
  rewrite drop_0, Nat.sub_0_r.
  destruct (decide (lo ≤ hi)) as [Hlo|Hlo].
  - rewrite skipn_firstn_comm, take_take. f_equal. lia.
  - replace (hi - lo) with 0 by lia. by rewrite !take_0.
Qed.

(** X28: [unpack_hiddens] reads the first columns of the packed tensor only, as
    many as the odd layers are wide together: a tensor that is too wide is
    not refused, and its other columns are ignored. *)
Theorem unpack_hiddens_reads_leading_columns self t :
  well_formed self → wf t →
  unpack_hiddens self t
  = unpack_hiddens self (slice_cols t 0 (odd_width (Self.layer_sizes self))).
Proof.
  intros (HL & Hls & [Hlw _] & _) Hwf. unfold unpack_hiddens.
  apply rfor_each_ext_in. intros [idx w] h_list Hin. cbn [fst snd]. cbv zeta.
  destruct (negb (idx mod 2 =? 0)) eqn:Hpar; [done|].
  apply negb_false_iff, Nat.eqb_eq in Hpar.
  assert (idx < Self.layers self) as Hidx.
  { unfold enumerate in Hin. apply elem_of_zip_l in Hin. cbn [fst] in Hin.
    apply elem_of_seq in Hin.
    rewrite Hls, length_app, length_replicate in Hlw. simpl in Hlw. lia. }
  destruct (getitem (Self.layer_sizes self) idx) as [a|e] eqn:Ea; [|done].
  cbn [mbind result_bind rbind].
  destruct (getitem (Self.layer_sizes self) (idx + 1)) as [b|e] eqn:Eb; [|done].
  cbn [mbind result_bind rbind]. do 2 f_equal.
  assert (b = Self.hidden_size self) as ->.
  { unfold getitem in Eb. rewrite Hls in Eb. cbn [app] in Eb.
    replace (idx + 1) with (S idx) in Eb by lia.
    rewrite (schedule_lookup_S (Self.N_input self) _ (Self.hidden_size self) _ Hidx)
      in Eb.
    by injection Eb as <-. }
  rewrite !transpose_getslice_transpose by (try apply slice_cols_wf; done).
  symmetry. f_equal. apply slice_cols_prefix.
  rewrite Hls, odd_width_schedule. apply Nat.mul_le_mono_r.
  pose proof (Nat.Div0.div_mod idx 2).
  pose proof (Nat.Div0.div_mod (Self.layers self + 1) 2).
  pose proof (Nat.mod_upper_bound (Self.layers self + 1) 2). lia.
Qed.

End Unpacking.

(** * The further properties on explicit inputs *)

Section MoreInstances.
Import Rational Examples MoreExamples.
Local Open Scope Q_scope.

Ltac shape := unfold has_shape, nrows, wf; simpl; repeat split; repeat constructor.

Lemma h2_h2_odd_even_entries j : (j mod 2 = 0)%nat → h2 !! j = h2_odd !! j.
Proof. destruct j as [|[|[|j]]]; intros Hj; try reflexivity. vm_compute in Hj. discriminate Hj. Defined.

Lemma h2_h2_even_odd_entries j : (j mod 2 = 1)%nat → h2 !! j = h2_even !! j.
Proof.
  destruct j as [|[|[|j]]]; intros Hj; try reflexivity; vm_compute in Hj; discriminate Hj.
Defined.

Lemma update_layers_reads_even_layers_witness :
  update_layers h2 W2 b2 (Some []) true true 2 (2 # 5) true linear linear (lcg 64 1)
  = update_layers h2_odd W2 b2 (Some []) true true 2 (2 # 5) true linear linear (lcg 64 1)
  ∧ update_layers_scan_step h2 W2 b2 true true 2 (2 # 5) true linear linear (lcg 64 1)
    = update_layers_scan_step h2_odd W2 b2 true true 2 (2 # 5) true linear linear
        (lcg 64 1).
Proof.
  apply (update_layers_reads_even_layers h2 h2_odd W2 b2 (Some []));
    [reflexivity | exact h2_h2_odd_even_entries].
Defined.

Lemma build_gsn_pxh_reads_even_layers_witness :
  build_gsn_pxh h2 W2 b2 true true 2 (2 # 5) true linear linear 3 (lcg 64 1)
  = build_gsn_pxh h2_odd W2 b2 true true 2 (2 # 5) true linear linear 3 (lcg 64 1).
Proof.
  apply (build_gsn_pxh_reads_even_layers h2 h2_odd W2 b2);
    [reflexivity | exact h2_h2_odd_even_entries].
Defined.

Lemma build_gsn_given_hiddens_reads_odd_layers_witness :
  build_gsn_given_hiddens X2 h2 W2 b2 true true 2 (2 # 5) true linear linear 3
    square_error (lcg 64 1)
  = build_gsn_given_hiddens X2 h2_even W2 b2 true true 2 (2 # 5) true linear linear 3
      square_error (lcg 64 1).
Proof.
  apply (build_gsn_given_hiddens_reads_odd_layers X2 h2 h2_even W2 b2);
    [reflexivity | exact h2_h2_even_odd_entries].
Defined.

Lemma simple_update_layer_out_of_range_witness :
  simple_update_layer h2 W2 b2 (Some []) 3 true true 2 (2 # 5) true linear linear
    (lcg 64 1) = Raise IndexError
  ∧ simple_update_layer [X1] W1 b1 (Some []) 0 true true 2 (2 # 5) true linear linear
      (lcg 64 1) = Raise IndexError.
Proof.
  split.
  - apply (simple_update_layer_out_of_range h2 W2 b2 (Some []) 3). left. simpl. lia.
  - apply (simple_update_layer_out_of_range [X1] W1 b1 (Some []) 0). right. simpl. lia.
Defined.

Lemma update_layers_scan_step_returns_witness :
  ∃ x hiddens' g',
    update_layers_scan_step h2 W2 b2 true true 2 (2 # 5) true linear linear (lcg 64 1)
    = Ok ((x, hiddens'), g')
    ∧ update_layers h2 W2 b2 (Some []) true true 2 (2 # 5) true linear linear (lcg 64 1)
      = Ok ((hiddens', Some [x]), g')
    ∧ (∀ n, [3; 2; 2]%nat !! 0%nat = Some n → has_shape 2 n x)
    ∧ shaped 2 [3; 2; 2]%nat hiddens'.
Proof.
  apply (update_layers_scan_step_returns 2 [3; 2; 2]%nat h2 W2 b2);
    [simpl; lia | exact h2_shaped | exact W2_ok | exact b2_ok
    | exact linear_keeps_shape | exact linear_keeps_shape
    | exact tape_noise_keeps_shape].
Defined.

Lemma build_gsn_scan_returns_witness :
  ∃ x_sample cost g',
    build_gsn_scan X2 W2 b2 true true 2 (2 # 5) true linear linear 3 square_error
      (lcg 64 1)
    = Ok ((x_sample, cost, square_error x_sample X2), g')
    ∧ (∀ n, [3; 2; 2]%nat !! 0%nat = Some n → has_shape 2 n x_sample).
Proof.
  apply (build_gsn_scan_returns 2 3 [3; 2; 2]%nat X2 W2 b2);
    [lia | simpl; lia | intros n [= <-]; shape | exact W2_ok | exact b2_ok
    | exact linear_keeps_shape | exact linear_keeps_shape
    | exact tape_noise_keeps_shape].
Defined.

Lemma build_gsn_pxh_returns_witness :
  ∃ x_sample g',
    build_gsn_pxh h2 W2 b2 true true 2 (2 # 5) true linear linear 3 (lcg 64 1)
    = Ok (x_sample, g')
    ∧ (∀ n, [3; 2; 2]%nat !! 0%nat = Some n → has_shape 2 n x_sample).
Proof.
  apply (build_gsn_pxh_returns 2 3 [3; 2; 2]%nat h2 W2 b2);
    [lia | simpl; lia | exact h2_shaped | exact W2_ok | exact b2_ok
    | exact linear_keeps_shape | exact linear_keeps_shape
    | exact tape_noise_keeps_shape].
Defined.

Lemma build_gsn_returned_lengths_witness :
  length [X1; X1] = (length W1 + 1)%nat
  ∧ (∃ chain, Some [X1; X1] = Some chain ∧ length chain = 2%nat)
  ∧ ((1 ≤ 2)%nat → W1 ≠ []).
Proof.
  apply (build_gsn_returned_lengths X1 W1 b1 false true 2 (2 # 5) false linear linear 2
           ([] : tape) (Some [X1; X1]) [X1; X1] []).
  vm_compute. reflexivity.
Defined.

Lemma build_gsn_given_hiddens_returned_witness :
  (1 ≤ 1)%nat ∧ (2 ≤ length [X1; X1])%nat
  ∧ length [X1; X1] = length [X1; X1]
  ∧ ∃ chain rX, Some [X1] = Some chain ∧ length chain = 1%nat
                ∧ last chain = Some rX
                ∧ 0 = numpy_sum ((λ rX, square_error rX X1) <$> chain)
                ∧ 0 = square_error rX X1.
Proof.
  apply (build_gsn_given_hiddens_returned X1 [X1; X1] W1 b1
           false true 2 (2 # 5) false linear linear 1 square_error ([] : tape)
           (Some [X1]) [X1; X1] 0 0 []).
  vm_compute. reflexivity.
Defined.


Lemma constructor_empty_output_path_witness :
  __init__ (MRG:=tape) args_empty_path None None None X2 = (Raise IndexError, []).
Proof. apply (constructor_empty_output_path args_empty_path). reflexivity. Defined.

Lemma constructor_error_log_witness :
  __init__ (MRG:=tape) args_no_input_size None None None X2
  = (Raise AssertionError,
     [{| level_of := CRITICAL; msg := missing_input_size; args := [] |}])
  ∧ __init__ (MRG:=tape) args_no_activation None None None X2
    = (Raise NotImplementedError,
       [{| level_of := WARNING; msg := not_enough_walkbacks; args := [2; 3]%nat |};
        {| level_of := CRITICAL; msg := "Missing a hidden activation function!"%string;
           args := [] |}]).
Proof.
  split.
  - destruct (constructor_error_log (MRG:=tape) args_no_input_size None None None X2)
      as (Hdim & _); [discriminate|]. apply Hdim. reflexivity.
  - destruct (constructor_error_log (MRG:=tape) args_no_activation None None None X2)
      as (_ & Hhidden & _); [discriminate|].
    apply Hhidden; [by exists 3%nat | reflexivity].
Defined.

Lemma constructor_propagates_registry_errors_witness :
  __init__ (MRG:=tape) args_unknown_name None None None X2
  = (Raise NotImplementedError,
     [{| level_of := WARNING; msg := not_enough_walkbacks; args := [2; 3]%nat |}]).
Proof.
  destruct (constructor_propagates_registry_errors (MRG:=tape) args_unknown_name
              None None None X2 "tanh"%string NotImplementedError)
    as (Hhidden & _); [discriminate | by exists 3%nat |].
  apply Hhidden; reflexivity.
Defined.

Lemma args2_builds :
  ∃ self logs, __init__ (MRG:=tape) args2 None None None X2 = (Ok self, logs).
Proof.
  destruct (init_ok (MRG:=tape) args2 None None None X2 2 3 linear linear square_error)
    as (outdir & g & sc & co & mo & o & h & fp & E & _);
    [discriminate | reflexivity | reflexivity | reflexivity | reflexivity
    | exact linear_keeps_shape | exact linear_keeps_shape
    | exact tape_noise_keeps_shape | exact Q_initialisers_ok
    | simpl; lia | simpl; lia | shape | discriminate |].
  by eexists _, _.
Qed.





Lemma packed_hiddens_build_the_same_graph_witness :
  ∃ packed h',
    pack_hiddens unbuilt h2 = Ok packed
    ∧ unpack_hiddens unbuilt packed = Ok h'
    ∧ ∀ g, build_gsn_given_hiddens X2 h' (Self.weights_list unbuilt)
             (Self.bias_list unbuilt) true true 2 (2 # 5) true linear linear 3
             square_error g
           = build_gsn_given_hiddens X2 h2 (Self.weights_list unbuilt)
               (Self.bias_list unbuilt) true true 2 (2 # 5) true linear linear 3
               square_error g.
Proof.
  apply (packed_hiddens_build_the_same_graph unbuilt 2 h2 X2);
    [exact unbuilt_well_formed | exact h2_shaped].
Defined.

Lemma constructor_without_layers_witness :
  __init__ (MRG:=tape) args_no_layers None None None X2 = (Raise IndexError, []).
Proof.
  apply (constructor_without_layers args_no_layers None None None X2
           3 linear linear square_error);
    [discriminate | reflexivity | reflexivity | reflexivity | reflexivity | reflexivity].
Defined.

Lemma constructor_without_walkbacks_witness :
  __init__ (MRG:=tape) args_no_walkbacks None None None X2
  = (Raise IndexError,
     [{| level_of := WARNING; msg := not_enough_walkbacks;
         args := [Args.layers args_no_walkbacks; 0]%nat |}]).
Proof.
  apply (constructor_without_walkbacks args_no_walkbacks None None None X2
           2 3 linear linear square_error);
    [discriminate | reflexivity | reflexivity | reflexivity | reflexivity
    | exact linear_keeps_shape | exact linear_keeps_shape
    | exact tape_noise_keeps_shape | exact Q_initialisers_ok
    | simpl; lia | reflexivity | shape | discriminate].
Defined.

Lemma built_model_shapes_witness :
  ∃ self logs,
    __init__ (MRG:=tape) args2 None None None X2 = (Ok self, logs)
    ∧ (∃ output, get_outputs self = (Ok output, []) ∧ has_shape 2 3 output)
    ∧ (∃ packed, get_hiddens self = (Ok packed, [])
                 ∧ has_shape 2 (odd_width (Self.layer_sizes self)) packed)
    ∧ ((None : option (nat * tensor Q)) = None →
       ∀ B' input g, has_shape B' 3 input →
         ∃ out g', predict self input g = (Ok (out, g'), [])
                   ∧ has_shape B' 3 out).
Proof.
  apply (built_model_shapes (MRG:=tape) args2 None None None X2
           2 3 linear linear square_error);
    [discriminate | reflexivity | reflexivity | reflexivity | reflexivity
    | exact linear_keeps_shape | exact linear_keeps_shape
    | exact tape_noise_keeps_shape | exact Q_initialisers_ok
    | simpl; lia | simpl; lia | shape | discriminate].
Defined.

Lemma pack_hiddens_reads_odd_layers_witness :
  pack_hiddens unbuilt h2 = pack_hiddens unbuilt h2_even.
Proof.
  apply (pack_hiddens_reads_odd_layers unbuilt unbuilt h2 h2_even).
  exact h2_h2_even_odd_entries.
Defined.

Lemma update_odd_layers_noise_free_witness :
  ([] : tape) = []
  ∧ ∀ i, (i mod 2 = 1)%nat → (i < length h2)%nat →
      ∃ v, pre_activation h2 W2 b2 i = Ok v
           ∧ [X2; mkT 2 [[6; 13 # 2]; [15 # 2; 9]]; mkT 2 [[5; 6]; [7; 8]]] !! i
             = Some (linear v).
Proof.
  apply (update_odd_layers_noise_free h2 W2 b2 true 2 (2 # 5) false linear linear
           ([] : tape)).
  vm_compute. reflexivity.
Defined.

Lemma update_even_layers_noise_free_witness :
  ∃ v0,
    pre_activation h2 W2 b2 0 = Ok v0
    ∧ Some [mkT 3 [[1 # 2; 1; 3 # 2]; [3 # 2; 2; 7 # 2]]] = Some ([] ++ [linear v0])
    ∧ (let sampled := (linear v0, ([] : tape)) in
       let corrupted := salt_and_pepper sampled.1 (2 # 5) sampled.2 in
       [mkT 3 [[1 # 2; 1; 3 # 2]; [3 # 2; 2; 7 # 2]]; mkT 2 [[1; 2]; [3; 4]];
        mkT 2 [[1; 2]; [3; 4]]] !! 0%nat = Some corrupted.1
       ∧ ([] : tape) = corrupted.2)
    ∧ ∀ i, (i mod 2 = 0)%nat → (0 < i < length h2)%nat →
        ∃ v, pre_activation h2 W2 b2 i = Ok v
             ∧ [mkT 3 [[1 # 2; 1; 3 # 2]; [3 # 2; 2; 7 # 2]]; mkT 2 [[1; 2]; [3; 4]];
                mkT 2 [[1; 2]; [3; 4]]] !! i = Some (linear v).
Proof.
  apply (update_even_layers_noise_free h2 W2 b2 [] true 2 (2 # 5) false linear linear
           ([] : tape));
    [discriminate | vm_compute; reflexivity].
Defined.

Lemma graphs_feed_attributes_witness :
  ∃ self logs chain chain' rX out,
    __init__ (MRG:=tape) args2 None None None X2 = (Ok self, logs)
    ∧ length chain = Self.walkbacks self ∧ length chain' = Self.walkbacks self
    ∧ last chain = Some rX ∧ last chain' = Some out
    ∧ get_train_cost self
      = Ok (numpy_sum ((λ rX, Self.cost_function self rX (Self.X self)) <$> chain))
    ∧ get_outputs self = (Ok out, []).
Proof.
  destruct args2_builds as (self & logs & E).
  destruct (graphs_feed_attributes _ _ _ _ _ _ E)
    as (chain & hs & g1 & chain' & hs' & g2 & rX & out
        & _ & _ & Hc & Hc' & Hl & Hl' & Hcost & _ & Hout & _).
  exists self, logs, chain, chain', rX, out.
  exact (conj E (conj Hc (conj Hc' (conj Hl (conj Hl' (conj Hcost Hout)))))).
Defined.

Lemma unpack_hiddens_reads_leading_columns_witness :
  unpack_hiddens unbuilt wide
  = unpack_hiddens unbuilt (slice_cols wide 0 (odd_width (Self.layer_sizes unbuilt))).
Proof.
  apply (unpack_hiddens_reads_leading_columns unbuilt wide);
    [exact unbuilt_well_formed | unfold wf; simpl; repeat constructor].
Defined.

End MoreInstances.
